(** * Neutron: chain-index store (txdb-leveldb.cpp)

    A shallow embedding of the LevelDB-backed transaction database of the
    Neutron node: the batched transaction layer ([TxnBegin], [TxnCommit],
    [ScanBatch]), the opening of the database with its schema-version
    check ([CTxDB::CTxDB], [init_blockindex]) and the block-index loader
    with its tiered self-check ([CTxDB::LoadBlockIndex]). *)

From Stdlib Require Import ZArith List Lia Permutation Sorted Ascii DecimalString DecimalN.
From stdpp Require Import gmap strings list fin_maps sorting.

Open Scope Z_scope.

(** ** Outcomes of a C++ call

    A call returns, throws a [runtime_error], dies on a failed [assert],
    or runs into undefined behaviour (a null or dangling dereference, an
    out-of-range [operator[]]). *)

Inductive Outcome (A : Type) : Type :=
| Returns (a : A)
| Throws (what : string)
| Aborts
| Undefined.

Arguments Returns {A} a.
Arguments Throws {A} what.
Arguments Aborts {A}.
Arguments Undefined {A}.

#[global] Instance Outcome_bind : MBind Outcome := fun A B k o =>
  match o with
  | Returns a => k a
  | Throws w => Throws w
  | Aborts => Aborts
  | Undefined => Undefined
  end.

#[global] Instance Outcome_ret : MRet Outcome := fun A a => Returns a.

(** ** The batched transaction layer *)

(** A [leveldb::WriteBatch] is the ordered log of the operations appended
    to it; [WriteBatch::Iterate] replays the log in order into a handler. *)

Inductive BatchOp : Type :=
| BPut (key value : string)
| BDelete (key : string).

Definition WriteBatch : Type := list BatchOp.

Definition op_key (op : BatchOp) : string :=
  match op with
  | BPut k _ => k
  | BDelete k => k
  end.

(** [leveldb::Status]: only [ok()] is observed. *)
Inductive Status : Type :=
| StatusOK
| StatusError (what : string).

Definition ok (s : Status) : bool :=
  match s with StatusOK => true | StatusError _ => false end.

(** [class CBatchScanner]. The members [deleted] and [foundValue] are
    pointers into the caller's frame; the cells they point to are carried
    in the scanner state. *)
Record CBatchScanner : Type := mkScanner {
  needle : string;
  deleted : bool;
  foundValue : string;
  foundEntry : bool
}.

Definition CBatchScanner_Put (key value : string) (s : CBatchScanner) : CBatchScanner :=
  if String.eqb key (needle s)
  then {| needle := needle s; deleted := false; foundValue := value; foundEntry := true |}
  else s.

Definition CBatchScanner_Delete (key : string) (s : CBatchScanner) : CBatchScanner :=
  if String.eqb key (needle s)
  then {| needle := needle s; deleted := true; foundValue := foundValue s; foundEntry := true |}
  else s.

Definition handle (s : CBatchScanner) (op : BatchOp) : CBatchScanner :=
  match op with
  | BPut k v => CBatchScanner_Put k v s
  | BDelete k => CBatchScanner_Delete k s
  end.

(** Modelled from the spec: [leveldb::WriteBatch::Iterate], library code
    that is not in this file. The batch is an in-memory ordered log and
    the read path replays it through the visitor in order; the log of a
    batch built by [Put] and [Delete] is well formed, so the replay
    reports [OK]. *)
Definition Iterate (batch : WriteBatch) (s : CBatchScanner) : Status * CBatchScanner :=
  (StatusOK, fold_left handle batch s).

(** The members of a [CTxDB] object that this file touches. [pdb] is the
    pointer to the process-wide engine handle; it is modelled by whether
    it is non-null, the contents of the store being threaded separately. *)
Record CTxDB : Type := mkTxDB {
  pdb : bool;
  activeBatch : option WriteBatch;
  fReadOnly : bool;
  nVersion : option Z
}.

Definition set_activeBatch (b : option WriteBatch) (db : CTxDB) : CTxDB :=
  {| pdb := pdb db; activeBatch := b; fReadOnly := fReadOnly db; nVersion := nVersion db |}.

Section TxnLayer.

(** The KV engine behind [pdb]: its contents and its batch write, which
    may fail. *)
Variable Store : Type.
Variable pdb_Write : WriteBatch -> Store -> Status * Store.

(** [bool CTxDB::TxnBegin()] *)
Definition TxnBegin (db : CTxDB) : Outcome (bool * CTxDB) :=
  match activeBatch db with
  | Some _ => Aborts
  | None => Returns (true, set_activeBatch (Some []) db)
  end.

(** [bool CTxDB::TxnCommit()] *)
Definition TxnCommit (db : CTxDB) (store : Store) : Outcome (bool * CTxDB * Store) :=
  match activeBatch db with
  | None => Aborts
  | Some batch =>
      if negb (pdb db) then Undefined else
      let '(status, store) := pdb_Write batch store in
      let db := set_activeBatch None db in
      if negb (ok status) then Returns (false, db, store) else Returns (true, db, store)
  end.

(** [bool CTxDB::ScanBatch(key, value, deleted) const]: returns
    [scanner.foundEntry] together with the final contents of the two
    out-parameters [*value] and [*deleted]. *)
Definition ScanBatch (db : CTxDB) (key : string) (value : string)
  : Outcome (bool * string * bool) :=
  match activeBatch db with
  | None => Aborts
  | Some batch =>
      let scanner :=
        {| needle := key; deleted := false; foundValue := value; foundEntry := false |} in
      let '(status, scanner) := Iterate batch scanner in
      match status with
      | StatusError what => Throws what
      | StatusOK => Returns (foundEntry scanner, foundValue scanner, deleted scanner)
      end
  end.

End TxnLayer.

Arguments TxnCommit {Store} _ _ _.

(** What a read inside an open transaction learns from the batch: the
    three answers of the specification, read off the triple that
    [ScanBatch] hands back. *)
Inductive BatchRead : Type :=
| Found (value : string)
| Tombstoned
| NotInBatch.

Definition batch_read (r : bool * string * bool) : BatchRead :=
  let '(found, value, del) := r in
  if found then (if del then Tombstoned else Found value) else NotInBatch.

(** The pending operation on a key: the last one appended for it. *)
Fixpoint pending_op (key : string) (batch : WriteBatch) : option BatchOp :=
  match batch with
  | [] => None
  | op :: rest =>
      match pending_op key rest with
      | Some op' => Some op'
      | None => if String.eqb (op_key op) key then Some op else None
      end
  end.

Definition expected_read (key : string) (batch : WriteBatch) : BatchRead :=
  match pending_op key batch with
  | Some (BPut _ v) => Found v
  | Some (BDelete _) => Tombstoned
  | None => NotInBatch
  end.

(** ** Data model

    Hashes ([uint256]), heights ([int]), file ids and offsets
    ([unsigned int]) and addresses of heap objects are integers; a
    nullable pointer is an [option]. *)

Module OutPoint.
Record t : Type := mk { hash : Z; n : Z }.
End OutPoint.
Abbreviation COutPoint := OutPoint.t.

Module DiskTxPos.
Record t : Type := mk { nFile : Z; nBlockPos : Z; nTxPos : Z }.
End DiskTxPos.
Abbreviation CDiskTxPos := DiskTxPos.t.

Module TxIndex.
Record t : Type := mk { pos : CDiskTxPos; vSpent : list CDiskTxPos }.
End TxIndex.
Abbreviation CTxIndex := TxIndex.t.

Module TxIn.
Record t : Type := mk { prevout : COutPoint }.
End TxIn.
Abbreviation CTxIn := TxIn.t.

(** A transaction: its inputs, and the rest of its contents kept opaque. *)
Module Transaction.
Record t : Type := mk { vin : list CTxIn; payload : Z }.
End Transaction.
Abbreviation CTransaction := Transaction.t.

Module Block.
Record t : Type := mk { vtx : list CTransaction }.
End Block.
Abbreviation CBlock := Block.t.

(** [CDiskBlockIndex]: the fields the loader copies, with the two hash
    links in place of pointers. *)
Module DiskBlockIndex.
Record t : Type := mk {
  hashPrev : Z;
  hashNext : Z;
  nFile : Z;
  nBlockPos : Z;
  nHeight : Z;
  nMint : Z;
  nMoneySupply : Z;
  nFlags : Z;
  nStakeModifier : Z;
  prevoutStake : COutPoint;
  nStakeTime : Z;
  hashProof : Z;
  nVersion : Z;
  hashMerkleRoot : Z;
  nTime : Z;
  nBits : Z;
  nNonce : Z
}.
End DiskBlockIndex.
Abbreviation CDiskBlockIndex := DiskBlockIndex.t.

(** [CBlockIndex]: the in-memory node. [phashBlock] points at the key of
    the node's entry in [mapBlockIndex]. *)
Module BlockIndex.
Record t : Type := mk {
  phashBlock : option Z;
  pprev : option Z;
  pnext : option Z;
  nFile : Z;
  nBlockPos : Z;
  nChainTrust : Z;
  nHeight : Z;
  nMint : Z;
  nMoneySupply : Z;
  nFlags : Z;
  nStakeModifier : Z;
  nStakeModifierChecksum : Z;
  prevoutStake : COutPoint;
  nStakeTime : Z;
  hashProof : Z;
  nVersion : Z;
  hashMerkleRoot : Z;
  nTime : Z;
  nBits : Z;
  nNonce : Z
}.

Definition set_phashBlock (v : option Z) (b : t) : t :=
  mk v (pprev b) (pnext b) (nFile b) (nBlockPos b) (nChainTrust b) (nHeight b)
     (nMint b) (nMoneySupply b) (nFlags b) (nStakeModifier b)
     (nStakeModifierChecksum b) (prevoutStake b) (nStakeTime b) (hashProof b)
     (nVersion b) (hashMerkleRoot b) (nTime b) (nBits b) (nNonce b).

Definition set_pprev (v : option Z) (b : t) : t :=
  mk (phashBlock b) v (pnext b) (nFile b) (nBlockPos b) (nChainTrust b) (nHeight b)
     (nMint b) (nMoneySupply b) (nFlags b) (nStakeModifier b)
     (nStakeModifierChecksum b) (prevoutStake b) (nStakeTime b) (hashProof b)
     (nVersion b) (hashMerkleRoot b) (nTime b) (nBits b) (nNonce b).

Definition set_pnext (v : option Z) (b : t) : t :=
  mk (phashBlock b) (pprev b) v (nFile b) (nBlockPos b) (nChainTrust b) (nHeight b)
     (nMint b) (nMoneySupply b) (nFlags b) (nStakeModifier b)
     (nStakeModifierChecksum b) (prevoutStake b) (nStakeTime b) (hashProof b)
     (nVersion b) (hashMerkleRoot b) (nTime b) (nBits b) (nNonce b).

Definition set_nChainTrust (v : Z) (b : t) : t :=
  mk (phashBlock b) (pprev b) (pnext b) (nFile b) (nBlockPos b) v (nHeight b)
     (nMint b) (nMoneySupply b) (nFlags b) (nStakeModifier b)
     (nStakeModifierChecksum b) (prevoutStake b) (nStakeTime b) (hashProof b)
     (nVersion b) (hashMerkleRoot b) (nTime b) (nBits b) (nNonce b).

Definition set_nStakeModifierChecksum (v : Z) (b : t) : t :=
  mk (phashBlock b) (pprev b) (pnext b) (nFile b) (nBlockPos b) (nChainTrust b)
     (nHeight b) (nMint b) (nMoneySupply b) (nFlags b) (nStakeModifier b)
     v (prevoutStake b) (nStakeTime b) (hashProof b)
     (nVersion b) (hashMerkleRoot b) (nTime b) (nBits b) (nNonce b).

(** The block of assignments [pindexNew->nFile = diskindex.nFile; ...]
    of the load loop: every copied field, the links and the two derived
    fields left as they are. *)
Definition copy_fields (d : CDiskBlockIndex) (b : t) : t :=
  mk (phashBlock b) (pprev b) (pnext b)
     (DiskBlockIndex.nFile d) (DiskBlockIndex.nBlockPos d) (nChainTrust b)
     (DiskBlockIndex.nHeight d) (DiskBlockIndex.nMint d)
     (DiskBlockIndex.nMoneySupply d) (DiskBlockIndex.nFlags d)
     (DiskBlockIndex.nStakeModifier d) (nStakeModifierChecksum b)
     (DiskBlockIndex.prevoutStake d) (DiskBlockIndex.nStakeTime d)
     (DiskBlockIndex.hashProof d) (DiskBlockIndex.nVersion d)
     (DiskBlockIndex.hashMerkleRoot d) (DiskBlockIndex.nTime d)
     (DiskBlockIndex.nBits d) (DiskBlockIndex.nNonce d).
End BlockIndex.
Abbreviation CBlockIndex := BlockIndex.t.

(** ** The store

    Modelled from the spec: the key space of the store, read and written
    through the [Read], [Write] and [Exists] templates of the header and
    the byte codec, neither of which is in this file. The contents of the
    database are kept by logical record. The values under
    [("blockindex", hash)] are listed in the order of their keys, which
    is the order the iterator yields them in. *)
Record DB : Type := mkDB {
  db_version : option Z;
  db_tx : gmap Z CTxIndex;
  db_blockindex : list CDiskBlockIndex;
  db_hashBestChain : option Z;
  db_bnBestInvalidTrust : option Z;
  db_hashSyncCheckpoint : option Z;
  db_strCheckpointPubKey : option string
}.

Definition empty_DB : DB :=
  {| db_version := None; db_tx := ∅; db_blockindex := []; db_hashBestChain := None;
     db_bnBestInvalidTrust := None; db_hashSyncCheckpoint := None;
     db_strCheckpointPubKey := None |}.

Definition set_db_version (v : Z) (db : DB) : DB :=
  {| db_version := Some v; db_tx := db_tx db; db_blockindex := db_blockindex db;
     db_hashBestChain := db_hashBestChain db;
     db_bnBestInvalidTrust := db_bnBestInvalidTrust db;
     db_hashSyncCheckpoint := db_hashSyncCheckpoint db;
     db_strCheckpointPubKey := db_strCheckpointPubKey db |}.

(** ** Opening the database *)

(** The part of the process environment that opening touches: the
    directory [<datadir>/txleveldb] (absent, present without a database,
    or holding one), the regular files of the data directory by name, and
    whether the global [leveldb::DB *txdb] is non-null. *)
Record World : Type := mkWorld {
  txleveldb : option (option DB);
  datadir : gset string;
  txdb : bool
}.

(** [strprintf("blk%04u.dat", nFile)]: decimal, padded with zeros to four
    digits at least. *)
Fixpoint zeros (k : nat) : string :=
  match k with
  | O => ""
  | S k => String "0" (zeros k)
  end.

Definition fmt_04u (nFile : Z) : string :=
  let digits := NilEmpty.string_of_uint (N.to_uint (Z.to_N nFile)) in
  zeros (4 - String.length digits) +:+ digits.

Definition strBlockFile (nFile : Z) : string :=
  "blk" +:+ fmt_04u nFile +:+ ".dat".

(** The [while (true)] loop of [init_blockindex]; [nFile] is an
    [unsigned int]. The loop itself has no bound: [None] is a run that
    needs more than [fuel] iterations. *)
Fixpoint remove_block_files (fuel : nat) (nFile : Z) (files : gset string)
  : option (gset string) :=
  match fuel with
  | O => None
  | S fuel =>
      if negb (bool_decide (strBlockFile nFile ∈ files)) then Some files
      else remove_block_files fuel ((nFile + 1) mod 2 ^ 32) (files ∖ {[ strBlockFile nFile ]})
  end.

(** Reading the digits of a file name back: the number they denote,
    leading zeros or not. *)
Definition number_of (s : string) : option N :=
  N.of_uint <$> NilEmpty.uint_of_string s.

(** The files [blk0001.dat] to [blk<k>.dat]. *)
Definition block_files_from (nFile : Z) (k : nat) : gset string :=
  list_to_set (strBlockFile <$> seqZ nFile (Z.of_nat k)).

Definition block_files_upto (k : nat) : gset string := block_files_from 1 k.

(** Modelled from the spec: [leveldb::DB::Open(options, directory,
    &txdb)] with the option [create_if_missing], on the directory that
    [create_directory] has just made sure of: a database that is there is
    opened; one that is missing is created if the option says so, and
    the open fails otherwise. *)
Definition DB_Open (create_if_missing : bool) (dir : option DB) : Status * option DB :=
  match dir with
  | Some db => (StatusOK, Some db)
  | None =>
      if create_if_missing then (StatusOK, Some empty_DB)
      else (StatusError "does not exist (create_if_missing is false)", None)
  end.

(** [void init_blockindex(leveldb::Options& options, bool fRemoveOld)].
    A removal loop over [n] files ends within [n + 1] iterations
    ([remove_block_files_terminates]). To [Open], a directory that
    [create_directory] made and one that was there without a database
    are the same. *)
Definition init_blockindex (create_if_missing : bool) (fRemoveOld : bool) (w : World)
  : Outcome World :=
  let w :=
    if fRemoveOld then
      {| txleveldb := None;
         datadir := default (datadir w)
                      (remove_block_files (S (size (datadir w))) 1 (datadir w));
         txdb := txdb w |}
    else w in
  let directory := match txleveldb w with None => None | Some d => d end in
  let '(status, opened) := DB_Open create_if_missing directory in
  if negb (ok status)
  then Throws "init_blockindex : error opening database environment"
  else Returns {| txleveldb := Some opened; datadir := datadir w; txdb := true |}.

(** [strchr(pszMode, c)] as a truth value. *)
Fixpoint strchr (s : string) (c : Ascii.ascii) : bool :=
  match s with
  | EmptyString => false
  | String a s => if Ascii.eqb a c then true else strchr s c
  end.

(** Modelled from the spec: the typed accessors of the singleton key
    ["version"] ([Exists], [ReadVersion] and [WriteVersion] of the
    header), acting through the open handle on the contents of the
    store. A write through a read-only handle trips an assert, which is
    why the constructor lifts [fReadOnly] around its writes. *)
Definition open_db (w : World) : Outcome DB :=
  if negb (txdb w) then Undefined else
  match txleveldb w with
  | Some (Some db) => Returns db
  | _ => Undefined
  end.

Definition Exists_version (w : World) : Outcome bool :=
  db ← open_db w; Returns (bool_decide (is_Some (db_version db))).

(** [ReadVersion(nVersion)]: the member is assigned when the key is read,
    and left as it was (never initialised by the constructor) otherwise. *)
Definition ReadVersion (w : World) (self : CTxDB) : Outcome CTxDB :=
  db ← open_db w;
  Returns match db_version db with
          | Some v => {| pdb := pdb self; activeBatch := activeBatch self;
                         fReadOnly := fReadOnly self; nVersion := Some v |}
          | None => self
          end.

Definition WriteVersion (v : Z) (self : CTxDB) (w : World) : Outcome World :=
  if fReadOnly self then Aborts else
  db ← open_db w;
  Returns {| txleveldb := Some (Some (set_db_version v db)); datadir := datadir w;
             txdb := txdb w |}.

Definition set_fReadOnly (b : bool) (self : CTxDB) : CTxDB :=
  {| pdb := pdb self; activeBatch := activeBatch self; fReadOnly := b;
     nVersion := nVersion self |}.

Definition set_pdb (b : bool) (self : CTxDB) : CTxDB :=
  {| pdb := b; activeBatch := activeBatch self; fReadOnly := fReadOnly self;
     nVersion := nVersion self |}.

(** [CTxDB::CTxDB(const char* pszMode)]. The log call of line 110, made
    when the stored version is outdated and before anything is removed,
    gives [LogPrintf] a format with the two conversions [%s] and [%d]
    and one argument, an [int]. [LogPrintf] is not in this file and what
    it does with such a call is its own: it throws where the format is
    checked against the arguments, and the call is undefined where they
    go to [printf]. [LogPrintf_line_110] is the outcome of that call,
    [Returns tt] being a logger that lets it pass. The other log calls
    of the file match their formats. *)
Definition CTxDB_ctor (LogPrintf_line_110 : Outcome unit) (DATABASE_VERSION : Z)
    (pszMode : string) (w : World)
  : Outcome (CTxDB * World) :=
  let self :=
    {| pdb := false; activeBatch := None;
       fReadOnly := negb (strchr pszMode "+"%char) && negb (strchr pszMode "w"%char);
       nVersion := None |} in
  if txdb w then Returns (set_pdb true self, w) else
  let fCreate := strchr pszMode "c"%char in
  w ← init_blockindex fCreate false w;
  let self := set_pdb (txdb w) self in
  has_version ← Exists_version w;
  if has_version : bool then
    self ← ReadVersion w self;
    nVersion ← (match nVersion self with Some v => Returns v | None => Undefined end);
    if bool_decide (nVersion < DATABASE_VERSION) then
      LogPrintf_line_110 ≫= fun _ : unit =>
      let w := {| txleveldb := txleveldb w; datadir := datadir w; txdb := false |} in
      let self := set_activeBatch None (set_pdb false self) in
      w ← init_blockindex fCreate true w;
      let self := set_pdb (txdb w) self in
      let fTmp := fReadOnly self in
      w ← WriteVersion DATABASE_VERSION (set_fReadOnly false self) w;
      Returns (set_fReadOnly fTmp self, w)
    else Returns (self, w)
  else if fCreate then
    let fTmp := fReadOnly self in
    w ← WriteVersion DATABASE_VERSION (set_fReadOnly false self) w;
    Returns (set_fReadOnly fTmp self, w)
  else Returns (self, w).

(** ** The block-index loader *)

(** What the loader logs besides plain progress lines: the [[WARNING]]
    of each check that moves the fork pointer, and the call that re-seats
    the best chain. The first argument is the address of the block index
    concerned. *)
Inductive Warning : Type :=
| BadBlock
| CannotReadMislocatedTx (hashTx : Z)
| InvalidTxPosition (hashTx : Z)
| BadSpend (hashTx : Z)
| CannotReadSpendingTx (hashTx : Z) (nOutput : Z)
| SpendingTxInvalid (hashTx : Z) (nOutput : Z)
| SpendingTxDoesNotSpend (hashTx : Z) (nOutput : Z)
| UnspentPrevout (prevout : COutPoint) (hashTx : Z).

Inductive Event : Type :=
| EvWarning (pindex : Z) (w : Warning)
| EvSetBestChain (pindexFork : Z).

(** The globals of main.cpp that the loader reads and writes, the heap
    of [CBlockIndex] objects, the number of reads of [fRequestShutdown]
    made so far, and the events emitted. *)
Record State : Type := mkState {
  mapBlockIndex : gmap Z Z;
  heap : gmap Z CBlockIndex;
  setStakeSeen : gset (Z * Z * Z);
  hashBestChain : Z;
  pindexBest : option Z;
  nBestHeight : Z;
  nBestChainTrust : Z;
  hashSyncCheckpoint : Z;
  nBestInvalidTrust : Z;
  nShutdownReads : nat;
  events : list Event
}.

Definition set_index (m : gmap Z Z) (h : gmap Z CBlockIndex) (st : State) : State :=
  {| mapBlockIndex := m; heap := h; setStakeSeen := setStakeSeen st;
     hashBestChain := hashBestChain st; pindexBest := pindexBest st;
     nBestHeight := nBestHeight st; nBestChainTrust := nBestChainTrust st;
     hashSyncCheckpoint := hashSyncCheckpoint st;
     nBestInvalidTrust := nBestInvalidTrust st;
     nShutdownReads := nShutdownReads st; events := events st |}.

Definition set_heap (h : gmap Z CBlockIndex) (st : State) : State :=
  set_index (mapBlockIndex st) h st.

Definition set_setStakeSeen (s : gset (Z * Z * Z)) (st : State) : State :=
  {| mapBlockIndex := mapBlockIndex st; heap := heap st; setStakeSeen := s;
     hashBestChain := hashBestChain st; pindexBest := pindexBest st;
     nBestHeight := nBestHeight st; nBestChainTrust := nBestChainTrust st;
     hashSyncCheckpoint := hashSyncCheckpoint st;
     nBestInvalidTrust := nBestInvalidTrust st;
     nShutdownReads := nShutdownReads st; events := events st |}.

Definition set_best (hash : Z) (pindex : option Z) (height trust : Z) (st : State) : State :=
  {| mapBlockIndex := mapBlockIndex st; heap := heap st; setStakeSeen := setStakeSeen st;
     hashBestChain := hash; pindexBest := pindex;
     nBestHeight := height; nBestChainTrust := trust;
     hashSyncCheckpoint := hashSyncCheckpoint st;
     nBestInvalidTrust := nBestInvalidTrust st;
     nShutdownReads := nShutdownReads st; events := events st |}.

Definition set_hashSyncCheckpoint (hash : Z) (st : State) : State :=
  {| mapBlockIndex := mapBlockIndex st; heap := heap st; setStakeSeen := setStakeSeen st;
     hashBestChain := hashBestChain st; pindexBest := pindexBest st;
     nBestHeight := nBestHeight st; nBestChainTrust := nBestChainTrust st;
     hashSyncCheckpoint := hash;
     nBestInvalidTrust := nBestInvalidTrust st;
     nShutdownReads := nShutdownReads st; events := events st |}.

Definition set_nBestInvalidTrust (trust : Z) (st : State) : State :=
  {| mapBlockIndex := mapBlockIndex st; heap := heap st; setStakeSeen := setStakeSeen st;
     hashBestChain := hashBestChain st; pindexBest := pindexBest st;
     nBestHeight := nBestHeight st; nBestChainTrust := nBestChainTrust st;
     hashSyncCheckpoint := hashSyncCheckpoint st;
     nBestInvalidTrust := trust;
     nShutdownReads := nShutdownReads st; events := events st |}.

Definition tick (st : State) : State :=
  {| mapBlockIndex := mapBlockIndex st; heap := heap st; setStakeSeen := setStakeSeen st;
     hashBestChain := hashBestChain st; pindexBest := pindexBest st;
     nBestHeight := nBestHeight st; nBestChainTrust := nBestChainTrust st;
     hashSyncCheckpoint := hashSyncCheckpoint st;
     nBestInvalidTrust := nBestInvalidTrust st;
     nShutdownReads := S (nShutdownReads st); events := events st |}.

Definition emit (ev : Event) (st : State) : State :=
  {| mapBlockIndex := mapBlockIndex st; heap := heap st; setStakeSeen := setStakeSeen st;
     hashBestChain := hashBestChain st; pindexBest := pindexBest st;
     nBestHeight := nBestHeight st; nBestChainTrust := nBestChainTrust st;
     hashSyncCheckpoint := hashSyncCheckpoint st;
     nBestInvalidTrust := nBestInvalidTrust st;
     nShutdownReads := nShutdownReads st; events := events st ++ [ev] |}.

(** A process that has loaded nothing yet: no index, no nodes, no
    events. The values given to the best-chain globals are of no
    consequence, the loader writes them before it reads them. *)
Definition initial_State : State :=
  {| mapBlockIndex := ∅; heap := ∅; setStakeSeen := ∅; hashBestChain := 0;
     pindexBest := None; nBestHeight := -1; nBestChainTrust := 0;
     hashSyncCheckpoint := 0; nBestInvalidTrust := 0; nShutdownReads := O;
     events := [] |}.

(** What the loader takes from the rest of the node: configuration,
    constants, the shutdown flag as a function of how often it has been
    read, the allocator, and the collaborators' functions. *)
Record Env : Type := mkEnv {
  fTestNet : bool;
  hashGenesisBlock : Z;
  hashGenesisBlockTestNet : Z;
  GetArg : string -> Z -> Z;
  fRequestShutdown : nat -> bool;
  operator_new : gmap Z CBlockIndex -> Z;
  new_CBlockIndex : CBlockIndex;
  GetBlockHash : CDiskBlockIndex -> Z;
  CheckIndex : CBlockIndex -> bool;
  IsProofOfStake : CBlockIndex -> bool;
  GetBlockTrust : CBlockIndex -> Z;
  GetStakeModifierChecksum : gmap Z CBlockIndex -> Z -> Z;
  CheckStakeModifierCheckpoints : Z -> Z -> bool;
  Block_ReadFromDisk : CBlockIndex -> option CBlock;
  CheckBlock : CBlock -> bool -> bool -> bool -> bool;
  Tx_GetHash : CTransaction -> Z;
  Tx_ReadFromDisk : CDiskTxPos -> option CTransaction;
  CheckTransaction : CTransaction -> bool;
  IsNull : CDiskTxPos -> bool
}.

(** How [LoadBlockIndex] returns: [true], or [false] through one of its
    [error(...)] lines. *)
Inductive LoadError : Type :=
| CheckIndexFailed (nHeight : Z)
| StakeModifierCheckpointFailed (nHeight : Z)
| HashBestChainNotLoaded
| HashBestChainNotFound
| HashSyncCheckpointNotLoaded
| BlockReadFromDiskFailed.

Inductive LoadReturn : Type :=
| LoadTrue
| LoadFalse (e : LoadError).

Definition return_value (r : LoadReturn) : bool :=
  match r with LoadTrue => true | LoadFalse _ => false end.

(** A phase of the function either falls through to the next one or
    returns from the function. *)
Inductive Flow (A : Type) : Type :=
| Next (a : A)
| Return (r : LoadReturn) (st : State).

Arguments Next {A} a.
Arguments Return {A} r st.

(** Conversion to [int] of the [int64_t] that [GetArg] returns: the
    value modulo [2^32], as a 32-bit two's complement number. *)
Definition to_int (z : Z) : Z := (z + 2 ^ 31) mod 2 ^ 32 - 2 ^ 31.

(** Whether a result of [int] arithmetic is an [int]; one that is not is
    a signed overflow, which is undefined. *)
Definition fits_int (z : Z) : bool := bool_decide (- 2 ^ 31 <= z < 2 ^ 31).

(** 256-bit unsigned addition ([uint256::operator+]). *)
Definition add256 (a b : Z) : Z := (a + b) mod 2 ^ 256.

(** Reading and writing through a [CBlockIndex*]. *)
Definition deref (st : State) (p : Z) : Outcome CBlockIndex :=
  match heap st !! p with
  | Some node => Returns node
  | None => Undefined
  end.

Definition store (p : Z) (node : CBlockIndex) (st : State) : State :=
  set_heap (<[p := node]> (heap st)) st.

(** Reading [fRequestShutdown]. *)
Definition poll (env : Env) (st : State) : bool * State :=
  (fRequestShutdown env (nShutdownReads st), tick st).

(** [static CBlockIndex *InsertBlockIndex(uint256 hash)] *)
Definition InsertBlockIndex (env : Env) (hash : Z) (st : State) : option Z * State :=
  if bool_decide (hash = 0) then (None, st) else
  match mapBlockIndex st !! hash with
  | Some p => (Some p, st)
  | None =>
      let pindexNew := operator_new env (heap st) in
      (Some pindexNew,
       set_index (<[hash := pindexNew]> (mapBlockIndex st))
                 (<[pindexNew := BlockIndex.set_phashBlock (Some hash) (new_CBlockIndex env)]>
                    (heap st))
                 st)
  end.

(** *** Phase 1: streaming the records *)

(** Modelled from the spec: what the iterator yields from
    [Seek(("blockindex", 0))] on, keys being compared as their encoded
    bytes (the length-prefixed type string first): the block-index
    records, then the singleton keys that sort after them, of which only
    the type string is looked at. *)
Inductive Entry : Type :=
| BlockIndexEntry (diskindex : CDiskBlockIndex)
| OtherEntry (strType : string).

Definition strType_of (e : Entry) : string :=
  match e with
  | BlockIndexEntry _ => "blockindex"
  | OtherEntry s => s
  end.

Definition present {A} (name : string) (o : option A) : list Entry :=
  match o with Some _ => [OtherEntry name] | None => [] end.

Definition NewIterator_Seek_blockindex (db : DB) : list Entry :=
  map BlockIndexEntry (db_blockindex db)
  ++ present "hashBestChain" (db_hashBestChain db)
  ++ present "bnBestInvalidTrust" (db_bnBestInvalidTrust db)
  ++ present "hashSyncCheckpoint" (db_hashSyncCheckpoint db)
  ++ present "strCheckpointPubKey" (db_strCheckpointPubKey db).

(** The body of the [while (iterator->Valid())] loop for one record. *)
Definition load_record (env : Env) (diskindex : CDiskBlockIndex) (st : State)
  : Outcome (Flow State) :=
  let blockHash := GetBlockHash env diskindex in
  let '(pindexNew, st) := InsertBlockIndex env blockHash st in
  match pindexNew with
  | None => Undefined
  | Some pindexNew =>
      let '(prev, st) := InsertBlockIndex env (DiskBlockIndex.hashPrev diskindex) st in
      node ← deref st pindexNew;
      let st := store pindexNew (BlockIndex.set_pprev prev node) st in
      let '(next, st) := InsertBlockIndex env (DiskBlockIndex.hashNext diskindex) st in
      node ← deref st pindexNew;
      let st := store pindexNew (BlockIndex.set_pnext next node) st in
      node ← deref st pindexNew;
      let node := BlockIndex.copy_fields diskindex node in
      let st := store pindexNew node st in
      if negb (CheckIndex env node)
      then Returns (Return (LoadFalse (CheckIndexFailed (BlockIndex.nHeight node))) st)
      else
        let st :=
          if IsProofOfStake env node
          then set_setStakeSeen
                 ({[ (OutPoint.hash (BlockIndex.prevoutStake node),
                      OutPoint.n (BlockIndex.prevoutStake node),
                      BlockIndex.nStakeTime node) ]} ∪ setStakeSeen st) st
          else st in
        Returns (Next st)
  end.

Fixpoint load_records (env : Env) (iterator : list Entry) (st : State)
  : Outcome (Flow State) :=
  match iterator with
  | [] => Returns (Next st)
  | entry :: iterator =>
      let '(shutdown, st) := poll env st in
      if shutdown || negb (String.eqb (strType_of entry) "blockindex")
      then Returns (Next st)
      else
        match entry with
        | OtherEntry _ => Throws "CDataStream::read() : end of data"
        | BlockIndexEntry diskindex =>
            r ← load_record env diskindex st;
            match r with
            | Next st => load_records env iterator st
            | Return e st => Returns (Return e st)
            end
        end
  end.

(** *** Phase 2: chain trust *)

(** [operator<=] on [pair<int, CBlockIndex*>], the order [std::sort]
    sorts by: the height first, the address of the node second. *)
Definition pair_le (a b : Z * Z) : Prop :=
  a.1 < b.1 ∨ (a.1 = b.1 ∧ a.2 ≤ b.2).

#[global] Instance pair_le_dec (a b : Z * Z) : Decision (pair_le a b).
Proof. unfold pair_le. apply _. Defined.

(** [std::map] iterates in the order of its keys. *)
Definition key_le (a b : Z * Z) : Prop := a.1 ≤ b.1.

#[global] Instance key_le_dec (a b : Z * Z) : Decision (key_le a b).
Proof. unfold key_le. apply _. Defined.

Definition in_key_order (m : gmap Z Z) : list (Z * Z) :=
  merge_sort key_le (map_to_list m).

(** The height stored in the node at an address. *)
Definition height_at (st : State) (pindex : Z) : Z :=
  match heap st !! pindex with
  | Some node => BlockIndex.nHeight node
  | None => 0
  end.

(** The first [BOOST_FOREACH]: one [(nHeight, pindex)] pair per entry of
    [mapBlockIndex]. *)
Fixpoint push_back_heights (st : State) (items : list (Z * Z)) : Outcome (list (Z * Z)) :=
  match items with
  | [] => Returns []
  | (_, pindex) :: items =>
      node ← deref st pindex;
      rest ← push_back_heights st items;
      Returns ((BlockIndex.nHeight node, pindex) :: rest)
  end.

Definition vSortedByHeight (st : State) : Outcome (list (Z * Z)) :=
  v ← push_back_heights st (in_key_order (mapBlockIndex st));
  Returns (merge_sort pair_le v).

(** The body of the second [BOOST_FOREACH]. *)
Definition chain_trust_step (env : Env) (pindex : Z) (st : State) : Outcome (Flow State) :=
  node ← deref st pindex;
  prevTrust ← match BlockIndex.pprev node with
              | Some pprev => prev ← deref st pprev; Returns (BlockIndex.nChainTrust prev)
              | None => Returns 0
              end;
  let node := BlockIndex.set_nChainTrust (add256 prevTrust (GetBlockTrust env node)) node in
  let st := store pindex node st in
  let node :=
    BlockIndex.set_nStakeModifierChecksum (GetStakeModifierChecksum env (heap st) pindex) node in
  let st := store pindex node st in
  if negb (CheckStakeModifierCheckpoints env (BlockIndex.nHeight node)
             (BlockIndex.nStakeModifierChecksum node))
  then Returns (Return (LoadFalse (StakeModifierCheckpointFailed (BlockIndex.nHeight node))) st)
  else Returns (Next st).

Fixpoint chain_trust_loop (env : Env) (items : list (Z * Z)) (st : State)
  : Outcome (Flow State) :=
  match items with
  | [] => Returns (Next st)
  | (_, pindex) :: items =>
      r ← chain_trust_step env pindex st;
      match r with
      | Next st => chain_trust_loop env items st
      | Return e st => Returns (Return e st)
      end
  end.

Definition calculate_chain_trust (env : Env) (st : State) : Outcome (Flow State) :=
  v ← vSortedByHeight st;
  chain_trust_loop env v st.

(** The order Phase 2 would visit the nodes in if ties between nodes of
    equal height were broken by block hash, as the specification words
    it. Hashes are compared as [uint256] values. *)
Definition hash_le (a b : Z * (Z * Z)) : Prop :=
  a.1 < b.1 ∨ (a.1 = b.1 ∧ a.2.1 ≤ b.2.1).

#[global] Instance hash_le_dec (a b : Z * (Z * Z)) : Decision (hash_le a b).
Proof. unfold hash_le. apply _. Defined.

Fixpoint with_heights (st : State) (items : list (Z * Z)) : list (Z * (Z * Z)) :=
  match items with
  | [] => []
  | (hash, pindex) :: items =>
      match heap st !! pindex with
      | Some node => (BlockIndex.nHeight node, (hash, pindex)) :: with_heights st items
      | None => with_heights st items
      end
  end.

Definition order_by_height_then_hash (st : State) : list Z :=
  map (fun x => x.2.2) (merge_sort hash_le (with_heights st (in_key_order (mapBlockIndex st)))).

(** *** Phase 3: the best-chain pointer *)

(** Modelled from the spec: [blockIndex.contains(hash)], whose object
    [blockIndex] is declared outside this file; the specification reads
    the test as asking whether the genesis hash is absent from the loaded
    block index. *)
Definition blockIndex_contains (st : State) (hash : Z) : bool :=
  bool_decide (is_Some (mapBlockIndex st !! hash)).

(** From [ReadHashBestChain] to [ReadBestInvalidTrust]. *)
Definition load_best_chain (env : Env) (db : DB) (st : State) : Outcome (Flow State) :=
  match db_hashBestChain db with
  | None =>
      if negb (blockIndex_contains st
                 (if fTestNet env then hashGenesisBlock env else hashGenesisBlockTestNet env))
      then Returns (Return LoadTrue st)
      else Returns (Return (LoadFalse HashBestChainNotLoaded) st)
  | Some hash =>
      let st := set_best hash (pindexBest st) (nBestHeight st) (nBestChainTrust st) st in
      match mapBlockIndex st !! hash with
      | None => Returns (Return (LoadFalse HashBestChainNotFound) st)
      | Some pindex =>
          node ← deref st pindex;
          let st := set_best hash (Some pindex) (BlockIndex.nHeight node)
                      (BlockIndex.nChainTrust node) st in
          match db_hashSyncCheckpoint db with
          | None => Returns (Return (LoadFalse HashSyncCheckpointNotLoaded) st)
          | Some checkpoint =>
              let st := set_hashSyncCheckpoint checkpoint st in
              Returns (Next (set_nBestInvalidTrust (default 0 (db_bnBestInvalidTrust db)) st))
          end
      end
  end.

(** *** Phase 4: the self-check *)

(** The locals of the walk. *)
Record Walk : Type := mkWalk {
  pindexFork : option Z;
  mapBlockPos : gmap (Z * Z) Z;
  walk_events : list Event
}.

(** [LogPrintf("... [WARNING] ..."); pindexFork = pindex->pprev;] *)
Definition flag (pindex : Z) (node : CBlockIndex) (warning : Warning) (w : Walk) : Walk :=
  {| pindexFork := BlockIndex.pprev node;
     mapBlockPos := mapBlockPos w;
     walk_events := walk_events w ++ [EvWarning pindex warning] |}.

Definition ReadTxIndex (db : DB) (hash : Z) : option CTxIndex := db_tx db !! hash.

(** Check levels 4 and 6, for one entry of [txindex.vSpent]. *)
Definition check_spent (env : Env) (nCheckLevel : Z) (pindex : Z) (node : CBlockIndex)
    (hashTx : Z) (nOutput : Z) (txpos : CDiskTxPos) (w : Walk) : Walk :=
  if IsNull env txpos then w else
  let posFind := (DiskTxPos.nFile txpos, DiskTxPos.nBlockPos txpos) in
  let w :=
    if negb (bool_decide (is_Some (mapBlockPos w !! posFind)))
    then flag pindex node (BadSpend hashTx) w
    else w in
  if bool_decide (nCheckLevel > 5) then
    match Tx_ReadFromDisk env txpos with
    | None => flag pindex node (CannotReadSpendingTx hashTx nOutput) w
    | Some txSpend =>
        if negb (CheckTransaction env txSpend)
        then flag pindex node (SpendingTxInvalid hashTx nOutput) w
        else
          let fFound :=
            existsb (fun txin =>
                       bool_decide (OutPoint.hash (TxIn.prevout txin) = hashTx)
                       && bool_decide (OutPoint.n (TxIn.prevout txin) = nOutput))
                    (Transaction.vin txSpend) in
          if negb fFound
          then flag pindex node (SpendingTxDoesNotSpend hashTx nOutput) w
          else w
    end
  else w.

(** The loop over [txindex.vSpent], with its counter [nOutput]
    ([unsigned int]). *)
Fixpoint check_all_spent (env : Env) (nCheckLevel : Z) (pindex : Z) (node : CBlockIndex)
    (hashTx : Z) (nOutput : Z) (vSpent : list CDiskTxPos) (w : Walk) : Walk :=
  match vSpent with
  | [] => w
  | txpos :: vSpent =>
      let w := check_spent env nCheckLevel pindex node hashTx nOutput txpos w in
      check_all_spent env nCheckLevel pindex node hashTx ((nOutput + 1) mod 2 ^ 32) vSpent w
  end.

(** Check level 5, for one input of the transaction. [vSpent.size() - 1]
    is computed in [size_t]; [vSpent[n]] past the end is undefined. *)
Definition check_prevout (env : Env) (db : DB) (pindex : Z) (node : CBlockIndex)
    (hashTx : Z) (txin : CTxIn) (w : Walk) : Outcome Walk :=
  let prevout := TxIn.prevout txin in
  match ReadTxIndex db (OutPoint.hash prevout) with
  | None => Returns w
  | Some txindex =>
      let vSpent := TxIndex.vSpent txindex in
      if bool_decide ((Z.of_nat (length vSpent) - 1) mod 2 ^ 64 < OutPoint.n prevout)
      then Returns (flag pindex node (UnspentPrevout prevout hashTx) w)
      else
        match vSpent !! Z.to_nat (OutPoint.n prevout) with
        | None => Undefined
        | Some txpos =>
            if IsNull env txpos
            then Returns (flag pindex node (UnspentPrevout prevout hashTx) w)
            else Returns w
        end
  end.

Fixpoint check_prevouts (env : Env) (db : DB) (pindex : Z) (node : CBlockIndex)
    (hashTx : Z) (vin : list CTxIn) (w : Walk) : Outcome Walk :=
  match vin with
  | [] => Returns w
  | txin :: vin =>
      w ← check_prevout env db pindex node hashTx txin w;
      check_prevouts env db pindex node hashTx vin w
  end.

(** Check levels 2 and 3, for the transaction's own index entry. *)
Definition check_tx_position (env : Env) (nCheckLevel : Z) (pindex : Z)
    (node : CBlockIndex) (hashTx : Z) (txindex : CTxIndex) (w : Walk) : Walk :=
  if bool_decide (nCheckLevel > 2)
     || negb (bool_decide (BlockIndex.nFile node = DiskTxPos.nFile (TxIndex.pos txindex)))
     || negb (bool_decide (BlockIndex.nBlockPos node = DiskTxPos.nBlockPos (TxIndex.pos txindex)))
  then
    match Tx_ReadFromDisk env (TxIndex.pos txindex) with
    | None => flag pindex node (CannotReadMislocatedTx hashTx) w
    | Some txFound =>
        if negb (bool_decide (Tx_GetHash env txFound = hashTx))
        then flag pindex node (InvalidTxPosition hashTx) w
        else w
    end
  else w.

(** The body of [BOOST_FOREACH(const CTransaction &tx, block.vtx)]. *)
Definition check_tx (env : Env) (db : DB) (nCheckLevel : Z) (pindex : Z)
    (node : CBlockIndex) (tx : CTransaction) (w : Walk) : Outcome Walk :=
  let hashTx := Tx_GetHash env tx in
  let w :=
    match ReadTxIndex db hashTx with
    | Some txindex =>
        let w := check_tx_position env nCheckLevel pindex node hashTx txindex w in
        if bool_decide (nCheckLevel > 3)
        then check_all_spent env nCheckLevel pindex node hashTx 0 (TxIndex.vSpent txindex) w
        else w
    | None => w
    end in
  if bool_decide (nCheckLevel > 4)
  then check_prevouts env db pindex node hashTx (Transaction.vin tx) w
  else Returns w.

Fixpoint check_txs (env : Env) (db : DB) (nCheckLevel : Z) (pindex : Z)
    (node : CBlockIndex) (vtx : list CTransaction) (w : Walk) : Outcome Walk :=
  match vtx with
  | [] => Returns w
  | tx :: vtx =>
      w ← check_tx env db nCheckLevel pindex node tx w;
      check_txs env db nCheckLevel pindex node vtx w
  end.

(** The checks made on one walked block, once it has been read. *)
Definition check_block (env : Env) (db : DB) (nCheckLevel : Z) (pindex : Z)
    (node : CBlockIndex) (block : CBlock) (w : Walk) : Outcome Walk :=
  let w :=
    if bool_decide (nCheckLevel > 0)
       && negb (CheckBlock env block true true (bool_decide (nCheckLevel > 6)))
    then flag pindex node BadBlock w
    else w in
  if bool_decide (nCheckLevel > 1) then
    let pos := (BlockIndex.nFile node, BlockIndex.nBlockPos node) in
    let w := {| pindexFork := pindexFork w;
                mapBlockPos := <[pos := pindex]> (mapBlockPos w);
                walk_events := walk_events w |} in
    check_txs env db nCheckLevel pindex node (Block.vtx block) w
  else Returns w.

(** The warnings of the walk go to the log. *)
Definition log_events (w : Walk) (st : State) : State :=
  fold_left (fun st ev => emit ev st) (walk_events w) st.

(** The [for (pindex = pindexBest; pindex && pindex->pprev; pindex =
    pindex->pprev)] loop. Nothing in the loop bounds the number of its
    iterations: [None] is a run that needs more than [fuel] of them. The
    bound [nBestHeight - nCheckDepth] is computed in [int], after the
    test of the shutdown flag. *)
Fixpoint walk (fuel : nat) (env : Env) (db : DB) (nCheckLevel nCheckDepth : Z)
    (pindex : option Z) (w : Walk) (st : State) : option (Outcome (Flow (Walk * State))) :=
  match fuel with
  | O => None
  | S fuel =>
      match pindex with
      | None => Some (Returns (Next (w, st)))
      | Some pindex =>
          match heap st !! pindex with
          | None => Some Undefined
          | Some node =>
              match BlockIndex.pprev node with
              | None => Some (Returns (Next (w, st)))
              | Some _ =>
                  let '(shutdown, st) := poll env st in
                  if shutdown then Some (Returns (Next (w, st)))
                  else if negb (fits_int (nBestHeight st - nCheckDepth)) then Some Undefined
                  else if bool_decide (BlockIndex.nHeight node < nBestHeight st - nCheckDepth)
                  then Some (Returns (Next (w, st)))
                  else
                    match Block_ReadFromDisk env node with
                    | None =>
                        Some (Returns (Return (LoadFalse BlockReadFromDiskFailed)
                                         (log_events w st)))
                    | Some block =>
                        match check_block env db nCheckLevel pindex node block w with
                        | Returns w =>
                            walk fuel env db nCheckLevel nCheckDepth
                                 (BlockIndex.pprev node) w st
                        | Throws what => Some (Throws what)
                        | Aborts => Some Aborts
                        | Undefined => Some Undefined
                        end
                    end
              end
          end
      end
  end.

(** [if (pindexFork && !fRequestShutdown) { ... }] and the final
    [return true]. What [SetBestChain] does to the globals is the
    consensus code's business; the call is recorded. *)
Definition reorg_to_fork (env : Env) (w : Walk) (st : State) : Outcome (LoadReturn * State) :=
  let st := log_events w st in
  match pindexFork w with
  | None => Returns (LoadTrue, st)
  | Some fork =>
      let '(shutdown, st) := poll env st in
      if shutdown then Returns (LoadTrue, st) else
      node ← deref st fork;
      match Block_ReadFromDisk env node with
      | None => Returns (LoadFalse BlockReadFromDiskFailed, st)
      | Some block => Returns (LoadTrue, emit (EvSetBestChain fork) st)
      end
  end.

(** [int nCheckLevel = GetArg("-checklevel", 1)] *)
Definition check_level (env : Env) : Z := to_int (GetArg env "-checklevel" 1).

(** [int nCheckDepth = GetArg("-checkblocks", 500)] and the two
    adjustments made to it. *)
Definition check_depth (env : Env) (st : State) : Z :=
  let nCheckDepth := to_int (GetArg env "-checkblocks" 500) in
  let nCheckDepth := if bool_decide (nCheckDepth = 0) then 1000000000 else nCheckDepth in
  if bool_decide (nCheckDepth > nBestHeight st) then nBestHeight st else nCheckDepth.

(** From [int nCheckLevel = GetArg("-checklevel", 1)] to the end. *)
Definition verify_best_chain (fuel : nat) (env : Env) (db : DB) (st : State)
  : option (Outcome (LoadReturn * State)) :=
  let nCheckLevel := check_level env in
  let nCheckDepth := check_depth env st in
  let w := {| pindexFork := None; mapBlockPos := ∅; walk_events := [] |} in
  match walk fuel env db nCheckLevel nCheckDepth (pindexBest st) w st with
  | None => None
  | Some o =>
      Some (r ← o;
            match r with
            | Next (w, st) => reorg_to_fork env w st
            | Return e st => Returns (e, st)
            end)
  end.

(** [bool CTxDB::LoadBlockIndex()] *)
Definition LoadBlockIndex (fuel : nat) (env : Env) (db : DB) (st : State)
  : option (Outcome (LoadReturn * State)) :=
  if bool_decide (0 < size (mapBlockIndex st))%nat then Some (Returns (LoadTrue, st)) else
  match load_records env (NewIterator_Seek_blockindex db) st with
  | Returns (Next st) =>
      let '(shutdown, st) := poll env st in
      if shutdown then Some (Returns (LoadTrue, st)) else
      match calculate_chain_trust env st with
      | Returns (Next st) =>
          match load_best_chain env db st with
          | Returns (Next st) => verify_best_chain fuel env db st
          | Returns (Return r st) => Some (Returns (r, st))
          | Throws what => Some (Throws what)
          | Aborts => Some Aborts
          | Undefined => Some Undefined
          end
      | Returns (Return r st) => Some (Returns (r, st))
      | Throws what => Some (Throws what)
      | Aborts => Some Aborts
      | Undefined => Some Undefined
      end
  | Returns (Return r st) => Some (Returns (r, st))
  | Throws what => Some (Throws what)
  | Aborts => Some Aborts
  | Undefined => Some Undefined
  end.

(** ** Well-formedness of the loaded index *)

(** Every address in [mapBlockIndex] is that of a live node. *)
Definition nodes_allocated (st : State) : Prop :=
  map_Forall (fun _ pindex => is_Some (heap st !! pindex)) (mapBlockIndex st).

(** The parent of the node at [pindex], if it has one, is itself in
    [mapBlockIndex]. *)
Definition parent_indexed (st : State) (pindex : Z) : Prop :=
  match heap st !! pindex with
  | Some node =>
      match BlockIndex.pprev node with
      | Some pprev => pprev ∈ (map_img (mapBlockIndex st) : gset Z)
      | None => True
      end
  | None => True
  end.

#[global] Instance parent_indexed_dec (st : State) (pindex : Z) :
  Decision (parent_indexed st pindex).
Proof.
  unfold parent_indexed. destruct (heap st !! pindex) as [node |]; [| apply _].
  destruct (BlockIndex.pprev node); apply _.
Defined.

Definition parents_indexed (st : State) : Prop :=
  map_Forall (fun _ pindex => parent_indexed st pindex) (mapBlockIndex st).

(** Distinct hashes have distinct nodes. *)
Definition addresses_distinct (st : State) : Prop :=
  NoDup ((map_to_list (mapBlockIndex st)).*2).

Definition index_well_formed (st : State) : Prop :=
  nodes_allocated st /\ parents_indexed st /\ addresses_distinct st.

(** The height of a parent is below the height of its child (the
    data-model invariant has it one below). *)
Definition parent_lower (st : State) (pindex : Z) : Prop :=
  match heap st !! pindex with
  | Some node =>
      match BlockIndex.pprev node with
      | Some pprev => height_at st pprev < BlockIndex.nHeight node
      | None => True
      end
  | None => True
  end.

#[global] Instance parent_lower_dec (st : State) (pindex : Z) :
  Decision (parent_lower st pindex).
Proof.
  unfold parent_lower. destruct (heap st !! pindex) as [node |]; [| apply _].
  destruct (BlockIndex.pprev node); apply _.
Defined.

Definition parents_lower (st : State) : Prop :=
  map_Forall (fun _ pindex => parent_lower st pindex) (mapBlockIndex st).

(** What the loader relies on in its environment: [new] hands out an
    address that is not in use, and [CBlockIndex()] nulls the parent
    link. *)
Definition env_sane (env : Env) : Prop :=
  (forall heap : gmap Z CBlockIndex, heap !! operator_new env heap = None)
  /\ BlockIndex.pprev (new_CBlockIndex env) = None.

(** [GetBlockTrust] does not read the two fields that Phase 2 writes. *)
Definition block_trust_stable (env : Env) : Prop :=
  forall node trust checksum,
    GetBlockTrust env
      (BlockIndex.set_nStakeModifierChecksum checksum
         (BlockIndex.set_nChainTrust trust node))
    = GetBlockTrust env node.

(** The chain trust of the parent, 0 without one. *)
Definition parent_trust (st : State) (node : CBlockIndex) : Z :=
  match BlockIndex.pprev node with
  | Some pprev =>
      match heap st !! pprev with
      | Some prev => BlockIndex.nChainTrust prev
      | None => 0
      end
  | None => 0
  end.

(** The nodes on the parent chain of a node, from the node itself to a
    node without parent. *)
Inductive parent_chain (st : State) : Z -> list CBlockIndex -> Prop :=
| parent_chain_genesis pindex node :
    heap st !! pindex = Some node ->
    BlockIndex.pprev node = None ->
    parent_chain st pindex [node]
| parent_chain_step pindex node pprev chain :
    heap st !! pindex = Some node ->
    BlockIndex.pprev node = Some pprev ->
    parent_chain st pprev chain ->
    parent_chain st pindex (node :: chain).

Definition sum_block_trust (env : Env) (chain : list CBlockIndex) : Z :=
  foldr (fun node acc => GetBlockTrust env node + acc) 0 chain.

#[global] Instance nodes_allocated_dec (st : State) : Decision (nodes_allocated st).
Proof. unfold nodes_allocated. apply _. Defined.

#[global] Instance parents_indexed_dec (st : State) : Decision (parents_indexed st).
Proof. unfold parents_indexed. apply _. Defined.

#[global] Instance addresses_distinct_dec (st : State) : Decision (addresses_distinct st).
Proof. unfold addresses_distinct. apply _. Defined.

#[global] Instance index_well_formed_dec (st : State) : Decision (index_well_formed st).
Proof. unfold index_well_formed. apply _. Defined.

#[global] Instance parents_lower_dec (st : State) : Decision (parents_lower st).
Proof. unfold parents_lower. apply _. Defined.

(** ** The walk, read from its log *)

Definition warned_blocks (evs : list Event) : list Z :=
  omap (fun ev => match ev with EvWarning pindex _ => Some pindex | _ => None end) evs.

Definition best_chain_calls (evs : list Event) : list Z :=
  omap (fun ev => match ev with EvSetBestChain fork => Some fork | _ => None end) evs.

Definition parent_at (st : State) (pindex : Z) : option Z :=
  heap st !! pindex ≫= BlockIndex.pprev.

(** Along parent links the height goes down, for every node on the heap. *)
Definition heap_parents_lower (st : State) : Prop :=
  map_Forall (fun pindex _ => parent_lower st pindex) (heap st).

#[global] Instance heap_parents_lower_dec (st : State) : Decision (heap_parents_lower st).
Proof. unfold heap_parents_lower. apply _. Defined.

(** What the checks on one block do to the locals of the walk: they log
    the warnings [ws] against the block, and move the fork pointer to the
    block's predecessor if there is any. *)
Definition flags (pindex : Z) (node : CBlockIndex) (ws : list Warning) (w w' : Walk) : Prop :=
  walk_events w' = walk_events w ++ (EvWarning pindex <$> ws)
  /\ pindexFork w' = match ws with [] => pindexFork w | _ => BlockIndex.pprev node end.

(** The warning the position check raises for a transaction whose stored
    position is not that of its block, if it raises one. *)
Definition position_warning (env : Env) (hashTx : Z) (txindex : CTxIndex) : option Warning :=
  match Tx_ReadFromDisk env (TxIndex.pos txindex) with
  | None => Some (CannotReadMislocatedTx hashTx)
  | Some txFound =>
      if bool_decide (Tx_GetHash env txFound = hashTx) then None
      else Some (InvalidTxPosition hashTx)
  end.

Definition initial_Walk : Walk :=
  {| pindexFork := None; mapBlockPos := ∅; walk_events := [] |}.



(** ** Chain trust along parent links *)

(** The node at [pindex] carries the chain trust of its parent plus its
    own block trust, which is the sum of the block trusts along its
    parent chain (in 256-bit arithmetic). *)
Definition trust_ok (env : Env) (st : State) (pindex : Z) : Prop :=
  exists node chain,
    heap st !! pindex = Some node
    /\ BlockIndex.nChainTrust node
       = add256 (parent_trust st node) (GetBlockTrust env node)
    /\ parent_chain st pindex chain
    /\ BlockIndex.nChainTrust node = sum_block_trust env chain mod 2 ^ 256.

(** The heap of [st'] has the nodes of [st] at the same addresses, with
    the same links, heights and block trusts. *)
Definition same_links (env : Env) (st st' : State) : Prop :=
  forall pindex,
    match heap st !! pindex, heap st' !! pindex with
    | Some node, Some node' =>
        BlockIndex.pprev node' = BlockIndex.pprev node
        /\ BlockIndex.nHeight node' = BlockIndex.nHeight node
        /\ GetBlockTrust env node' = GetBlockTrust env node
    | None, None => True
    | _, _ => False
    end.

(** The parents of the nodes at the addresses [done] are among them. *)
Definition closed_under_parents (st : State) (done : list Z) : Prop :=
  forall pindex node pprev,
    pindex ∈ done -> heap st !! pindex = Some node ->
    BlockIndex.pprev node = Some pprev -> pprev ∈ done.

(** The state a phase ends in, either way. *)
Definition flow_state (r : Flow State) : State :=
  match r with Next st => st | Return _ st => st end.

(** [index_well_formed], on the map and the heap themselves and without
    lists. *)
Definition index_wf (m : gmap Z Z) (h : gmap Z CBlockIndex) : Prop :=
  (forall hash p, m !! hash = Some p -> is_Some (h !! p))
  /\ (forall hash p node q,
         m !! hash = Some p -> h !! p = Some node -> BlockIndex.pprev node = Some q ->
         exists hash', m !! hash' = Some q)
  /\ (forall hash1 hash2 p, m !! hash1 = Some p -> m !! hash2 = Some p -> hash1 = hash2).

(** ** Sample inputs *)

(** A data directory holding a database of schema version 1, three block
    files (the third one out of sequence) and a wallet. *)
Definition sample_old_world : World :=
  {| txleveldb := Some (Some (set_db_version 1 empty_DB));
     datadir := {[ "blk0001.dat"; "blk0002.dat"; "blk0004.dat"; "wallet.dat" ]};
     txdb := false |}.

(** A chain of [n] blocks for trying the loader on. Block [i] has height
    [i] and hash [100 + i], sits in file 1 at offset [10 * i], carries
    trust [i + 1] and holds one transaction, of hash [500 + i]. *)
Definition sample_record (n i : Z) : CDiskBlockIndex :=
  {| DiskBlockIndex.hashPrev := if bool_decide (i = 0) then 0 else 100 + i - 1;
     DiskBlockIndex.hashNext := if bool_decide (i = n - 1) then 0 else 100 + i + 1;
     DiskBlockIndex.nFile := 1;
     DiskBlockIndex.nBlockPos := 10 * i;
     DiskBlockIndex.nHeight := i;
     DiskBlockIndex.nMint := 0;
     DiskBlockIndex.nMoneySupply := 0;
     DiskBlockIndex.nFlags := 0;
     DiskBlockIndex.nStakeModifier := 0;
     DiskBlockIndex.prevoutStake := OutPoint.mk 0 0;
     DiskBlockIndex.nStakeTime := 0;
     DiskBlockIndex.hashProof := 100 + i;
     DiskBlockIndex.nVersion := 1;
     DiskBlockIndex.hashMerkleRoot := 0;
     DiskBlockIndex.nTime := 0;
     DiskBlockIndex.nBits := i + 1;
     DiskBlockIndex.nNonce := 0 |}.

Definition sample_txindex (nFile nBlockPos : Z) : CTxIndex :=
  {| TxIndex.pos := DiskTxPos.mk nFile nBlockPos 0;
     TxIndex.vSpent := [DiskTxPos.mk (2 ^ 32 - 1) 0 0] |}.

(** The database of the chain, with the index entry of the transaction
    of block 5 as given. *)
Definition sample_DB (n : Z) (best : option Z) (txindex5 : CTxIndex) : DB :=
  {| db_version := Some 2;
     db_tx := <[505 := txindex5]>
                (list_to_map ((fun i => (500 + i, sample_txindex 1 (10 * i))) <$> seqZ 0 n));
     db_blockindex := sample_record n <$> seqZ 0 n;
     db_hashBestChain := best;
     db_bnBestInvalidTrust := None;
     db_hashSyncCheckpoint := Some 100;
     db_strCheckpointPubKey := None |}.

Definition sample_node : CBlockIndex :=
  BlockIndex.mk None None None 0 0 0 0 0 0 0 0 0 (OutPoint.mk 0 0) 0 0 0 0 0 0 0.

(** An environment in which every collaborator check passes, block files
    1 and 2 both hold, at offset [10 * i], the block with the transaction
    of hash [500 + i], the block at offset [unreadable] of file 1 cannot
    be read as a block, and the allocator hands out the address [step]
    beyond the last one in use, starting at [first]: [first],
    [first + step], [first + 2 * step], ... *)
Definition sample_Env_with (unreadable : Z) (nCheckLevel nCheckDepth : Z) (first step : Z)
  : Env :=
  {| fTestNet := false;
     hashGenesisBlock := 100;
     hashGenesisBlockTestNet := 99;
     GetArg := fun name _ =>
       if String.eqb name "-checklevel" then nCheckLevel else nCheckDepth;
     fRequestShutdown := fun _ => false;
     operator_new := fun heap =>
       if bool_decide (0 < step)
       then step + foldr Z.max (first - step) (map_to_list heap).*1
       else step + foldr Z.min (first - step) (map_to_list heap).*1;
     new_CBlockIndex := sample_node;
     GetBlockHash := DiskBlockIndex.hashProof;
     CheckIndex := fun _ => true;
     IsProofOfStake := fun node => Z.testbit (BlockIndex.nFlags node) 0;
     GetBlockTrust := BlockIndex.nBits;
     GetStakeModifierChecksum := fun _ _ => 0;
     CheckStakeModifierCheckpoints := fun _ _ => true;
     Block_ReadFromDisk := fun node =>
       if bool_decide (BlockIndex.nFile node = 1 /\ BlockIndex.nBlockPos node <> unreadable)
       then Some (Block.mk [Transaction.mk [] (500 + BlockIndex.nBlockPos node / 10)])
       else None;
     CheckBlock := fun _ _ _ _ => true;
     Tx_GetHash := Transaction.payload;
     Tx_ReadFromDisk := fun pos =>
       if bool_decide (DiskTxPos.nFile pos = 1 \/ DiskTxPos.nFile pos = 2)
       then Some (Transaction.mk [] (500 + DiskTxPos.nBlockPos pos / 10))
       else None;
     CheckTransaction := fun _ => true;
     IsNull := fun pos => bool_decide (DiskTxPos.nFile pos = 2 ^ 32 - 1) |}.

Definition sample_Env : Z -> Z -> Z -> Z -> Env := sample_Env_with (-1).

(** Three blocks, two of them siblings at height 1 (hashes 101 and 102)
    on top of the genesis block (hash 100). *)
Definition sample_fork_DB : DB :=
  {| db_version := Some 2;
     db_tx := ∅;
     db_blockindex :=
       [ sample_record 2 0;
         sample_record 2 1;
         {| DiskBlockIndex.hashPrev := 100;
            DiskBlockIndex.hashNext := 0;
            DiskBlockIndex.nFile := 1;
            DiskBlockIndex.nBlockPos := 20;
            DiskBlockIndex.nHeight := 1;
            DiskBlockIndex.nMint := 0;
            DiskBlockIndex.nMoneySupply := 0;
            DiskBlockIndex.nFlags := 0;
            DiskBlockIndex.nStakeModifier := 0;
            DiskBlockIndex.prevoutStake := OutPoint.mk 0 0;
            DiskBlockIndex.nStakeTime := 0;
            DiskBlockIndex.hashProof := 102;
            DiskBlockIndex.nVersion := 1;
            DiskBlockIndex.hashMerkleRoot := 0;
            DiskBlockIndex.nTime := 0;
            DiskBlockIndex.nBits := 7;
            DiskBlockIndex.nNonce := 0 |} ];
     db_hashBestChain := Some 101;
     db_bnBestInvalidTrust := None;
     db_hashSyncCheckpoint := Some 100;
     db_strCheckpointPubKey := None |}.

(** The state Phase 1 leaves when it runs to the end of the records,
    starting from nothing. *)
Definition loaded (env : Env) (db : DB) : State :=
  match load_records env (NewIterator_Seek_blockindex db) initial_State with
  | Returns (Next st) => st
  | _ => initial_State
  end.

(** The state in which the self-check starts: phases 1 to 3 run from
    nothing. *)
Definition before_self_check (env : Env) (db : DB) : State :=
  match calculate_chain_trust env (tick (loaded env db)) with
  | Returns (Next st) =>
      match load_best_chain env db st with
      | Returns (Next st) => st
      | _ => initial_State
      end
  | _ => initial_State
  end.

(** The node of block 5 of the sample chain as the loader builds it with
    the allocator starting at 16 in steps of 16: it lives at address 96,
    its parent at address 80. *)
Definition sample_node5 : CBlockIndex :=
  BlockIndex.set_pnext (Some 112)
    (BlockIndex.set_pprev (Some 80)
       (BlockIndex.set_phashBlock (Some 105)
          (BlockIndex.copy_fields (sample_record 10 5) sample_node))).

(** * Further parts of the file *)

(** ** Closing the database *)

(** The first loop of [Close]: [delete i.second] for every entry of
    [mapBlockIndex], in the order of the keys. Deleting what is not, or
    no longer, a live object is undefined. *)
Fixpoint delete_nodes (items : list (Z * Z)) (h : gmap Z CBlockIndex)
  : Outcome (gmap Z CBlockIndex) :=
  match items with
  | [] => Returns h
  | (_, pindex) :: items =>
      match h !! pindex with
      | None => Undefined
      | Some _ => delete_nodes items (delete pindex h)
      end
  end.

(** [void CTxDB::Close()]: the nodes of the index are freed (the map
    keeps its entries), the engine handle is deleted and both pointers to
    it are nulled, and the pending batch, if any, is deleted. The two
    members of [options] that are freed hold no state of this model. *)
Definition Close (self : CTxDB) (w : World) (st : State)
  : Outcome (CTxDB * World * State) :=
  heap' ← delete_nodes (in_key_order (mapBlockIndex st)) (heap st);
  Returns (set_activeBatch None (set_pdb false self),
           {| txleveldb := txleveldb w; datadir := datadir w; txdb := false |},
           set_heap heap' st).

(** ** Reading a transaction through the index *)

(** [bool CTxDB::ReadDiskTx(uint256 hash, CTransaction& tx, CTxIndex&
    txindex)]: the result and the two out-parameters when it is [true]. *)
Definition ReadDiskTx (env : Env) (db : DB) (hash : Z) : option (CTransaction * CTxIndex) :=
  match ReadTxIndex db hash with
  | None => None
  | Some txindex =>
      match Tx_ReadFromDisk env (TxIndex.pos txindex) with
      | None => None
      | Some tx => Some (tx, txindex)
      end
  end.

(** [bool CTxDB::ReadDiskTx(COutPoint outpoint, CTransaction& tx,
    CTxIndex& txindex)] *)
Definition ReadDiskTx_outpoint (env : Env) (db : DB) (outpoint : COutPoint)
  : option (CTransaction * CTxIndex) :=
  ReadDiskTx env db (OutPoint.hash outpoint).

(** [bool CTxDB::ContainsTx(uint256 hash)] *)
Definition ContainsTx (db : DB) (hash : Z) : bool :=
  bool_decide (is_Some (db_tx db !! hash)).

(** ** Vocabulary for the further properties *)

(** The names the removal loop goes through in its first [k] iterations
    when it starts at [nFile], the counter wrapping as an [unsigned int]
    does. *)
Definition removed_run (nFile : Z) (k : nat) : gset string :=
  list_to_set ((fun j => strBlockFile ((nFile + j) mod 2 ^ 32)) <$> seqZ 0 (Z.of_nat k)).

#[global] Instance BatchOp_eq_dec : EqDecision BatchOp.
Proof. solve_decision. Defined.

(** A link of a loaded node, against the hash that the record names for
    it: null for the hash 0, and otherwise the address registered under
    the hash. *)
Definition link_of (st : State) (hash : Z) (link : option Z) : Prop :=
  match link with
  | None => hash = 0
  | Some q => hash <> 0 /\ mapBlockIndex st !! hash = Some q
  end.

(** The node at [pindex] is the one the index holds for the record
    [diskindex]: it is registered under the record's hash, carries the
    record's fields, and its two links are those of the record. *)
Definition record_loaded (env : Env) (st : State) (diskindex : CDiskBlockIndex)
    (pindex : Z) (node : CBlockIndex) : Prop :=
  mapBlockIndex st !! GetBlockHash env diskindex = Some pindex
  /\ heap st !! pindex = Some node
  /\ BlockIndex.copy_fields diskindex node = node
  /\ link_of st (DiskBlockIndex.hashPrev diskindex) (BlockIndex.pprev node)
  /\ link_of st (DiskBlockIndex.hashNext diskindex) (BlockIndex.pnext node).

(** [make_pair(pindexNew->prevoutStake, pindexNew->nStakeTime)] *)
Definition stake_key (node : CBlockIndex) : Z * Z * Z :=
  (OutPoint.hash (BlockIndex.prevoutStake node),
   OutPoint.n (BlockIndex.prevoutStake node),
   BlockIndex.nStakeTime node).

(** ** Further sample inputs *)

(** An environment with another [CheckIndex], or another course of the
    shutdown flag. *)
Definition set_CheckIndex (f : CBlockIndex -> bool) (env : Env) : Env :=
  {| fTestNet := fTestNet env;
     hashGenesisBlock := hashGenesisBlock env;
     hashGenesisBlockTestNet := hashGenesisBlockTestNet env;
     GetArg := GetArg env;
     fRequestShutdown := fRequestShutdown env;
     operator_new := operator_new env;
     new_CBlockIndex := new_CBlockIndex env;
     GetBlockHash := GetBlockHash env;
     CheckIndex := f;
     IsProofOfStake := IsProofOfStake env;
     GetBlockTrust := GetBlockTrust env;
     GetStakeModifierChecksum := GetStakeModifierChecksum env;
     CheckStakeModifierCheckpoints := CheckStakeModifierCheckpoints env;
     Block_ReadFromDisk := Block_ReadFromDisk env;
     CheckBlock := CheckBlock env;
     Tx_GetHash := Tx_GetHash env;
     Tx_ReadFromDisk := Tx_ReadFromDisk env;
     CheckTransaction := CheckTransaction env;
     IsNull := IsNull env |}.

Definition set_fRequestShutdown (f : nat -> bool) (env : Env) : Env :=
  {| fTestNet := fTestNet env;
     hashGenesisBlock := hashGenesisBlock env;
     hashGenesisBlockTestNet := hashGenesisBlockTestNet env;
     GetArg := GetArg env;
     fRequestShutdown := f;
     operator_new := operator_new env;
     new_CBlockIndex := new_CBlockIndex env;
     GetBlockHash := GetBlockHash env;
     CheckIndex := CheckIndex env;
     IsProofOfStake := IsProofOfStake env;
     GetBlockTrust := GetBlockTrust env;
     GetStakeModifierChecksum := GetStakeModifierChecksum env;
     CheckStakeModifierCheckpoints := CheckStakeModifierCheckpoints env;
     Block_ReadFromDisk := Block_ReadFromDisk env;
     CheckBlock := CheckBlock env;
     Tx_GetHash := Tx_GetHash env;
     Tx_ReadFromDisk := Tx_ReadFromDisk env;
     CheckTransaction := CheckTransaction env;
     IsNull := IsNull env |}.

(** The sample environment with a [CheckIndex] that rejects every node
    above the height [limit]. *)
Definition sample_Env_checking (limit : Z) : Env :=
  set_CheckIndex (fun node => bool_decide (BlockIndex.nHeight node <= limit))
    (sample_Env 1 500 16 16).

(** The state Phase 1 leaves when it stops at a failed [CheckIndex],
    starting from nothing. *)
Definition stopped (env : Env) (db : DB) : State :=
  match load_records env (NewIterator_Seek_blockindex db) initial_State with
  | Returns (Return _ st) => st
  | _ => initial_State
  end.

(** [node'] is [node] but for the two fields that Phase 2 writes. *)
Definition same_but_trust (node node' : CBlockIndex) : Prop :=
  exists trust checksum,
    node' = BlockIndex.set_nStakeModifierChecksum checksum
              (BlockIndex.set_nChainTrust trust node).

(** The heap [h'] has the nodes of [h], at the same addresses and the
    same but for those two fields. *)
Definition heap_same_but_trust (h h' : gmap Z CBlockIndex) : Prop :=
  forall p,
    match h !! p, h' !! p with
    | Some node, Some node' => same_but_trust node node'
    | None, None => True
    | _, _ => False
    end.

(** The genesis block of the sample chain with one proof-of-stake block
    on top of it, staking the output 1 of the transaction 7 at time 42. *)
Definition sample_stake_DB : DB :=
  {| db_version := Some 2;
     db_tx := ∅;
     db_blockindex :=
       [ sample_record 2 0;
         {| DiskBlockIndex.hashPrev := 100;
            DiskBlockIndex.hashNext := 0;
            DiskBlockIndex.nFile := 1;
            DiskBlockIndex.nBlockPos := 10;
            DiskBlockIndex.nHeight := 1;
            DiskBlockIndex.nMint := 0;
            DiskBlockIndex.nMoneySupply := 0;
            DiskBlockIndex.nFlags := 1;
            DiskBlockIndex.nStakeModifier := 0;
            DiskBlockIndex.prevoutStake := OutPoint.mk 7 1;
            DiskBlockIndex.nStakeTime := 42;
            DiskBlockIndex.hashProof := 101;
            DiskBlockIndex.nVersion := 1;
            DiskBlockIndex.hashMerkleRoot := 0;
            DiskBlockIndex.nTime := 0;
            DiskBlockIndex.nBits := 2;
            DiskBlockIndex.nNonce := 0 |} ];
     db_hashBestChain := Some 101;
     db_bnBestInvalidTrust := None;
     db_hashSyncCheckpoint := Some 100;
     db_strCheckpointPubKey := None |}.

(** An entry of the log that is a warning of the self-check against a
    block that has a predecessor and is not lower than [bound]. *)
Definition warning_in_depth (st : State) (bound : Z) (ev : Event) : Prop :=
  match ev with
  | EvWarning pindex _ =>
      exists node,
        heap st !! pindex = Some node
        /\ is_Some (BlockIndex.pprev node)
        /\ bound <= BlockIndex.nHeight node
  | EvSetBestChain _ => False
  end.

(** The blocks that the walk from [pindex] comes to check when nothing
    stops it: the node at [pindex], if it has a predecessor and is not
    lower than [bound], and then those from its predecessor on. *)
Inductive checked (h : gmap Z CBlockIndex) (bound : Z)
  : option Z -> Z -> CBlockIndex -> Prop :=
| checked_here pindex node pprev :
    h !! pindex = Some node ->
    BlockIndex.pprev node = Some pprev ->
    bound <= BlockIndex.nHeight node ->
    checked h bound (Some pindex) pindex node
| checked_below pindex node pprev pindex' node' :
    h !! pindex = Some node ->
    BlockIndex.pprev node = Some pprev ->
    bound <= BlockIndex.nHeight node ->
    checked h bound (Some pprev) pindex' node' ->
    checked h bound (Some pindex) pindex' node'.

(** The state Phase 2 leaves, run after Phase 1 from nothing. *)
Definition after_chain_trust (env : Env) (db : DB) : State :=
  match calculate_chain_trust env (tick (loaded env db)) with
  | Returns (Next st) => st
  | _ => initial_State
  end.

(** The locals the walk ends with when it falls through, and the state
    the self-check as a whole ends in when it returns. *)
Definition walked (fuel : nat) (env : Env) (db : DB) (nCheckLevel nCheckDepth : Z)
    (tip : option Z) (st : State) : Walk :=
  match walk fuel env db nCheckLevel nCheckDepth tip initial_Walk st with
  | Some (Returns (Next (w, _))) => w
  | _ => initial_Walk
  end.

Definition verified (fuel : nat) (env : Env) (db : DB) (st : State) : State :=
  match verify_best_chain fuel env db st with
  | Some (Returns (_, st')) => st'
  | _ => st
  end.

(** What check levels 4 and 6 ask of the marker [txpos] that says where
    the output [nOutput] of the transaction [hashTx] was spent, [seen]
    being the positions of the blocks walked so far: the spending block
    is one of them and, from level 6 on, the spending transaction can be
    read, is valid and has an input that spends the output. *)
Definition spent_ok (env : Env) (nCheckLevel : Z) (seen : gmap (Z * Z) Z)
    (hashTx nOutput : Z) (txpos : CDiskTxPos) : Prop :=
  is_Some (seen !! (DiskTxPos.nFile txpos, DiskTxPos.nBlockPos txpos))
  /\ (nCheckLevel > 5 ->
      exists txSpend,
        Tx_ReadFromDisk env txpos = Some txSpend
        /\ CheckTransaction env txSpend = true
        /\ exists txin,
             txin ∈ Transaction.vin txSpend
             /\ OutPoint.hash (TxIn.prevout txin) = hashTx
             /\ OutPoint.n (TxIn.prevout txin) = nOutput).

(** What check level 5 asks of an input: if the transaction it spends
    from is indexed, the output it spends is within that entry's
    [vSpent] and marked spent. *)
Definition prevout_ok (env : Env) (db : DB) (txin : CTxIn) : Prop :=
  forall txindex,
    ReadTxIndex db (OutPoint.hash (TxIn.prevout txin)) = Some txindex ->
    exists txpos,
      TxIndex.vSpent txindex !! Z.to_nat (OutPoint.n (TxIn.prevout txin)) = Some txpos
      /\ IsNull env txpos = false.

Definition set_CheckBlock (f : CBlock -> bool -> bool -> bool -> bool) (env : Env) : Env :=
  {| fTestNet := fTestNet env;
     hashGenesisBlock := hashGenesisBlock env;
     hashGenesisBlockTestNet := hashGenesisBlockTestNet env;
     GetArg := GetArg env;
     fRequestShutdown := fRequestShutdown env;
     operator_new := operator_new env;
     new_CBlockIndex := new_CBlockIndex env;
     GetBlockHash := GetBlockHash env;
     CheckIndex := CheckIndex env;
     IsProofOfStake := IsProofOfStake env;
     GetBlockTrust := GetBlockTrust env;
     GetStakeModifierChecksum := GetStakeModifierChecksum env;
     CheckStakeModifierCheckpoints := CheckStakeModifierCheckpoints env;
     Block_ReadFromDisk := Block_ReadFromDisk env;
     CheckBlock := f;
     Tx_GetHash := Tx_GetHash env;
     Tx_ReadFromDisk := Tx_ReadFromDisk env;
     CheckTransaction := CheckTransaction env;
     IsNull := IsNull env |}.

(** The locals after the checks of block 5 of the sample chain found
    nothing: its position is recorded. *)
Definition sample_clean_Walk : Walk :=
  {| pindexFork := None; mapBlockPos := {[ (1, 50) := 96 ]}; walk_events := [] |}.

(** A database that indexes the transaction 700 with an empty [vSpent]. *)
Definition sample_no_outputs_DB : DB :=
  {| db_version := Some 2;
     db_tx := {[ 700 := TxIndex.mk (DiskTxPos.mk 1 0 0) [] ]};
     db_blockindex := [];
     db_hashBestChain := None;
     db_bnBestInvalidTrust := None;
     db_hashSyncCheckpoint := None;
     db_strCheckpointPubKey := None |}.

Definition set_Tx_ReadFromDisk (f : CDiskTxPos -> option CTransaction) (env : Env) : Env :=
  {| fTestNet := fTestNet env;
     hashGenesisBlock := hashGenesisBlock env;
     hashGenesisBlockTestNet := hashGenesisBlockTestNet env;
     GetArg := GetArg env;
     fRequestShutdown := fRequestShutdown env;
     operator_new := operator_new env;
     new_CBlockIndex := new_CBlockIndex env;
     GetBlockHash := GetBlockHash env;
     CheckIndex := CheckIndex env;
     IsProofOfStake := IsProofOfStake env;
     GetBlockTrust := GetBlockTrust env;
     GetStakeModifierChecksum := GetStakeModifierChecksum env;
     CheckStakeModifierCheckpoints := CheckStakeModifierCheckpoints env;
     Block_ReadFromDisk := Block_ReadFromDisk env;
     CheckBlock := CheckBlock env;
     Tx_GetHash := Tx_GetHash env;
     Tx_ReadFromDisk := f;
     CheckTransaction := CheckTransaction env;
     IsNull := IsNull env |}.

(** The transaction of block 6 of the sample chain made to spend the
    output 0 of the transaction of block 5. *)
Definition sample_spending_tx : CTransaction :=
  Transaction.mk [TxIn.mk (OutPoint.mk 505 0)] 506.

(** The sample environment in which the transaction stored with block 6
    is [sample_spending_tx]. *)
Definition sample_Env_spending (nCheckLevel : Z) : Env :=
  set_Tx_ReadFromDisk
    (fun pos =>
       if bool_decide (DiskTxPos.nFile pos = 1 /\ DiskTxPos.nBlockPos pos = 60)
       then Some sample_spending_tx
       else Tx_ReadFromDisk (sample_Env nCheckLevel 10 16 16) pos)
    (sample_Env nCheckLevel 10 16 16).

(** The index entry of the transaction of block 5 with its output 0
    marked as spent in block 6, and the database of the sample chain with
    that entry. *)
Definition sample_spent_txindex : CTxIndex :=
  {| TxIndex.pos := DiskTxPos.mk 1 50 0;
     TxIndex.vSpent := [DiskTxPos.mk 1 60 0] |}.

Definition sample_spent_DB : DB := sample_DB 10 (Some 109) sample_spent_txindex.

(** The node of block 6 of the sample chain, at address 112. *)
Definition sample_node6 : CBlockIndex :=
  BlockIndex.set_pnext (Some 128)
    (BlockIndex.set_pprev (Some 96)
       (BlockIndex.set_phashBlock (Some 106)
          (BlockIndex.copy_fields (sample_record 10 6) sample_node))).

(** The locals of the walk when it comes to block 5 having found nothing
    in block 6, and when it has found nothing in block 5 either. *)
Definition sample_Walk_below_6 : Walk :=
  {| pindexFork := None; mapBlockPos := {[ (1, 60) := 112 ]}; walk_events := [] |}.

Definition sample_Walk_below_5 : Walk :=
  {| pindexFork := None;
     mapBlockPos := <[ (1, 50) := 96 ]> {[ (1, 60) := 112 ]};
     walk_events := [] |}.


(** A record of the sample chain with another height. *)
Definition sample_record_at_height (n i nHeight : Z) : CDiskBlockIndex :=
  {| DiskBlockIndex.hashPrev := DiskBlockIndex.hashPrev (sample_record n i);
     DiskBlockIndex.hashNext := DiskBlockIndex.hashNext (sample_record n i);
     DiskBlockIndex.nFile := 1;
     DiskBlockIndex.nBlockPos := 10 * i;
     DiskBlockIndex.nHeight := nHeight;
     DiskBlockIndex.nMint := 0;
     DiskBlockIndex.nMoneySupply := 0;
     DiskBlockIndex.nFlags := 0;
     DiskBlockIndex.nStakeModifier := 0;
     DiskBlockIndex.prevoutStake := OutPoint.mk 0 0;
     DiskBlockIndex.nStakeTime := 0;
     DiskBlockIndex.hashProof := 100 + i;
     DiskBlockIndex.nVersion := 1;
     DiskBlockIndex.hashMerkleRoot := 0;
     DiskBlockIndex.nTime := 0;
     DiskBlockIndex.nBits := i + 1;
     DiskBlockIndex.nNonce := 0 |}.

(** A chain of five blocks whose records give block 2 the height 3 and
    block 3 the height 2, with the index entries of the transactions of
    these two blocks pointing to block 4. *)
Definition sample_rising_DB : DB :=
  {| db_version := Some 2;
     db_tx := <[502 := sample_txindex 1 40]>
                (<[503 := sample_txindex 1 40]>
                   (list_to_map ((fun i => (500 + i, sample_txindex 1 (10 * i))) <$> seqZ 0 5)));
     db_blockindex :=
       [ sample_record 5 0; sample_record 5 1;
         sample_record_at_height 5 2 3; sample_record_at_height 5 3 2;
         sample_record 5 4 ];
     db_hashBestChain := Some 104;
     db_bnBestInvalidTrust := None;
     db_hashSyncCheckpoint := Some 100;
     db_strCheckpointPubKey := None |}.

(** Two records of height 0, the first of which (hash 100, trust 4)
    names the second (hash 101, trust 3) as its predecessor. *)
Definition sample_flat_DB : DB :=
  {| db_version := Some 2;
     db_tx := ∅;
     db_blockindex :=
       [ {| DiskBlockIndex.hashPrev := 101;
            DiskBlockIndex.hashNext := 0;
            DiskBlockIndex.nFile := 1;
            DiskBlockIndex.nBlockPos := 10;
            DiskBlockIndex.nHeight := 0;
            DiskBlockIndex.nMint := 0;
            DiskBlockIndex.nMoneySupply := 0;
            DiskBlockIndex.nFlags := 0;
            DiskBlockIndex.nStakeModifier := 0;
            DiskBlockIndex.prevoutStake := OutPoint.mk 0 0;
            DiskBlockIndex.nStakeTime := 0;
            DiskBlockIndex.hashProof := 100;
            DiskBlockIndex.nVersion := 1;
            DiskBlockIndex.hashMerkleRoot := 0;
            DiskBlockIndex.nTime := 0;
            DiskBlockIndex.nBits := 4;
            DiskBlockIndex.nNonce := 0 |};
         {| DiskBlockIndex.hashPrev := 0;
            DiskBlockIndex.hashNext := 100;
            DiskBlockIndex.nFile := 1;
            DiskBlockIndex.nBlockPos := 0;
            DiskBlockIndex.nHeight := 0;
            DiskBlockIndex.nMint := 0;
            DiskBlockIndex.nMoneySupply := 0;
            DiskBlockIndex.nFlags := 0;
            DiskBlockIndex.nStakeModifier := 0;
            DiskBlockIndex.prevoutStake := OutPoint.mk 0 0;
            DiskBlockIndex.nStakeTime := 0;
            DiskBlockIndex.hashProof := 101;
            DiskBlockIndex.nVersion := 1;
            DiskBlockIndex.hashMerkleRoot := 0;
            DiskBlockIndex.nTime := 0;
            DiskBlockIndex.nBits := 3;
            DiskBlockIndex.nNonce := 0 |} ];
     db_hashBestChain := Some 100;
     db_bnBestInvalidTrust := None;
     db_hashSyncCheckpoint := Some 100;
     db_strCheckpointPubKey := None |}.

(** * Properties *)

(** ** The batched transaction layer *)

Section ScanBatchFacts.

Variable key : string.

(** The scanner never changes its needle. *)
Lemma needle_handle (s : CBatchScanner) (op : BatchOp) :
  needle (handle s op) = needle s.
Proof.
  destruct op as [k v | k]; simpl;
    unfold CBatchScanner_Put, CBatchScanner_Delete;
    destruct (String.eqb k (needle s)); reflexivity.
Qed.

Lemma needle_fold (batch : WriteBatch) (s : CBatchScanner) :
  needle (fold_left handle batch s) = needle s.
Proof.
  revert s; induction batch as [| op batch IH]; intros s; simpl; [reflexivity |].
  rewrite IH. apply needle_handle.
Qed.

(** An operation on another key leaves the scanner as it is. *)
Lemma handle_other (s : CBatchScanner) (op : BatchOp) :
  op_key op <> needle s -> handle s op = s.
Proof.
  intros Hne. destruct op as [k v | k]; simpl in *;
    unfold CBatchScanner_Put, CBatchScanner_Delete;
    destruct (String.eqb_spec k (needle s)); congruence.
Qed.

(** A put on the needle fixes the scanner whatever came before. *)
Lemma handle_put (s : CBatchScanner) (v : string) :
  handle s (BPut (needle s) v)
  = {| needle := needle s; deleted := false; foundValue := v; foundEntry := true |}.
Proof. simpl. unfold CBatchScanner_Put. rewrite String.eqb_refl. reflexivity. Qed.

Lemma handle_delete (s : CBatchScanner) :
  handle s (BDelete (needle s))
  = {| needle := needle s; deleted := true; foundValue := foundValue s;
       foundEntry := true |}.
Proof. simpl. unfold CBatchScanner_Delete. rewrite String.eqb_refl. reflexivity. Qed.

Lemma fold_snoc (batch : WriteBatch) (op : BatchOp) (s : CBatchScanner) :
  fold_left handle (batch ++ [op]) s = handle (fold_left handle batch s) op.
Proof. rewrite fold_left_app. reflexivity. Qed.

Lemma pending_op_snoc (batch : WriteBatch) (op : BatchOp) :
  pending_op key (batch ++ [op])
  = if String.eqb (op_key op) key then Some op else pending_op key batch.
Proof.
  induction batch as [| op' batch IH]; simpl.
  - reflexivity.
  - rewrite IH. destruct (String.eqb (op_key op) key); reflexivity.
Qed.

(** What the replay leaves in the scanner, by the pending operation. *)
Lemma scan_pending (batch : WriteBatch) (v0 : string) :
  let s := fold_left handle batch
             {| needle := key; deleted := false; foundValue := v0; foundEntry := false |} in
  match pending_op key batch with
  | Some (BPut _ v) => foundEntry s = true /\ deleted s = false /\ foundValue s = v
  | Some (BDelete _) => foundEntry s = true /\ deleted s = true
  | None => foundEntry s = false /\ deleted s = false /\ foundValue s = v0
  end.
Proof.
  induction batch as [| op batch IH] using rev_ind; simpl.
  - auto.
  - rewrite pending_op_snoc, fold_snoc.
    set (s := fold_left handle batch _) in *.
    assert (Hn : needle s = key) by (unfold s; rewrite needle_fold; reflexivity).
    destruct (String.eqb_spec (op_key op) key) as [Heq | Hne].
    + destruct op as [k v | k]; simpl in Heq; subst k; rewrite <- Hn.
      * rewrite handle_put. simpl. auto.
      * rewrite handle_delete. simpl. auto.
    + rewrite handle_other by congruence. exact IH.
Qed.

End ScanBatchFacts.

Lemma pending_op_is_Some (key : string) (batch : WriteBatch) :
  is_Some (pending_op key batch) <-> Exists (fun op => op_key op = key) batch.
Proof.
  induction batch as [| op batch IH]; simpl.
  - split; [intros [? ?]; discriminate | intros H; inversion H].
  - rewrite Exists_cons, <- IH.
    destruct (pending_op key batch) as [op' |].
    + split; eauto.
    + destruct (String.eqb_spec (op_key op) key) as [Heq | Hne].
      * split; eauto.
      * split; [intros [? ?]; discriminate |].
        intros [? | [? ?]]; [contradiction | discriminate].
  Qed.

Lemma pending_op_last (key : string) (b1 b2 : WriteBatch) (op : BatchOp) :
  op_key op = key -> Forall (fun o => op_key o <> key) b2 ->
  pending_op key (b1 ++ op :: b2) = Some op.
Proof.
  intros Hop Hb2.
  assert (Hnone : pending_op key b2 = None).
  { destruct (pending_op key b2) eqn:E; [| reflexivity].
    assert (Hs : is_Some (pending_op key b2)) by eauto.
    apply pending_op_is_Some in Hs. apply Exists_exists in Hs as (o & Ho & Hk).
    rewrite Forall_forall in Hb2. destruct (Hb2 o Ho Hk). }
  induction b1 as [| o b1 IH]; simpl.
  - rewrite Hnone. destruct (String.eqb_spec (op_key op) key); congruence.
  - rewrite IH. reflexivity.
Qed.

Lemma ScanBatch_batch_read (db : CTxDB) (batch : WriteBatch) (key v0 : string) :
  activeBatch db = Some batch ->
  exists r, ScanBatch db key v0 = Returns r /\ batch_read r = expected_read key batch.
Proof.
  intros Hb. unfold ScanBatch, Iterate. rewrite Hb.
  pose proof (scan_pending key batch v0) as H. cbv zeta in H.
  eexists. split; [reflexivity |].
  unfold batch_read, expected_read.
  destruct (pending_op key batch) as [[k v | k] |].
  - destruct H as (-> & -> & ->). reflexivity.
  - destruct H as (-> & ->). reflexivity.
  - destruct H as (-> & _). reflexivity.
Qed.

(** C2: with a batch open, a read of [key] through [ScanBatch] returns
    the transaction's own pending state: [Found value] when the pending
    operation on the key is a put of [value], [Tombstoned] when it is a
    delete, and [NotInBatch] when no operation of the log is on the key;
    a pending operation exists exactly when the key appears in the log. *)
Theorem ScanBatch_returns_pending_state
    (db : CTxDB) (batch : WriteBatch) (key v0 : string) :
  activeBatch db = Some batch ->
  exists r, ScanBatch db key v0 = Returns r
    /\ match pending_op key batch with
       | Some (BPut _ value) => batch_read r = Found value
       | Some (BDelete _) => batch_read r = Tombstoned
       | None => batch_read r = NotInBatch
       end
    /\ (is_Some (pending_op key batch) <-> Exists (fun op => op_key op = key) batch).
Proof.
  intros Hb. destruct (ScanBatch_batch_read db batch key v0 Hb) as (r & Hr & Hread).
  exists r. split; [exact Hr |]. split; [| apply pending_op_is_Some].
  unfold expected_read in Hread.
  destruct (pending_op key batch) as [[k v | k] |]; exact Hread.
Qed.

Lemma ScanBatch_returns_pending_state_witness :
  let db := mkTxDB true (Some [BPut "a" "1"; BDelete "b"; BPut "a" "2"]) false None in
  activeBatch db = Some [BPut "a" "1"; BDelete "b"; BPut "a" "2"]
  /\ (exists r, ScanBatch db "a" "" = Returns r /\ batch_read r = Found "2")
  /\ (exists r, ScanBatch db "b" "" = Returns r /\ batch_read r = Tombstoned)
  /\ (exists r, ScanBatch db "c" "" = Returns r /\ batch_read r = NotInBatch).
Proof.
  intros db. split; [reflexivity |].
  repeat split.
  - destruct (ScanBatch_returns_pending_state db _ "a" "" eq_refl) as (r & Hr & Hm & _).
    exists r. split; [exact Hr | exact Hm].
  - destruct (ScanBatch_returns_pending_state db _ "b" "" eq_refl) as (r & Hr & Hm & _).
    exists r. split; [exact Hr | exact Hm].
  - destruct (ScanBatch_returns_pending_state db _ "c" "" eq_refl) as (r & Hr & Hm & _).
    exists r. split; [exact Hr | exact Hm].
Defined.

(** C10: when the log holds several operations on a key, [ScanBatch]
    reports the last one appended: an operation on the key followed only
    by operations on other keys decides the read, whatever precedes it.
    So a put followed by a delete reads as [Tombstoned], and a delete
    followed by a put reads as [Found] with the later value. *)
Theorem ScanBatch_last_operation_wins (db : CTxDB) (key v0 : string) :
  (forall b1 b2 op,
      activeBatch db = Some (b1 ++ op :: b2) ->
      op_key op = key ->
      Forall (fun o => op_key o <> key) b2 ->
      exists r, ScanBatch db key v0 = Returns r
        /\ batch_read r = match op with BPut _ v => Found v | BDelete _ => Tombstoned end)
  /\ (forall b v,
         activeBatch db = Some (b ++ [BPut key v; BDelete key]) ->
         exists r, ScanBatch db key v0 = Returns r /\ batch_read r = Tombstoned)
  /\ (forall b v,
         activeBatch db = Some (b ++ [BDelete key; BPut key v]) ->
         exists r, ScanBatch db key v0 = Returns r /\ batch_read r = Found v).
Proof.
  assert (Hgen : forall b1 b2 op,
      activeBatch db = Some (b1 ++ op :: b2) ->
      op_key op = key ->
      Forall (fun o => op_key o <> key) b2 ->
      exists r, ScanBatch db key v0 = Returns r
        /\ batch_read r = match op with BPut _ v => Found v | BDelete _ => Tombstoned end).
  { intros b1 b2 op Hb Hop Hb2.
    destruct (ScanBatch_batch_read db _ key v0 Hb) as (r & Hr & Hread).
    exists r. split; [exact Hr |].
    rewrite Hread. unfold expected_read.
    rewrite (pending_op_last key b1 b2 op Hop Hb2). destruct op; reflexivity. }
  split; [exact Hgen |]. split.
  - intros b v Hb.
    apply (Hgen (b ++ [BPut key v]) [] (BDelete key)); [| reflexivity | constructor].
    rewrite <- app_assoc. exact Hb.
  - intros b v Hb.
    apply (Hgen (b ++ [BDelete key]) [] (BPut key v)); [| reflexivity | constructor].
    rewrite <- app_assoc. exact Hb.
Qed.

Lemma ScanBatch_last_operation_wins_witness :
  (exists r, ScanBatch (mkTxDB true (Some ([BPut "k" "1"] ++ BDelete "k" :: [BPut "j" "2"]))
                          false None) "k" "" = Returns r
             /\ batch_read r = Tombstoned)
  /\ (exists r, ScanBatch (mkTxDB true (Some ([BPut "j" "0"] ++ [BDelete "k"; BPut "k" "3"]))
                             false None) "k" "" = Returns r
                /\ batch_read r = Found "3").
Proof.
  split.
  - apply (proj1 (ScanBatch_last_operation_wins
                    (mkTxDB true (Some ([BPut "k" "1"] ++ BDelete "k" :: [BPut "j" "2"]))
                       false None) "k" "")
             [BPut "k" "1"] [BPut "j" "2"] (BDelete "k")).
    + reflexivity.
    + reflexivity.
    + repeat constructor. simpl. discriminate.
  - apply (proj2 (proj2 (ScanBatch_last_operation_wins
                    (mkTxDB true (Some ([BPut "j" "0"] ++ [BDelete "k"; BPut "k" "3"]))
                       false None) "k" ""))
             [BPut "j" "0"] "3").
    reflexivity.
Defined.

(** C9: when the engine fails to write the batch, [TxnCommit] returns
    [false], the batch is gone, and the handle is still usable: a
    [TxnBegin] on it succeeds and opens an empty batch. *)
Theorem TxnCommit_failure_keeps_handle_usable
    {Store : Type} (pdb_Write : WriteBatch -> Store -> Status * Store)
    (db : CTxDB) (store : Store) (batch : WriteBatch) :
  pdb db = true ->
  activeBatch db = Some batch ->
  ok (pdb_Write batch store).1 = false ->
  exists db' store',
    TxnCommit pdb_Write db store = Returns (false, db', store')
    /\ activeBatch db' = None
    /\ pdb db' = true
    /\ exists db'', TxnBegin db' = Returns (true, db'')
                    /\ activeBatch db'' = Some []
                    /\ pdb db'' = true.
Proof.
  intros Hpdb Hb Hfail. unfold TxnCommit. rewrite Hb, Hpdb. simpl.
  destruct (pdb_Write batch store) as [status store'] eqn:Hw. simpl in Hfail.
  rewrite Hfail. simpl.
  exists (set_activeBatch None db), store'. repeat split; try assumption.
  exists (set_activeBatch (Some []) (set_activeBatch None db)). repeat split; assumption.
Qed.

Lemma TxnCommit_failure_keeps_handle_usable_witness :
  exists db' store',
    TxnCommit (fun (_ : WriteBatch) (s : nat) => (StatusError "IO error", s))
              (mkTxDB true (Some [BPut "k" "v"]) false None) 7%nat
    = Returns (false, db', store')
    /\ activeBatch db' = None
    /\ pdb db' = true
    /\ exists db'', TxnBegin db' = Returns (true, db'')
                    /\ activeBatch db'' = Some []
                    /\ pdb db'' = true.
Proof.
  apply (TxnCommit_failure_keeps_handle_usable
           (fun (_ : WriteBatch) (s : nat) => (StatusError "IO error", s))
           (mkTxDB true (Some [BPut "k" "v"]) false None) 7%nat [BPut "k" "v"]);
    reflexivity.
Defined.

(** ** Opening the database *)

Section BlockFileNames.

Lemma length_append (s t : string) :
  String.length (s +:+ t) = (String.length s + String.length t)%nat.
Proof. induction s as [| a s IH]; simpl; [reflexivity | rewrite IH; reflexivity]. Qed.

Lemma append_cancel_r (s1 s2 t : string) : s1 +:+ t = s2 +:+ t -> s1 = s2.
Proof.
  revert s2; induction s1 as [| a s1 IH]; intros [| b s2] H; simpl in H.
  - reflexivity.
  - apply (f_equal String.length) in H. simpl in H.
    rewrite ?length_append in H. simpl in H. lia.
  - apply (f_equal String.length) in H. simpl in H.
    rewrite ?length_append in H. simpl in H. lia.
  - injection H as -> H. f_equal. apply IH, H.
Qed.

Lemma number_of_zeros (k : nat) (s : string) :
  number_of (zeros k +:+ s) = number_of s.
Proof.
  induction k as [| k IH]; simpl; [reflexivity |].
  unfold number_of in *. simpl.
  destruct (NilEmpty.uint_of_string (zeros k +:+ s)) as [d |],
           (NilEmpty.uint_of_string s) as [d' |]; simpl in *; congruence.
Qed.

Lemma number_of_fmt_04u (n : Z) : number_of (fmt_04u n) = Some (Z.to_N n).
Proof.
  unfold fmt_04u. rewrite number_of_zeros. unfold number_of.
  rewrite NilEmpty.usu. simpl. rewrite DecimalN.Unsigned.of_to. reflexivity.
Qed.

Lemma strBlockFile_inj (a b : Z) :
  0 <= a -> 0 <= b -> strBlockFile a = strBlockFile b -> a = b.
Proof.
  intros Ha Hb H. unfold strBlockFile in H.
  apply String.app_inj in H. apply append_cancel_r in H.
  apply (f_equal number_of) in H. rewrite !number_of_fmt_04u in H.
  injection H as H. lia.
Qed.

End BlockFileNames.

Section RemoveBlockFiles.

(** The removal loop ends: every iteration but the last deletes a file. *)
Lemma remove_block_files_terminates (fuel : nat) :
  forall (nFile : Z) (files : gset string),
    (size files < fuel)%nat -> is_Some (remove_block_files fuel nFile files).
Proof.
  induction fuel as [| fuel IH]; intros nFile files Hsize; [lia |].
  simpl. case_bool_decide as Hin; simpl; [| eauto].
  apply IH.
  assert (Hsub : ({[strBlockFile nFile]} : gset string) ⊆ files) by set_solver.
  rewrite (size_difference _ _ Hsub), size_singleton.
  assert (size files ≠ 0%nat).
  { intros Hz. apply size_empty_inv in Hz. set_solver. }
  lia.
Qed.

Lemma block_files_from_0 (nFile : Z) : block_files_from nFile 0 = ∅.
Proof. reflexivity. Qed.

Lemma block_files_from_S (nFile : Z) (k : nat) :
  block_files_from nFile (S k) = {[strBlockFile nFile]} ∪ block_files_from (nFile + 1) k.
Proof.
  unfold block_files_from. rewrite seqZ_cons by lia. simpl.
  replace (Z.pred (Z.of_nat (S k))) with (Z.of_nat k) by lia.
  replace (Z.succ nFile) with (nFile + 1) by lia. reflexivity.
Qed.

Lemma elem_of_block_files_from (name : string) (nFile : Z) (k : nat) :
  name ∈ block_files_from nFile k
  <-> exists i, nFile <= i < nFile + Z.of_nat k /\ name = strBlockFile i.
Proof.
  unfold block_files_from. rewrite elem_of_list_to_set, list_elem_of_fmap.
  split.
  - intros (i & -> & Hi). apply elem_of_seqZ in Hi. eauto.
  - intros (i & Hi & ->). exists i. split; [reflexivity |]. apply elem_of_seqZ. lia.
Qed.

(** With the files numbered [nFile] to [nFile + k - 1] present and the
    next one missing, the loop removes exactly those. *)
Lemma remove_block_files_run (k : nat) :
  forall (fuel : nat) (nFile : Z) (files : gset string),
    0 <= nFile -> nFile + Z.of_nat k < 2 ^ 32 -> (k < fuel)%nat ->
    (forall i, nFile <= i < nFile + Z.of_nat k -> strBlockFile i ∈ files) ->
    strBlockFile (nFile + Z.of_nat k) ∉ files ->
    remove_block_files fuel nFile files = Some (files ∖ block_files_from nFile k).
Proof.
  induction k as [| k IH]; intros fuel nFile files Hn Hmax Hfuel Hin Hout;
    (destruct fuel as [| fuel]; [lia |]); simpl.
  - replace (nFile + Z.of_nat 0) with nFile in Hout by lia.
    rewrite bool_decide_eq_false_2 by exact Hout. simpl.
    rewrite block_files_from_0, difference_empty_L. reflexivity.
  - rewrite bool_decide_eq_true_2 by (apply Hin; lia). simpl.
    rewrite Z.mod_small by lia.
    rewrite (IH fuel (nFile + 1)); try lia.
    + f_equal. rewrite block_files_from_S. apply difference_difference_l_L.
    + intros i Hi. apply elem_of_difference. split; [apply Hin; lia |].
      intros Heq. apply elem_of_singleton in Heq.
      apply strBlockFile_inj in Heq; lia.
    + replace (nFile + 1 + Z.of_nat k) with (nFile + Z.of_nat (S k)) by lia.
      intros H. apply elem_of_difference in H as [H _]. exact (Hout H).
Qed.

End RemoveBlockFiles.

(** A load over a database without block-index records and without a
    best-chain pointer, into an empty index, returns [true] and changes
    nothing but the count of reads of the shutdown flag. *)
Lemma LoadBlockIndex_no_records (fuel : nat) (env : Env) (db : DB) (st : State) :
  mapBlockIndex st = ∅ ->
  db_blockindex db = [] ->
  db_hashBestChain db = None ->
  exists n, LoadBlockIndex fuel env db st = Some (Returns (LoadTrue, Nat.iter n tick st)).
Proof.
  intros Hmap Hrec Hbest. unfold LoadBlockIndex.
  rewrite Hmap, map_size_empty. simpl.
  unfold NewIterator_Seek_blockindex. rewrite Hrec, Hbest. simpl.
  set (it := present _ _ ++ _).
  assert (Hall : Forall (fun e => strType_of e <> "blockindex") it).
  { unfold it, present.
    destruct (db_bnBestInvalidTrust db), (db_hashSyncCheckpoint db),
      (db_strCheckpointPubKey db); simpl; repeat constructor; simpl; discriminate. }
  assert (Hit : exists n, load_records env it st = Returns (Next (Nat.iter n tick st))).
  { destruct it as [| e it']; simpl; [exists O; reflexivity | exists 1%nat].
    inversion Hall as [| ? ? He _]; subst.
    destruct (fRequestShutdown env (nShutdownReads st)); simpl; [reflexivity |].
    destruct (String.eqb_spec (strType_of e) "blockindex"); [contradiction | reflexivity]. }
  destruct Hit as (n & ->).
  assert (Hmap' : forall m, mapBlockIndex (Nat.iter m tick st) = ∅).
  { induction m; simpl; assumption. }
  exists (S n). simpl.
  destruct (fRequestShutdown env _); [reflexivity |].
  unfold calculate_chain_trust, vSortedByHeight, in_key_order. simpl.
  rewrite Hmap', map_to_list_empty. simpl.
  unfold load_best_chain. rewrite Hbest. unfold blockIndex_contains. simpl.
  rewrite Hmap', lookup_empty.
  rewrite bool_decide_eq_false_2 by (intros [? ?]; discriminate). reflexivity.
Qed.

Lemma init_blockindex_existing (create : bool) (w : World) (db : DB) :
  txleveldb w = Some (Some db) ->
  init_blockindex create false w
  = Returns {| txleveldb := Some (Some db); datadir := datadir w; txdb := true |}.
Proof. intros Hdir. unfold init_blockindex. rewrite Hdir. reflexivity. Qed.

Lemma init_blockindex_remove_old (create : bool) (w : World) :
  init_blockindex create true w
  = if create
    then Returns {| txleveldb := Some (Some empty_DB);
                    datadir := default (datadir w)
                                 (remove_block_files (S (size (datadir w))) 1 (datadir w));
                    txdb := true |}
    else Throws "init_blockindex : error opening database environment".
Proof. unfold init_blockindex. destruct create; reflexivity. Qed.

(** ** The loader: the best-chain pointer *)

(** Without a stored [hashBestChain], the loader returns by the presence
    of one hash in the index: the main-net genesis hash on the test net,
    the test-net genesis hash on the main net. *)
Lemma load_best_chain_without_pointer (env : Env) (db : DB) (st : State) :
  db_hashBestChain db = None ->
  load_best_chain env db st
  = Returns (Return
               (if blockIndex_contains st
                     (if fTestNet env then hashGenesisBlock env
                      else hashGenesisBlockTestNet env)
                then LoadFalse HashBestChainNotLoaded
                else LoadTrue) st).
Proof.
  intros Hbest. unfold load_best_chain. rewrite Hbest.
  destruct (blockIndex_contains st _); reflexivity.
Qed.

(** C7: on the main network, a database that holds the genesis block
    (and so is not that of a fresh node) but no [hashBestChain] is loaded
    with [true]: the genesis block is in the index, yet the loader looks
    for the test-net genesis hash. *)
Theorem LoadBlockIndex_genesis_without_best_chain_returns_true :
  let env := sample_Env 1 500 16 16 in
  let db := sample_DB 1 None (sample_txindex 1 50) in
  fTestNet env = false
  /\ GetBlockHash env <$> db_blockindex db = [hashGenesisBlock env]
  /\ db_hashBestChain db = None
  /\ forall fuel, exists r st,
       LoadBlockIndex fuel env db initial_State = Some (Returns (r, st))
       /\ return_value r = true
       /\ mapBlockIndex st !! hashGenesisBlock env = Some 16
       /\ pindexBest st = None.
Proof.
  cbv zeta. split; [reflexivity |]. split; [reflexivity |]. split; [reflexivity |].
  intros fuel. eexists _, _. split; [vm_compute; reflexivity |].
  split; [reflexivity |]. split; reflexivity.
Qed.

(** ** The loader: the order of Phase 2 *)

#[global] Instance pair_le_total : Total pair_le.
Proof. intros [a1 a2] [b1 b2]. unfold pair_le. simpl. lia. Qed.

#[global] Instance pair_le_trans : Transitive pair_le.
Proof. intros [a1 a2] [b1 b2] [c1 c2]. unfold pair_le. simpl. lia. Qed.

#[global] Instance pair_le_antisymm : AntiSymm (=) pair_le.
Proof.
  intros [a1 a2] [b1 b2]. unfold pair_le. simpl. intros H1 H2.
  f_equal; lia.
Qed.

Lemma in_key_order_Permutation (m : gmap Z Z) : in_key_order m ≡ₚ map_to_list m.
Proof. apply merge_sort_Permutation. Qed.

Lemma push_back_heights_Returns (st : State) (items : list (Z * Z)) :
  Forall (fun x => is_Some (heap st !! x.2)) items ->
  push_back_heights st items = Returns ((fun x => (height_at st x.2, x.2)) <$> items).
Proof.
  induction items as [| [hash pindex] items IH]; intros Hall; simpl; [reflexivity |].
  inversion Hall as [| ? ? [node Hnode] Hrest]; subst. simpl in Hnode.
  unfold deref, height_at. rewrite Hnode. simpl. rewrite (IH Hrest). reflexivity.
Qed.

Lemma vSortedByHeight_Returns (st : State) :
  nodes_allocated st ->
  vSortedByHeight st
  = Returns (merge_sort pair_le
               ((fun x => (height_at st x.2, x.2)) <$> in_key_order (mapBlockIndex st))).
Proof.
  intros Hnodes. unfold vSortedByHeight.
  rewrite push_back_heights_Returns; [reflexivity |].
  apply Forall_forall. intros [hash pindex] Hin.
  rewrite in_key_order_Permutation in Hin.
  apply elem_of_map_to_list in Hin. exact (Hnodes hash pindex Hin).
Qed.

(** C6 (amended): Phase 2 visits the nodes of [mapBlockIndex], each
    once, in ascending order of height, with ties between nodes of equal
    height broken by the addresses of the nodes, not by their hashes; the
    order is the only one so sorted, so it is fixed by the heights and
    the addresses the allocator gave out. *)
Theorem vSortedByHeight_by_height_then_address (st : State) :
  nodes_allocated st ->
  exists v,
    vSortedByHeight st = Returns v
    /\ StronglySorted pair_le v
    /\ v ≡ₚ (fun x => (height_at st x.2, x.2)) <$> map_to_list (mapBlockIndex st)
    /\ forall v', StronglySorted pair_le v' -> v' ≡ₚ v -> v' = v.
Proof.
  intros Hnodes. eexists. split; [apply vSortedByHeight_Returns, Hnodes |].
  split; [apply StronglySorted_merge_sort; apply _ |]. split.
  - rewrite merge_sort_Permutation. apply fmap_Permutation, in_key_order_Permutation.
  - intros v' Hsorted Hperm.
    apply (StronglySorted_unique pair_le); [exact Hsorted | | exact Hperm].
    apply StronglySorted_merge_sort; apply _.
Qed.

Lemma vSortedByHeight_by_height_then_address_witness :
  exists v,
    vSortedByHeight (loaded (sample_Env 1 500 160 (-16)) sample_fork_DB) = Returns v
    /\ StronglySorted pair_le v
    /\ v ≡ₚ (fun x => (height_at (loaded (sample_Env 1 500 160 (-16)) sample_fork_DB) x.2,
                       x.2))
            <$> map_to_list (mapBlockIndex (loaded (sample_Env 1 500 160 (-16)) sample_fork_DB))
    /\ forall v', StronglySorted pair_le v' -> v' ≡ₚ v -> v' = v.
Proof.
  apply (vSortedByHeight_by_height_then_address
           (loaded (sample_Env 1 500 160 (-16)) sample_fork_DB)).
  compute_done.
Defined.

(** C6, as stated, fails: with an allocator that hands out descending
    addresses, the sibling blocks of hashes 101 and 102, both of height
    1, are visited in the order 102, 101 (addresses 128, 144), whereas
    the order by height and then by hash visits 101 before 102; with an
    allocator that hands out ascending addresses the same records are
    visited in the order 101, 102. *)
Lemma phase2_order_follows_addresses_not_hashes :
  let st := loaded (sample_Env 1 500 160 (-16)) sample_fork_DB in
  let st' := loaded (sample_Env 1 500 16 16) sample_fork_DB in
  mapBlockIndex st !! 100 = Some 160
  /\ mapBlockIndex st !! 101 = Some 144
  /\ mapBlockIndex st !! 102 = Some 128
  /\ height_at st 144 = 1
  /\ height_at st 128 = 1
  /\ vSortedByHeight st = Returns [(0, 160); (1, 128); (1, 144)]
  /\ order_by_height_then_hash st = [160; 144; 128]
  /\ mapBlockIndex st' !! 101 = Some 32
  /\ mapBlockIndex st' !! 102 = Some 48
  /\ vSortedByHeight st' = Returns [(0, 16); (1, 32); (1, 48)].
Proof. cbv zeta. repeat split; vm_compute; reflexivity. Qed.

(** ** The loader: the self-check of one block *)

Section BlockChecks.

Variable env : Env.
Variable db : DB.
Variable nCheckLevel : Z.
Variable pindex : Z.
Variable node : CBlockIndex.

Lemma flags_refl (w : Walk) : flags pindex node [] w w.
Proof. split; simpl; [rewrite app_nil_r |]; reflexivity. Qed.

Lemma flags_flag (warning : Warning) (w : Walk) :
  flags pindex node [warning] w (flag pindex node warning w).
Proof. split; reflexivity. Qed.

Lemma flags_trans (ws1 ws2 : list Warning) (w1 w2 w3 : Walk) :
  flags pindex node ws1 w1 w2 -> flags pindex node ws2 w2 w3 ->
  flags pindex node (ws1 ++ ws2) w1 w3.
Proof.
  intros [He1 Hf1] [He2 Hf2]. split.
  - rewrite He2, He1, fmap_app, app_assoc. reflexivity.
  - rewrite Hf2. destruct ws2 as [| x ws2].
    + rewrite app_nil_r. exact Hf1.
    + destruct ws1; reflexivity.
Qed.

Lemma check_spent_flags (hashTx nOutput : Z) (txpos : CDiskTxPos) (w : Walk) :
  exists ws, flags pindex node ws w
               (check_spent env nCheckLevel pindex node hashTx nOutput txpos w).
Proof.
  unfold check_spent.
  destruct (IsNull env txpos); [exists []; apply flags_refl |].
  set (w1 := if negb _ then _ else w).
  assert (H1 : exists ws1, flags pindex node ws1 w w1).
  { unfold w1. destruct (negb _); [exists [BadSpend hashTx]; apply flags_flag
                                 | exists []; apply flags_refl]. }
  destruct H1 as (ws1 & H1).
  assert (H2 : forall warning, exists ws,
               flags pindex node ws w (flag pindex node warning w1)).
  { intros warning. exists (ws1 ++ [warning]).
    eapply flags_trans; [exact H1 | apply flags_flag]. }
  destruct (bool_decide (nCheckLevel > 5)); [| exists ws1; exact H1].
  destruct (Tx_ReadFromDisk env txpos) as [txSpend |]; [| apply H2].
  destruct (negb (CheckTransaction env txSpend)); [apply H2 |].
  destruct (negb (existsb _ _)); [apply H2 | exists ws1; exact H1].
Qed.

Lemma check_all_spent_flags (hashTx : Z) (vSpent : list CDiskTxPos) :
  forall (nOutput : Z) (w : Walk),
    exists ws, flags pindex node ws w
                 (check_all_spent env nCheckLevel pindex node hashTx nOutput vSpent w).
Proof.
  induction vSpent as [| txpos vSpent IH]; intros nOutput w; simpl.
  - exists []. apply flags_refl.
  - destruct (check_spent_flags hashTx nOutput txpos w) as (ws1 & H1).
    destruct (IH ((nOutput + 1) mod 2 ^ 32)
                 (check_spent env nCheckLevel pindex node hashTx nOutput txpos w))
      as (ws2 & H2).
    exists (ws1 ++ ws2). eapply flags_trans; eassumption.
Qed.

Lemma check_prevout_flags (hashTx : Z) (txin : CTxIn) (w w' : Walk) :
  check_prevout env db pindex node hashTx txin w = Returns w' ->
  exists ws, flags pindex node ws w w'.
Proof.
  unfold check_prevout.
  destruct (ReadTxIndex db _) as [txindex |].
  - destruct (bool_decide _).
    + intros [= <-]. eexists. apply flags_flag.
    + destruct (TxIndex.vSpent txindex !! _) as [txpos |]; [| discriminate].
      destruct (IsNull env txpos); intros [= <-].
      * eexists. apply flags_flag.
      * exists []. apply flags_refl.
  - intros [= <-]. exists []. apply flags_refl.
Qed.

Lemma check_prevouts_flags (hashTx : Z) (vin : list CTxIn) :
  forall (w w' : Walk),
    check_prevouts env db pindex node hashTx vin w = Returns w' ->
    exists ws, flags pindex node ws w w'.
Proof.
  induction vin as [| txin vin IH]; intros w w'; simpl.
  - intros [= <-]. exists []. apply flags_refl.
  - destruct (check_prevout env db pindex node hashTx txin w) as [w1 | | |] eqn:H1;
      simpl; try discriminate.
    intros H2. apply check_prevout_flags in H1 as (ws1 & H1).
    apply IH in H2 as (ws2 & H2). exists (ws1 ++ ws2). eapply flags_trans; eassumption.
Qed.

Lemma check_tx_position_flags (hashTx : Z) (txindex : CTxIndex) (w : Walk) :
  exists ws, flags pindex node ws w
               (check_tx_position env nCheckLevel pindex node hashTx txindex w).
Proof.
  unfold check_tx_position.
  destruct (_ || _ || _); [| exists []; apply flags_refl].
  destruct (Tx_ReadFromDisk env _) as [txFound |]; [| eexists; apply flags_flag].
  destruct (negb _); [eexists; apply flags_flag | exists []; apply flags_refl].
Qed.

(** The part of [check_tx] that looks at the transaction's own index
    entry. *)
Lemma check_tx_flags (tx : CTransaction) (w w' : Walk) :
  check_tx env db nCheckLevel pindex node tx w = Returns w' ->
  exists ws, flags pindex node ws w w'.
Proof.
  unfold check_tx. set (hashTx := Tx_GetHash env tx).
  set (w1 := match ReadTxIndex db hashTx with Some _ => _ | None => w end).
  assert (H1 : exists ws1, flags pindex node ws1 w w1).
  { unfold w1. destruct (ReadTxIndex db hashTx) as [txindex |];
      [| exists []; apply flags_refl].
    destruct (check_tx_position_flags hashTx txindex w) as (wsa & Ha).
    destruct (bool_decide (nCheckLevel > 3)); [| exists wsa; exact Ha].
    destruct (check_all_spent_flags hashTx (TxIndex.vSpent txindex) 0
                (check_tx_position env nCheckLevel pindex node hashTx txindex w))
      as (wsb & Hb).
    exists (wsa ++ wsb). eapply flags_trans; eassumption. }
  destruct H1 as (ws1 & H1).
  destruct (bool_decide (nCheckLevel > 4)).
  - intros H2. apply check_prevouts_flags in H2 as (ws2 & H2).
    exists (ws1 ++ ws2). eapply flags_trans; eassumption.
  - intros [= <-]. exists ws1. exact H1.
Qed.

Lemma check_txs_flags (vtx : list CTransaction) :
  forall (w w' : Walk),
    check_txs env db nCheckLevel pindex node vtx w = Returns w' ->
    exists ws, flags pindex node ws w w'.
Proof.
  induction vtx as [| tx vtx IH]; intros w w'; simpl.
  - intros [= <-]. exists []. apply flags_refl.
  - destruct (check_tx env db nCheckLevel pindex node tx w) as [w1 | | |] eqn:H1;
      simpl; try discriminate.
    intros H2. apply check_tx_flags in H1 as (ws1 & H1).
    apply IH in H2 as (ws2 & H2). exists (ws1 ++ ws2). eapply flags_trans; eassumption.
Qed.

(** Every check on a block either leaves the fork pointer alone or sets
    it to the block's predecessor, logging a warning against the block. *)
Lemma check_block_flags (block : CBlock) (w w' : Walk) :
  check_block env db nCheckLevel pindex node block w = Returns w' ->
  exists ws, flags pindex node ws w w'.
Proof.
  unfold check_block.
  set (w1 := if _ && _ then _ else w).
  assert (H1 : exists ws1, flags pindex node ws1 w w1).
  { unfold w1. destruct (_ && _); [eexists; apply flags_flag | exists []; apply flags_refl]. }
  destruct H1 as (ws1 & H1).
  destruct (bool_decide (nCheckLevel > 1)).
  - intros H2. apply check_txs_flags in H2 as (ws2 & H2).
    exists (ws1 ++ ws2). eapply flags_trans; [exact H1 |].
    destruct H2 as [He Hf]. split; assumption.
  - intros [= <-]. exists ws1. exact H1.
Qed.

End BlockChecks.

Section MislocatedTx.

Variable env : Env.
Variable db : DB.
Variable nCheckLevel : Z.
Variable pindex : Z.
Variable node : CBlockIndex.

Lemma flags_warned (ws : list Warning) (warning : Warning) (w w' : Walk) :
  flags pindex node ws w w' -> warning ∈ ws ->
  pindexFork w' = BlockIndex.pprev node
  /\ EvWarning pindex warning ∈ walk_events w'.
Proof.
  intros [He Hf] Hin. split.
  - rewrite Hf. destruct ws; [inversion Hin | reflexivity].
  - rewrite He. apply elem_of_app. right. apply list_elem_of_fmap. eauto.
Qed.

(** What the position check does when the stored position is not that
    of the block. *)
Lemma check_tx_position_mislocated (hashTx : Z) (txindex : CTxIndex) (w : Walk) :
  BlockIndex.nFile node <> DiskTxPos.nFile (TxIndex.pos txindex)
  \/ BlockIndex.nBlockPos node <> DiskTxPos.nBlockPos (TxIndex.pos txindex) ->
  check_tx_position env nCheckLevel pindex node hashTx txindex w
  = match Tx_ReadFromDisk env (TxIndex.pos txindex) with
    | None => flag pindex node (CannotReadMislocatedTx hashTx) w
    | Some txFound =>
        if bool_decide (Tx_GetHash env txFound = hashTx) then w
        else flag pindex node (InvalidTxPosition hashTx) w
    end.
Proof.
  intros Hpos. unfold check_tx_position.
  assert (Hcond : bool_decide (nCheckLevel > 2)
                  || negb (bool_decide (BlockIndex.nFile node
                                        = DiskTxPos.nFile (TxIndex.pos txindex)))
                  || negb (bool_decide (BlockIndex.nBlockPos node
                                        = DiskTxPos.nBlockPos (TxIndex.pos txindex)))
                  = true).
  { repeat case_bool_decide; simpl; try reflexivity. tauto. }
  rewrite Hcond. clear Hcond.
  destruct (Tx_ReadFromDisk env _) as [txFound |]; [| reflexivity].
  destruct (bool_decide (Tx_GetHash env txFound = hashTx)); reflexivity.
Qed.

Lemma check_tx_mislocated (tx : CTransaction) (txindex : CTxIndex)
    (warning : Warning) (w w' : Walk) :
  ReadTxIndex db (Tx_GetHash env tx) = Some txindex ->
  BlockIndex.nFile node <> DiskTxPos.nFile (TxIndex.pos txindex)
  \/ BlockIndex.nBlockPos node <> DiskTxPos.nBlockPos (TxIndex.pos txindex) ->
  position_warning env (Tx_GetHash env tx) txindex = Some warning ->
  check_tx env db nCheckLevel pindex node tx w = Returns w' ->
  exists ws, flags pindex node ws w w' /\ warning ∈ ws.
Proof.
  intros Hread Hpos Hwarn. unfold check_tx. rewrite Hread.
  rewrite (check_tx_position_mislocated _ _ _ Hpos).
  set (hashTx := Tx_GetHash env tx) in *.
  set (w0 := match Tx_ReadFromDisk env _ with Some _ => _ | None => _ end).
  assert (H0 : flags pindex node [warning] w w0).
  { unfold w0. unfold position_warning in Hwarn.
    destruct (Tx_ReadFromDisk env _) as [txFound |].
    - destruct (bool_decide _); [discriminate |]. injection Hwarn as <-. apply flags_flag.
    - injection Hwarn as <-. apply flags_flag. }
  set (w1 := if bool_decide (nCheckLevel > 3) then _ else w0).
  assert (H1 : exists ws1, flags pindex node ws1 w0 w1).
  { unfold w1. destruct (bool_decide (nCheckLevel > 3)); [| exists []; apply flags_refl].
    apply check_all_spent_flags. }
  destruct H1 as (ws1 & H1).
  destruct (bool_decide (nCheckLevel > 4)).
  - intros H2. apply check_prevouts_flags in H2 as (ws2 & H2).
    exists ([warning] ++ ws1 ++ ws2).
    split; [| apply elem_of_app; left; apply list_elem_of_singleton; reflexivity].
    eapply flags_trans; [exact H0 |]. eapply flags_trans; eassumption.
  - intros [= <-]. exists ([warning] ++ ws1).
    split; [| apply elem_of_app; left; apply list_elem_of_singleton; reflexivity].
    eapply flags_trans; eassumption.
Qed.

Lemma check_txs_mislocated (tx : CTransaction) (txindex : CTxIndex)
    (warning : Warning) (vtx : list CTransaction) :
  tx ∈ vtx ->
  ReadTxIndex db (Tx_GetHash env tx) = Some txindex ->
  BlockIndex.nFile node <> DiskTxPos.nFile (TxIndex.pos txindex)
  \/ BlockIndex.nBlockPos node <> DiskTxPos.nBlockPos (TxIndex.pos txindex) ->
  position_warning env (Tx_GetHash env tx) txindex = Some warning ->
  forall w w',
    check_txs env db nCheckLevel pindex node vtx w = Returns w' ->
    exists ws, flags pindex node ws w w' /\ warning ∈ ws.
Proof.
  intros Hin Hread Hpos Hwarn.
  induction vtx as [| tx' vtx IH]; [inversion Hin |].
  intros w w'. simpl.
  destruct (check_tx env db nCheckLevel pindex node tx' w) as [w1 | | |] eqn:H1;
    simpl; try discriminate.
  intros H2. apply elem_of_cons in Hin as [<- | Hin].
  - destruct (check_tx_mislocated tx txindex warning w w1 Hread Hpos Hwarn H1)
      as (ws1 & Hf1 & Hw).
    apply check_txs_flags in H2 as (ws2 & Hf2).
    exists (ws1 ++ ws2).
    split; [eapply flags_trans; eassumption | apply elem_of_app; left; exact Hw].
    - apply check_tx_flags in H1 as (ws1 & Hf1).
    destruct (IH Hin w1 w' H2) as (ws2 & Hf2 & Hw).
    exists (ws1 ++ ws2).
    split; [eapply flags_trans; eassumption | apply elem_of_app; right; exact Hw].
Qed.

(** Up to check level 4 no check reads past the end of a vector. *)
Lemma check_txs_Returns (vtx : list CTransaction) :
  nCheckLevel <= 4 ->
  forall w, exists w', check_txs env db nCheckLevel pindex node vtx w = Returns w'.
Proof.
  intros Hlevel. induction vtx as [| tx vtx IH]; intros w; simpl; [eauto |].
  unfold check_tx. rewrite (bool_decide_eq_false_2 (nCheckLevel > 4)) by lia.
  simpl. apply IH.
Qed.

End MislocatedTx.

(** C4 (amended): at check level 2 and above, for a transaction of a
    walked block whose index entry is readable and whose stored position
    disagrees with the block's (file, offset), the transaction at the
    stored position is read; if that read fails, or yields a transaction
    of another hash, the fork pointer is the block's predecessor once the
    block's checks are done, and the warning is logged. If the read
    yields a transaction of the same hash (a duplicate), the position
    check leaves the fork pointer as it is. Up to level 4 the checks of a
    block always run to their end. *)
Theorem check_block_mislocated_tx
    (env : Env) (db : DB) (nCheckLevel pindex : Z) (node : CBlockIndex)
    (block : CBlock) (tx : CTransaction) (txindex : CTxIndex) (w : Walk) :
  nCheckLevel > 1 ->
  tx ∈ Block.vtx block ->
  ReadTxIndex db (Tx_GetHash env tx) = Some txindex ->
  BlockIndex.nFile node <> DiskTxPos.nFile (TxIndex.pos txindex)
  \/ BlockIndex.nBlockPos node <> DiskTxPos.nBlockPos (TxIndex.pos txindex) ->
  (forall w',
      check_block env db nCheckLevel pindex node block w = Returns w' ->
      match Tx_ReadFromDisk env (TxIndex.pos txindex) with
      | None =>
          pindexFork w' = BlockIndex.pprev node
          /\ EvWarning pindex (CannotReadMislocatedTx (Tx_GetHash env tx)) ∈ walk_events w'
      | Some txFound =>
          Tx_GetHash env txFound <> Tx_GetHash env tx ->
          pindexFork w' = BlockIndex.pprev node
          /\ EvWarning pindex (InvalidTxPosition (Tx_GetHash env tx)) ∈ walk_events w'
      end)
  /\ (forall txFound w0,
         Tx_ReadFromDisk env (TxIndex.pos txindex) = Some txFound ->
         Tx_GetHash env txFound = Tx_GetHash env tx ->
         check_tx_position env nCheckLevel pindex node (Tx_GetHash env tx) txindex w0 = w0)
  /\ (nCheckLevel <= 4 ->
      exists w', check_block env db nCheckLevel pindex node block w = Returns w').
Proof.
  intros Hlevel Hin Hread Hpos. split; [| split].
  - intros w' Hrun. unfold check_block in Hrun.
    rewrite (bool_decide_eq_true_2 (nCheckLevel > 1) Hlevel) in Hrun.
    set (w1 := if _ && _ then _ else w) in Hrun.
    assert (Hgo : forall warning,
               position_warning env (Tx_GetHash env tx) txindex = Some warning ->
               pindexFork w' = BlockIndex.pprev node
               /\ EvWarning pindex warning ∈ walk_events w').
    { intros warning Hwarn.
      destruct (check_txs_mislocated env db nCheckLevel pindex node tx txindex warning
                  (Block.vtx block) Hin Hread Hpos Hwarn _ _ Hrun) as (ws & Hf & Hw).
      exact (flags_warned pindex node ws warning _ w' Hf Hw). }
    unfold position_warning in Hgo.
    destruct (Tx_ReadFromDisk env (TxIndex.pos txindex)) as [txFound |].
    + intros Hne. apply Hgo. rewrite bool_decide_eq_false_2 by exact Hne. reflexivity.
    + apply Hgo. reflexivity.
  - intros txFound w0 Hfound Hsame.
    rewrite (check_tx_position_mislocated _ _ _ _ _ _ _ Hpos), Hfound.
    rewrite bool_decide_eq_true_2 by exact Hsame. reflexivity.
  - intros Hle. unfold check_block.
    rewrite (bool_decide_eq_true_2 (nCheckLevel > 1) Hlevel).
    apply check_txs_Returns, Hle.
Qed.

Lemma check_block_mislocated_tx_witness :
  (forall w',
      check_block (sample_Env 2 10 16 16) (sample_DB 10 (Some 109) (sample_txindex 1 70))
        2 96 sample_node5 (Block.mk [Transaction.mk [] 505]) initial_Walk = Returns w' ->
      pindexFork w' = Some 80
      /\ EvWarning 96 (InvalidTxPosition 505) ∈ walk_events w')
  /\ exists w',
       check_block (sample_Env 2 10 16 16) (sample_DB 10 (Some 109) (sample_txindex 1 70))
         2 96 sample_node5 (Block.mk [Transaction.mk [] 505]) initial_Walk = Returns w'.
Proof.
  destruct (check_block_mislocated_tx
              (sample_Env 2 10 16 16) (sample_DB 10 (Some 109) (sample_txindex 1 70))
              2 96 sample_node5 (Block.mk [Transaction.mk [] 505])
              (Transaction.mk [] 505) (sample_txindex 1 70) initial_Walk)
    as (Hflag & _ & Hruns).
  - lia.
  - apply list_elem_of_singleton. reflexivity.
  - reflexivity.
  - right. simpl. lia.
  - split.
    + intros w' Hrun. apply (Hflag w' Hrun). vm_compute. discriminate.
    + apply Hruns. lia.
Defined.

(** C4, as stated, fails for a duplicate transaction: the index entry of
    the transaction of block 5 points into file 2, not at the block's
    position in file 1, but the transaction found there has the same
    hash, and at level 2 the walk ends without any warning and without a
    fork. *)
Lemma duplicate_tx_at_other_position_not_flagged :
  let env := sample_Env 2 10 16 16 in
  let db := sample_DB 10 (Some 109) (sample_txindex 2 50) in
  heap (loaded env db) !! 96 = Some sample_node5
  /\ BlockIndex.nFile sample_node5 = 1
  /\ BlockIndex.nBlockPos sample_node5 = 50
  /\ Block_ReadFromDisk env sample_node5 = Some (Block.mk [Transaction.mk [] 505])
  /\ ReadTxIndex db (Tx_GetHash env (Transaction.mk [] 505))
     = Some (TxIndex.mk (DiskTxPos.mk 2 50 0) [DiskTxPos.mk (2 ^ 32 - 1) 0 0])
  /\ match check_block env db 2 96 sample_node5 (Block.mk [Transaction.mk [] 505])
             initial_Walk with
     | Returns w => pindexFork w = None /\ walk_events w = []
     | _ => False
     end
  /\ exists st,
       LoadBlockIndex 20 env db initial_State = Some (Returns (LoadTrue, st))
       /\ pindexBest st = Some 160
       /\ events st = [].
Proof.
  cbv zeta. repeat split; try (vm_compute; reflexivity).
  eexists. split; [vm_compute; reflexivity |]. split; reflexivity.
Qed.

(** ** The loader: the walk and the fork *)

Section Walk.

Variable env : Env.
Variable db : DB.
Variable nCheckLevel : Z.
Variable nCheckDepth : Z.







End Walk.

Lemma events_log_events (w : Walk) (st : State) :
  events (log_events w st) = events st ++ walk_events w
  /\ heap (log_events w st) = heap st
  /\ nShutdownReads (log_events w st) = nShutdownReads st.
Proof.
  unfold log_events. generalize (walk_events w) as evs. intros evs.
  revert st. induction evs as [| ev evs IH]; intros st; simpl.
  - rewrite app_nil_r. auto.
  - destruct (IH (emit ev st)) as (He & Hh & Hn). rewrite He, Hh, Hn. simpl.
    rewrite <- app_assoc. auto.
Qed.




(** Without the heights going down along parent links the fork pointer
    need not be below the lowest flagged block: in a chain of five blocks
    whose records give block 3 (address 64) the height 2 and its
    predecessor, block 2 (address 48), the height 3, both are flagged at
    level 2; the fork pointer ends at the predecessor of block 2, the one
    flagged last, and [SetBestChain] is called on it, while the lowest
    flagged block is block 3. *)
Example fork_follows_walk_order_when_heights_rise :
  let env := sample_Env 2 10 16 16 in
  let st := before_self_check env sample_rising_DB in
  let w := walked 6 env sample_rising_DB 2 4 (Some 80) st in
  ~ heap_parents_lower st
  /\ walk 6 env sample_rising_DB 2 4 (Some 80) initial_Walk st
     = Some (Returns (Next (w, Nat.iter 4 tick st)))
  /\ warned_blocks (walk_events w) = [64; 48]
  /\ height_at st 64 = 2
  /\ height_at st 48 = 3
  /\ parent_at st 64 = Some 48
  /\ parent_at st 48 = Some 32
  /\ pindexFork w = Some 32
  /\ exists st',
       LoadBlockIndex 6 env sample_rising_DB initial_State = Some (Returns (LoadTrue, st'))
       /\ best_chain_calls (events st') = [32].
Proof.
  cbv zeta. split; [compute_done |].
  split; [vm_compute; reflexivity |].
  split; [vm_compute; reflexivity |].
  split; [vm_compute; reflexivity |].
  split; [vm_compute; reflexivity |].
  split; [vm_compute; reflexivity |].
  split; [vm_compute; reflexivity |].
  split; [vm_compute; reflexivity |].
  eexists. split; [vm_compute; reflexivity |]. reflexivity.
Qed.

(** The run of the sample chain with the index entry of block 5
    corrupted, at level 2 over all blocks: block 5 (address 96) is
    flagged, the fork is block 4 (address 80), and [SetBestChain] is
    called once, on it. *)
Example load_sample_chain_mid_chain_corruption :
  exists st,
    LoadBlockIndex 11 (sample_Env 2 10 16 16)
      (sample_DB 10 (Some 109) (sample_txindex 1 70)) initial_State
    = Some (Returns (LoadTrue, st))
    /\ events st = [EvWarning 96 (InvalidTxPosition 505); EvSetBestChain 80]
    /\ parent_at st 96 = Some 80
    /\ height_at st 80 = 4.
Proof. eexists. split; [vm_compute; reflexivity |]. repeat split. Qed.


(** ** The loader: chain trust *)

Section ChainTrust.

Variable env : Env.

Lemma parent_chain_agree (st st' : State) (done : list Z) :
  closed_under_parents st done ->
  (forall p, p ∈ done -> heap st' !! p = heap st !! p) ->
  forall pindex chain,
    parent_chain st pindex chain -> pindex ∈ done -> parent_chain st' pindex chain.
Proof.
  intros Hclosed Hagree pindex chain Hchain.
  induction Hchain as [pindex node Hnode Hprev | pindex node pprev chain Hnode Hprev _ IH];
    intros Hin.
  - apply parent_chain_genesis; [rewrite Hagree by exact Hin; exact Hnode | exact Hprev].
  - eapply parent_chain_step; [rewrite Hagree by exact Hin; exact Hnode | exact Hprev |].
    apply IH. exact (Hclosed pindex node pprev Hin Hnode Hprev).
Qed.

Lemma trust_ok_agree (st st' : State) (done : list Z) (pindex : Z) :
  closed_under_parents st done ->
  (forall p, p ∈ done -> heap st' !! p = heap st !! p) ->
  pindex ∈ done -> trust_ok env st pindex -> trust_ok env st' pindex.
Proof.
  intros Hclosed Hagree Hin (node & chain & Hnode & Hlocal & Hchain & Hsum).
  exists node, chain. split; [rewrite Hagree by exact Hin; exact Hnode |].
  split; [| split; [eapply parent_chain_agree; eassumption | exact Hsum]].
  rewrite Hlocal. f_equal. unfold parent_trust.
  destruct (BlockIndex.pprev node) as [pprev |] eqn:Hprev; [| reflexivity].
  rewrite Hagree; [reflexivity |].
  exact (Hclosed pindex node pprev Hin Hnode Hprev).
Qed.

(** One step of the loop on a node whose parent, if it has one, has its
    chain trust already. *)
Lemma chain_trust_step_ok (st0 st : State) (done : list Z) (pindex : Z) :
  block_trust_stable env ->
  same_links env st0 st ->
  is_Some (heap st0 !! pindex) ->
  pindex ∉ done ->
  closed_under_parents st done ->
  (forall p, p ∈ done -> trust_ok env st p) ->
  (forall node pprev, heap st !! pindex = Some node ->
                      BlockIndex.pprev node = Some pprev -> pprev ∈ done) ->
  exists r,
    chain_trust_step env pindex st = Returns r
    /\ forall st', r = Next st' ->
         mapBlockIndex st' = mapBlockIndex st
         /\ same_links env st0 st'
         /\ closed_under_parents st' (done ++ [pindex])
         /\ forall p, p ∈ done ++ [pindex] -> trust_ok env st' p.
Proof.
  intros Hstable Hlinks [node0 Hnode0] Hfresh Hclosed Hgood Hparent.
  pose proof (Hlinks pindex) as Hl. rewrite Hnode0 in Hl.
  destruct (heap st !! pindex) as [node |] eqn:Hnode; [| contradiction].
  destruct Hl as (Hlprev & Hlheight & Hltrust).
  unfold chain_trust_step, deref. rewrite Hnode. simpl.
  (* the trust of the parent *)
  assert (Hprev : exists prevTrust,
             match BlockIndex.pprev node with
             | Some pprev =>
                 match heap st !! pprev with
                 | Some prev => Returns (BlockIndex.nChainTrust prev)
                 | None => Undefined
                 end
             | None => Returns 0
             end = Returns prevTrust
             /\ prevTrust = parent_trust st node).
  { unfold parent_trust. destruct (BlockIndex.pprev node) as [pprev |] eqn:Hpp;
      [| eauto].
    destruct (Hgood pprev (Hparent node pprev eq_refl Hpp)) as (prev & _ & Hp & _).
    rewrite Hp. eauto. }
  destruct Hprev as (prevTrust & Hprev & HprevTrust).
  match goal with
  | |- context [mbind _ ?m] => replace m with (Returns (A:=Z) prevTrust)
  end.
  2:{ rewrite <- Hprev. destruct (BlockIndex.pprev node) as [pprev |]; [| reflexivity].
      destruct (heap st !! pprev); reflexivity. }
  simpl.
  set (node1 := BlockIndex.set_nChainTrust (add256 prevTrust (GetBlockTrust env node)) node).
  set (st1 := store pindex node1 st).
  set (node2 := BlockIndex.set_nStakeModifierChecksum
                  (GetStakeModifierChecksum env (heap st1) pindex) node1).
  set (st2 := store pindex node2 st1).
  assert (Hheap2 : heap st2 = <[pindex := node2]> (heap st)).
  { unfold st2, st1, store. simpl. apply insert_insert_eq. }
  assert (Hagree : forall p, p ∈ done -> heap st2 !! p = heap st !! p).
  { intros p Hp. rewrite Hheap2. apply lookup_insert_ne. intros ->. contradiction. }
  assert (Hnode2 : heap st2 !! pindex = Some node2).
  { rewrite Hheap2. apply lookup_insert_eq. }
  assert (Hres : forall st', Next st2 = Next st' ->
             mapBlockIndex st' = mapBlockIndex st
             /\ same_links env st0 st'
             /\ closed_under_parents st' (done ++ [pindex])
             /\ forall p, p ∈ done ++ [pindex] -> trust_ok env st' p).
  { intros st' [= <-]. split; [reflexivity |]. split; [| split].
    - intros p. destruct (decide (p = pindex)) as [-> | Hne].
      + rewrite Hnode0, Hnode2. split; [exact Hlprev |]. split; [exact Hlheight |].
        unfold node2, node1. rewrite Hstable. exact Hltrust.
      + rewrite Hheap2, lookup_insert_ne by congruence. exact (Hlinks p).
    - intros p n q Hp Hn Hq. apply elem_of_app in Hp as [Hp | Hp].
      + apply elem_of_app. left. rewrite Hagree in Hn by exact Hp.
        exact (Hclosed p n q Hp Hn Hq).
      + apply list_elem_of_singleton in Hp as ->. rewrite Hnode2 in Hn.
        injection Hn as <-. apply elem_of_app. left.
        exact (Hparent node q eq_refl Hq).
    - intros p Hp. apply elem_of_app in Hp as [Hp | Hp].
      + eapply trust_ok_agree; eauto.
      + apply list_elem_of_singleton in Hp as ->.
        assert (Hbt : GetBlockTrust env node2 = GetBlockTrust env node).
        { unfold node2, node1. apply Hstable. }
        assert (Hpt : parent_trust st2 node2 = prevTrust).
        { rewrite HprevTrust. unfold parent_trust.
          change (BlockIndex.pprev node2) with (BlockIndex.pprev node).
          destruct (BlockIndex.pprev node) as [pprev |] eqn:Hpp; [| reflexivity].
          rewrite Hagree; [reflexivity |]. exact (Hparent node pprev eq_refl Hpp). }
        unfold trust_ok.
        destruct (BlockIndex.pprev node) as [pprev |] eqn:Hpp.
        * destruct (Hgood pprev (Hparent node pprev eq_refl Hpp))
            as (prev & chain & Hp & _ & Hchain & Hsum).
          exists node2, (node2 :: chain). split; [exact Hnode2 |].
          split; [rewrite Hpt, Hbt; reflexivity |]. split.
          -- eapply parent_chain_step; [exact Hnode2 | exact Hpp |].
             eapply parent_chain_agree;
               [exact Hclosed | exact Hagree | exact Hchain
               | exact (Hparent node pprev eq_refl Hpp)].
          -- change (BlockIndex.nChainTrust node2)
               with (add256 prevTrust (GetBlockTrust env node)).
             simpl. rewrite Hbt. rewrite HprevTrust. unfold parent_trust.
             rewrite Hpp, Hp, Hsum. unfold add256.
             rewrite Zplus_mod_idemp_l. f_equal. lia.
        * exists node2, [node2]. split; [exact Hnode2 |].
          split; [rewrite Hpt, Hbt; reflexivity |]. split.
          -- apply parent_chain_genesis; [exact Hnode2 | exact Hpp].
          -- change (BlockIndex.nChainTrust node2)
               with (add256 prevTrust (GetBlockTrust env node)).
             simpl. rewrite Hbt, HprevTrust. unfold parent_trust. rewrite Hpp.
             unfold add256. f_equal. lia. }
  destruct (negb (CheckStakeModifierCheckpoints env _ _)).
  - eexists. split; [reflexivity |]. intros st' H. discriminate.
  - eexists. split; [reflexivity |]. exact Hres.
Qed.

End ChainTrust.

Section ChainTrustLoop.

Variable env : Env.
Variable st0 : State.
Variable v : list (Z * Z).

Hypothesis Hstable : block_trust_stable env.
Hypothesis Hnodup : NoDup v.*2.
Hypothesis Hnodes : forall x, x ∈ v -> is_Some (heap st0 !! x.2).
Hypothesis Hbefore :
  forall done x todo node pprev,
    v = done ++ x :: todo ->
    heap st0 !! x.2 = Some node -> BlockIndex.pprev node = Some pprev ->
    pprev ∈ done.*2.

Lemma chain_trust_loop_ok (todo : list (Z * Z)) :
  forall (done : list (Z * Z)) (st : State),
    v = done ++ todo ->
    same_links env st0 st ->
    closed_under_parents st done.*2 ->
    (forall p, p ∈ done.*2 -> trust_ok env st p) ->
    exists r,
      chain_trust_loop env todo st = Returns r
      /\ forall st', r = Next st' ->
           mapBlockIndex st' = mapBlockIndex st
           /\ same_links env st0 st'
           /\ forall p, p ∈ v.*2 -> trust_ok env st' p.
Proof.
  induction todo as [| [hx px] todo IH]; intros done st Hv Hlinks Hclosed Hgood; simpl.
  - eexists. split; [reflexivity |]. intros st' [= <-].
    rewrite app_nil_r in Hv. subst v. auto.
  - assert (Hin : (hx, px) ∈ v).
    { rewrite Hv. apply elem_of_app. right. apply elem_of_cons. left. reflexivity. }
    assert (Hfresh : px ∉ done.*2).
    { rewrite Hv, fmap_app in Hnodup. apply NoDup_app in Hnodup as (_ & Hdisj & _).
      intros Hp. apply (Hdisj px Hp). simpl. apply elem_of_cons. left. reflexivity. }
    destruct (chain_trust_step_ok env st0 st done.*2 px Hstable Hlinks
                (Hnodes _ Hin) Hfresh Hclosed Hgood) as (r & Hr & Hok).
    { intros node pprev Hnode Hprev.
      pose proof (Hlinks px) as Hl. rewrite Hnode in Hl.
      destruct (heap st0 !! px) as [node0 |] eqn:Hnode0; [| contradiction].
      destruct Hl as (Hlp & _ & _). rewrite Hlp in Hprev.
      exact (Hbefore done (hx, px) todo node0 pprev Hv Hnode0 Hprev). }
    rewrite Hr. simpl. destruct r as [st1 | e st1].
    + destruct (Hok st1 eq_refl) as (Hmap & Hlinks1 & Hclosed1 & Hgood1).
      destruct (IH (done ++ [(hx, px)]) st1) as (r' & Hr' & Hok').
      * rewrite <- app_assoc. exact Hv.
      * exact Hlinks1.
      * rewrite fmap_app. exact Hclosed1.
      * rewrite fmap_app. exact Hgood1.
      * exists r'. split; [exact Hr' |]. intros st' Hst'.
        destruct (Hok' st' Hst') as (Hmap' & Hlinks' & Hgood').
        split; [congruence | auto].
    + eexists. split; [reflexivity |]. intros st' H. discriminate.
Qed.

End ChainTrustLoop.

Lemma same_links_refl (env : Env) (st : State) : same_links env st st.
Proof. intros p. destruct (heap st !! p); auto. Qed.

(** The vector Phase 2 sorts: what is in it. *)
Lemma sorted_pairs_elem (st : State) (x : Z * Z) :
  x ∈ merge_sort pair_le
        ((fun x => (height_at st x.2, x.2)) <$> in_key_order (mapBlockIndex st))
  <-> x.1 = height_at st x.2 /\ exists hash, mapBlockIndex st !! hash = Some x.2.
Proof.
  rewrite merge_sort_Permutation, in_key_order_Permutation, list_elem_of_fmap.
  split.
  - intros ([hash p] & -> & Hin). apply elem_of_map_to_list in Hin. simpl. eauto.
  - intros (Hh & hash & Hm). exists (hash, x.2). split.
    + destruct x as [h p]. simpl in *. congruence.
    + apply elem_of_map_to_list. exact Hm.
Qed.

Lemma sorted_pairs_NoDup (st : State) :
  addresses_distinct st ->
  NoDup (merge_sort pair_le
           ((fun x => (height_at st x.2, x.2)) <$> in_key_order (mapBlockIndex st))).*2.
Proof.
  intros Hdistinct. unfold addresses_distinct in Hdistinct.
  rewrite merge_sort_Permutation, in_key_order_Permutation.
  rewrite <- list_fmap_compose.
  erewrite list_fmap_ext; [exact Hdistinct |]. intros i [hash p] _. reflexivity.
Qed.

(** In the sorted vector the parent of a node comes before the node. *)
Lemma sorted_pairs_parent_before (st : State) (done todo : list (Z * Z)) (x : Z * Z)
    (node : CBlockIndex) (pprev : Z) :
  parents_indexed st -> parents_lower st ->
  merge_sort pair_le
    ((fun x => (height_at st x.2, x.2)) <$> in_key_order (mapBlockIndex st))
  = done ++ x :: todo ->
  heap st !! x.2 = Some node -> BlockIndex.pprev node = Some pprev ->
  pprev ∈ done.*2.
Proof.
  intros Hindexed Hlower Hv Hnode Hprev.
  assert (Hx : x ∈ done ++ x :: todo) by set_solver.
  rewrite <- Hv in Hx. apply sorted_pairs_elem in Hx as (Hxh & hash & Hm).
  pose proof (Hindexed hash x.2 Hm) as Hi. unfold parent_indexed in Hi.
  rewrite Hnode, Hprev in Hi. apply elem_of_map_img in Hi as (hash' & Hm').
  pose proof (Hlower hash x.2 Hm) as Hl. unfold parent_lower in Hl.
  rewrite Hnode, Hprev in Hl.
  assert (Hxheight : x.1 = BlockIndex.nHeight node).
  { rewrite Hxh. unfold height_at. rewrite Hnode. reflexivity. }
  assert (Hp : (height_at st pprev, pprev) ∈ done ++ x :: todo).
  { rewrite <- Hv. apply sorted_pairs_elem. simpl. eauto. }
  assert (Hsorted : StronglySorted pair_le (done ++ x :: todo)).
  { rewrite <- Hv. apply StronglySorted_merge_sort; apply _. }
  apply elem_of_app in Hp as [Hp | Hp].
  - apply list_elem_of_fmap. exists (height_at st pprev, pprev). auto.
  - exfalso. apply StronglySorted_app in Hsorted as (_ & _ & Htail).
    apply elem_of_cons in Hp as [Hp | Hp].
    + rewrite <- Hp in Hxheight. simpl in Hxheight. lia.
    + apply StronglySorted_cons in Htail as (Hall & _).
      rewrite Forall_forall in Hall. specialize (Hall _ Hp).
      unfold pair_le in Hall. simpl in Hall. lia.
Qed.

(** On a well-formed index in which every parent is lower than its
    child, Phase 2 runs to its end or stops at a failed stake-modifier
    checkpoint; when it runs to its end, every node of [mapBlockIndex]
    carries the chain trust of its parent plus its own block trust, the
    sum of the block trusts along its parent chain. *)
Lemma calculate_chain_trust_ok (env : Env) (st : State) :
  block_trust_stable env ->
  index_well_formed st ->
  parents_lower st ->
  exists r,
    calculate_chain_trust env st = Returns r
    /\ forall st', r = Next st' ->
         mapBlockIndex st' = mapBlockIndex st
         /\ forall hash pindex,
              mapBlockIndex st' !! hash = Some pindex ->
              exists node chain,
                heap st' !! pindex = Some node
                /\ BlockIndex.nChainTrust node
                   = add256 (parent_trust st' node) (GetBlockTrust env node)
                /\ parent_chain st' pindex chain
                /\ BlockIndex.nChainTrust node = sum_block_trust env chain mod 2 ^ 256.
Proof.
  intros Hstable (Hnodes & Hindexed & Hdistinct) Hlower.
  unfold calculate_chain_trust. rewrite (vSortedByHeight_Returns st Hnodes). simpl.
  set (v := merge_sort pair_le _).
  destruct (chain_trust_loop_ok env st v Hstable (sorted_pairs_NoDup st Hdistinct))
    with (todo := v) (done := @nil (Z * Z)) (st := st) as (r & Hr & Hok).
  - intros x Hx. apply sorted_pairs_elem in Hx as (_ & hash & Hm).
    exact (Hnodes hash x.2 Hm).
  - intros done x todo node pprev Hv Hnode Hprev.
    eapply sorted_pairs_parent_before; eassumption.
  - reflexivity.
  - apply same_links_refl.
  - intros p node q Hp. inversion Hp.
  - intros p Hp. inversion Hp.
  - exists r. split; [exact Hr |]. intros st' Hst'.
    destruct (Hok st' Hst') as (Hmap & _ & Hgood). split; [exact Hmap |].
    intros hash pindex Hm. apply Hgood.
    apply list_elem_of_fmap. exists (height_at st pindex, pindex). split; [reflexivity |].
    apply sorted_pairs_elem. simpl. split; [reflexivity |]. exists hash. congruence.
Qed.

(** ** The loader: what Phase 1 builds *)

Lemma NoDup_fmap_elem_inj {A B : Type} (f : A -> B) (l : list A) (x y : A) :
  NoDup (f <$> l) -> x ∈ l -> y ∈ l -> f x = f y -> x = y.
Proof.
  induction l as [| a l IH]; intros Hnd Hx Hy Hf; [inversion Hx |].
  rewrite fmap_cons in Hnd. apply NoDup_cons in Hnd as [Hnotin Hnd].
  apply elem_of_cons in Hx as [-> | Hx]; apply elem_of_cons in Hy as [-> | Hy].
  - reflexivity.
  - exfalso. apply Hnotin. rewrite Hf. apply list_elem_of_fmap. eauto.
  - exfalso. apply Hnotin. rewrite <- Hf. apply list_elem_of_fmap. eauto.
  - apply IH; assumption.
Qed.

Lemma index_well_formed_wf (st : State) :
  index_well_formed st <-> index_wf (mapBlockIndex st) (heap st).
Proof.
  unfold index_well_formed, index_wf, nodes_allocated, parents_indexed,
    addresses_distinct, map_Forall, parent_indexed.
  split.
  - intros (Hnodes & Hindexed & Hdistinct). split; [exact Hnodes |]. split.
    + intros hash p node q Hm Hnode Hprev. specialize (Hindexed hash p Hm).
      rewrite Hnode, Hprev in Hindexed. apply elem_of_map_img in Hindexed. exact Hindexed.
    + intros hash1 hash2 p H1 H2.
      apply elem_of_map_to_list in H1, H2.
      pose proof (NoDup_fmap_elem_inj snd _ _ _ Hdistinct H1 H2 eq_refl) as Heq.
      congruence.
  - intros (Hnodes & Hindexed & Hinj). split; [exact Hnodes |]. split.
    + intros hash p Hm. destruct (heap st !! p) as [node |] eqn:Hnode; [| exact I].
      destruct (BlockIndex.pprev node) as [q |] eqn:Hprev; [| exact I].
      apply elem_of_map_img. exact (Hindexed hash p node q Hm Hnode Hprev).
    + apply NoDup_fmap_2_strong; [| apply NoDup_map_to_list].
      intros [h1 p1] [h2 p2] H1 H2 Heq. simpl in Heq. subst p2.
      apply elem_of_map_to_list in H1, H2. f_equal. exact (Hinj h1 h2 p1 H1 H2).
Qed.

Section Phase1.

Variable env : Env.
Hypothesis Hsane : env_sane env.

Lemma index_wf_store (m : gmap Z Z) (h : gmap Z CBlockIndex) (p : Z) (node : CBlockIndex) :
  index_wf m h ->
  is_Some (h !! p) ->
  (forall q, BlockIndex.pprev node = Some q -> exists hash', m !! hash' = Some q) ->
  index_wf m (<[p := node]> h).
Proof.
  intros (Hnodes & Hindexed & Hinj) Hp Hq. split; [| split; [| exact Hinj]].
  - intros hash p' Hm. destruct (decide (p = p')) as [<- | Hne].
    + rewrite lookup_insert_eq. eauto.
    + rewrite lookup_insert_ne by exact Hne. exact (Hnodes hash p' Hm).
  - intros hash p' node' q Hm Hnode Hprev. destruct (decide (p = p')) as [<- | Hne].
    + rewrite lookup_insert_eq in Hnode. injection Hnode as <-. exact (Hq q Hprev).
    + rewrite lookup_insert_ne in Hnode by exact Hne.
      exact (Hindexed hash p' node' q Hm Hnode Hprev).
Qed.

(** [InsertBlockIndex] keeps the index well formed, never drops an
    entry, and returns an indexed address. *)
Lemma InsertBlockIndex_wf (hash : Z) (st : State) (r : option Z) (st' : State) :
  index_wf (mapBlockIndex st) (heap st) ->
  InsertBlockIndex env hash st = (r, st') ->
  index_wf (mapBlockIndex st') (heap st')
  /\ (forall k p, mapBlockIndex st !! k = Some p -> mapBlockIndex st' !! k = Some p)
  /\ (forall p, r = Some p -> mapBlockIndex st' !! hash = Some p).
Proof.
  intros Hwf. unfold InsertBlockIndex. case_bool_decide as Hzero.
  - intros [= <- <-]. split; [exact Hwf |]. split; [auto | intros p H; discriminate].
  - destruct (mapBlockIndex st !! hash) as [p |] eqn:Hfind.
    + intros [= <- <-]. split; [exact Hwf |]. split; [auto |]. intros p' [= <-]. exact Hfind.
    + intros [= <- <-]. simpl.
      destruct Hsane as [Hfresh Hnull]. destruct Hwf as (Hnodes & Hindexed & Hinj).
      set (pnew := operator_new env (heap st)).
      assert (Hnew : heap st !! pnew = None) by apply Hfresh.
      assert (Hunmapped : forall k, mapBlockIndex st !! k <> Some pnew).
      { intros k Hk. destruct (Hnodes k pnew Hk) as [n Hn]. congruence. }
      split; [| split].
      * split; [| split].
        -- intros k p Hm. destruct (decide (hash = k)) as [<- | Hne].
           ++ rewrite lookup_insert_eq in Hm. injection Hm as <-.
              rewrite lookup_insert_eq. eauto.
           ++ rewrite lookup_insert_ne in Hm by exact Hne.
              destruct (decide (pnew = p)) as [<- | Hnp]; [destruct (Hunmapped k Hm) |].
              rewrite lookup_insert_ne by exact Hnp. exact (Hnodes k p Hm).
        -- intros k p node q Hm Hnode Hprev. destruct (decide (hash = k)) as [<- | Hne].
           ++ rewrite lookup_insert_eq in Hm. injection Hm as <-.
              rewrite lookup_insert_eq in Hnode. injection Hnode as <-.
              simpl in Hprev. congruence.
           ++ rewrite lookup_insert_ne in Hm by exact Hne.
              destruct (decide (pnew = p)) as [<- | Hnp]; [destruct (Hunmapped k Hm) |].
              rewrite lookup_insert_ne in Hnode by exact Hnp.
              destruct (Hindexed k p node q Hm Hnode Hprev) as (k' & Hk').
              exists k'. rewrite lookup_insert_ne; [exact Hk' |]. congruence.
        -- intros k1 k2 p H1 H2.
           destruct (decide (hash = k1)) as [<- | Hne1];
             destruct (decide (hash = k2)) as [<- | Hne2]; [reflexivity | | |].
           ++ rewrite lookup_insert_eq in H1. injection H1 as <-.
              rewrite lookup_insert_ne in H2 by exact Hne2. destruct (Hunmapped k2 H2).
           ++ rewrite lookup_insert_eq in H2. injection H2 as <-.
              rewrite lookup_insert_ne in H1 by exact Hne1. destruct (Hunmapped k1 H1).
           ++ rewrite lookup_insert_ne in H1 by exact Hne1.
              rewrite lookup_insert_ne in H2 by exact Hne2. exact (Hinj k1 k2 p H1 H2).
      * intros k p Hm. rewrite lookup_insert_ne; [exact Hm |]. congruence.
      * intros p [= <-]. apply lookup_insert_eq.
Qed.

End Phase1.

Section Phase1Records.

Variable env : Env.
Hypothesis Hsane : env_sane env.

Lemma deref_Some (st : State) (p : Z) (node : CBlockIndex) :
  heap st !! p = Some node -> deref st p = Returns node.
Proof. intros H. unfold deref. rewrite H. reflexivity. Qed.

Lemma deref_None (st : State) (p : Z) :
  heap st !! p = None -> deref st p = Undefined.
Proof. intros H. unfold deref. rewrite H. reflexivity. Qed.

Lemma load_record_wf (diskindex : CDiskBlockIndex) (st : State) (r : Flow State) :
  index_wf (mapBlockIndex st) (heap st) ->
  load_record env diskindex st = Returns r ->
  index_wf (mapBlockIndex (flow_state r)) (heap (flow_state r)).
Proof.
  intros Hwf. unfold load_record.
  destruct (InsertBlockIndex env (GetBlockHash env diskindex) st) as [r1 st1] eqn:H1.
  destruct (InsertBlockIndex_wf env Hsane _ _ _ _ Hwf H1) as (Hwf1 & Hmono1 & Hr1).
  destruct r1 as [p |]; [| discriminate]. specialize (Hr1 p eq_refl).
  destruct (InsertBlockIndex env (DiskBlockIndex.hashPrev diskindex) st1)
    as [prev st2] eqn:H2.
  destruct (InsertBlockIndex_wf env Hsane _ _ _ _ Hwf1 H2) as (Hwf2 & Hmono2 & Hr2).
  pose proof (Hmono2 _ _ Hr1) as Hp2.
  destruct (heap st2 !! p) as [node2 |] eqn:Hn2;
    [rewrite (deref_Some _ _ _ Hn2) | rewrite (deref_None _ _ Hn2); discriminate].
  cbn [mbind Outcome_bind].
  set (st3 := store p (BlockIndex.set_pprev prev node2) st2).
  assert (Hwf3 : index_wf (mapBlockIndex st3) (heap st3)).
  { apply index_wf_store; [exact Hwf2 | eauto |].
    intros q Hq. simpl in Hq. eauto. }
  destruct (InsertBlockIndex env (DiskBlockIndex.hashNext diskindex) st3)
    as [next st4] eqn:H4.
  destruct (InsertBlockIndex_wf env Hsane _ _ _ _ Hwf3 H4) as (Hwf4 & Hmono4 & Hr4).
  pose proof (Hmono4 _ _ Hp2 : mapBlockIndex st4 !! _ = Some p) as Hp4.
  destruct (heap st4 !! p) as [node4 |] eqn:Hn4;
    [rewrite (deref_Some _ _ _ Hn4) | rewrite (deref_None _ _ Hn4); discriminate].
  cbn [mbind Outcome_bind].
  set (st5 := store p (BlockIndex.set_pnext next node4) st4).
  assert (Hwf5 : index_wf (mapBlockIndex st5) (heap st5)).
  { apply index_wf_store; [exact Hwf4 | eauto |].
    intros q Hq. simpl in Hq. destruct Hwf4 as (_ & Hindexed & _).
    exact (Hindexed _ p node4 q Hp4 Hn4 Hq). }
  assert (Hn5 : heap st5 !! p = Some (BlockIndex.set_pnext next node4)).
  { unfold st5, store. simpl. apply lookup_insert_eq. }
  rewrite (deref_Some _ _ _ Hn5). cbn [mbind Outcome_bind].
  set (node6 := BlockIndex.copy_fields diskindex (BlockIndex.set_pnext next node4)).
  set (st6 := store p node6 st5).
  assert (Hwf6 : index_wf (mapBlockIndex st6) (heap st6)).
  { apply index_wf_store; [exact Hwf5 | eauto |].
    intros q Hq. simpl in Hq. destruct Hwf4 as (_ & Hindexed & _).
    destruct (Hindexed _ p node4 q Hp4 Hn4 Hq) as (k & Hk). exists k. exact Hk. }
  destruct (negb (CheckIndex env node6)); [intros [= <-]; exact Hwf6 |].
  destruct (IsProofOfStake env node6); intros [= <-]; exact Hwf6.
Qed.

(** Phase 1 builds a well-formed index. *)
Lemma load_records_wf (iterator : list Entry) :
  forall (st : State) (r : Flow State),
    index_wf (mapBlockIndex st) (heap st) ->
    load_records env iterator st = Returns r ->
    index_wf (mapBlockIndex (flow_state r)) (heap (flow_state r)).
Proof.
  induction iterator as [| entry iterator IH]; intros st r Hwf; simpl.
  - intros [= <-]. exact Hwf.
  - destruct (fRequestShutdown env (nShutdownReads st) || _); [intros [= <-]; exact Hwf |].
    destruct entry as [diskindex | strType]; [| discriminate].
    destruct (load_record env diskindex (tick st)) as [r1 | | |] eqn:Hrec;
      try discriminate.
    apply load_record_wf in Hrec; [| exact Hwf].
    cbn [mbind Outcome_bind]. destruct r1 as [st1 | e st1].
    + apply IH. exact Hrec.
    + intros [= <-]. exact Hrec.
Qed.

End Phase1Records.

(** Phase 1, run from an empty index in a sane environment, leaves a
    well-formed index for Phase 2. *)
Lemma load_records_well_formed (env : Env) (iterator : list Entry) (st0 st1 : State) :
  env_sane env ->
  mapBlockIndex st0 = ∅ ->
  load_records env iterator st0 = Returns (Next st1) ->
  index_well_formed (tick st1).
Proof.
  intros Hsane Hempty Hload. apply index_well_formed_wf.
  apply (load_records_wf env Hsane iterator st0 (Next st1)); [| exact Hload].
  rewrite Hempty. split; [| split]; intros *; rewrite lookup_empty; discriminate.
Qed.

(** The sample environments are sane. *)
Lemma sample_Env_sane (unreadable nCheckLevel nCheckDepth first step : Z) :
  step <> 0 -> env_sane (sample_Env_with unreadable nCheckLevel nCheckDepth first step).
Proof.
  intros Hstep. split; [| reflexivity]. intros heap. simpl.
  destruct (heap !! _) as [node |] eqn:Hnode; [exfalso | reflexivity].
  apply elem_of_map_to_list in Hnode.
  apply (list_elem_of_fmap_2 fst) in Hnode. simpl in Hnode.
  revert Hnode. generalize ((map_to_list heap).*1). intros keys Hin.
  case_bool_decide as Hpos.
  - assert (Hmax : forall k, k ∈ keys -> k <= foldr Z.max (first - step) keys).
    { clear. induction keys as [| a keys IH]; intros k Hk; [inversion Hk |].
      apply elem_of_cons in Hk as [-> | Hk]; simpl; [lia |].
      specialize (IH k Hk). lia. }
    specialize (Hmax _ Hin). lia.
  - assert (Hmin : forall k, k ∈ keys -> foldr Z.min (first - step) keys <= k).
    { clear. induction keys as [| a keys IH]; intros k Hk; [inversion Hk |].
      apply elem_of_cons in Hk as [-> | Hk]; simpl; [lia |].
      specialize (IH k Hk). lia. }
    specialize (Hmin _ Hin). lia.
Qed.

(** The sample chain loaded: the tip, of height 9, carries the trust
    1 + 2 + ... + 10. *)
Example load_sample_chain_trust :
  exists st,
    LoadBlockIndex 11 (sample_Env 1 10 16 16)
      (sample_DB 10 (Some 109) (sample_txindex 1 50)) initial_State
    = Some (Returns (LoadTrue, st))
    /\ pindexBest st = Some 160
    /\ nBestHeight st = 9
    /\ nBestChainTrust st = 55
    /\ events st = [].
Proof. eexists. split; [vm_compute; reflexivity |]. repeat split. Qed.

(** * Further properties of the code *)

(** ** The batch layer *)

Lemma scan_without_put (b : WriteBatch) :
  forall s : CBatchScanner,
    Forall (fun o => forall v', o <> BPut (needle s) v') b ->
    needle (fold_left handle b s) = needle s
    /\ foundValue (fold_left handle b s) = foundValue s
    /\ (BDelete (needle s) ∈ b ->
        foundEntry (fold_left handle b s) = true /\ deleted (fold_left handle b s) = true)
    /\ (BDelete (needle s) ∉ b ->
        foundEntry (fold_left handle b s) = foundEntry s
        /\ deleted (fold_left handle b s) = deleted s).
Proof.
  induction b as [| op b IH]; intros s Hb; simpl.
  - split; [reflexivity |]. split; [reflexivity |]. split; [| auto].
    intros Hin. inversion Hin.
  - inversion Hb as [| ? ? Hop Hb']; subst.
    assert (Hkeep : handle s op = s -> BDelete (needle s) <> op ->
              needle (fold_left handle b (handle s op)) = needle s
              /\ foundValue (fold_left handle b (handle s op)) = foundValue s
              /\ (BDelete (needle s) ∈ op :: b ->
                  foundEntry (fold_left handle b (handle s op)) = true
                  /\ deleted (fold_left handle b (handle s op)) = true)
              /\ (BDelete (needle s) ∉ op :: b ->
                  foundEntry (fold_left handle b (handle s op)) = foundEntry s
                  /\ deleted (fold_left handle b (handle s op)) = deleted s)).
    { intros -> Hne. destruct (IH s Hb') as (Hn & Hv & Hd & Hnd).
      split; [exact Hn |]. split; [exact Hv |]. split.
      - intros Hin. apply Hd. apply elem_of_cons in Hin as [Hin | Hin]; [congruence | exact Hin].
      - intros Hin. apply Hnd. intros Hin'. apply Hin. right. exact Hin'. }
    destruct op as [k v | k].
    + apply Hkeep; [| discriminate]. simpl. unfold CBatchScanner_Put.
      destruct (String.eqb_spec k (needle s)) as [-> | Hk]; [| reflexivity].
      exfalso. apply (Hop v). reflexivity.
    + destruct (decide (k = needle s)) as [-> | Hk].
      * simpl. unfold CBatchScanner_Delete. rewrite String.eqb_refl.
        set (s1 := {| needle := needle s; deleted := true; foundValue := foundValue s;
                      foundEntry := true |}).
        destruct (IH s1 Hb') as (Hn & Hv & Hd & Hnd). simpl in Hn, Hv, Hd, Hnd.
        split; [exact Hn |]. split; [exact Hv |]. split.
        -- intros _. destruct (decide (BDelete (needle s) ∈ b)) as [Hin | Hin];
             [apply Hd; exact Hin | apply Hnd; exact Hin].
        -- intros Hin. exfalso. apply Hin. left.
      * apply Hkeep; [| congruence]. simpl. unfold CBatchScanner_Delete.
        destruct (String.eqb_spec k (needle s)) as [-> | _]; [congruence | reflexivity].
Qed.

(** X1. What [ScanBatch] leaves in its out-parameter [*value]: the value
    of the last [Put] on the key, also when a [Delete] on the key follows
    it (the result is then [true] with [*deleted] set, and the value is
    stale); and the caller's value, untouched, when the batch holds no
    [Put] on the key, in which case the result and [*deleted] both say
    whether the batch deletes the key. *)
Theorem ScanBatch_value_is_last_put (db : CTxDB) (key v0 : string) :
  (forall b1 v b2,
      activeBatch db = Some (b1 ++ BPut key v :: b2) ->
      Forall (fun o => forall v', o <> BPut key v') b2 ->
      exists del,
        ScanBatch db key v0 = Returns (true, v, del)
        /\ (del = true <-> BDelete key ∈ b2))
  /\ (forall batch,
         activeBatch db = Some batch ->
         Forall (fun o => forall v', o <> BPut key v') batch ->
         exists found,
           ScanBatch db key v0 = Returns (found, v0, found)
           /\ (found = true <-> BDelete key ∈ batch)).
Proof.
  split.
  - intros b1 v b2 Hbatch Hb2. unfold ScanBatch, Iterate. rewrite Hbatch.
    rewrite fold_left_app. simpl.
    set (s1 := fold_left handle b1 _).
    assert (Hn1 : needle s1 = key) by (unfold s1; rewrite needle_fold; reflexivity).
    unfold CBatchScanner_Put. rewrite Hn1, String.eqb_refl.
    set (s2 := {| needle := key; deleted := false; foundValue := v; foundEntry := true |}).
    destruct (scan_without_put b2 s2 Hb2) as (Hn & Hv & Hd & Hnd). simpl in *.
    destruct (decide (BDelete key ∈ b2)) as [Hin | Hin].
    + destruct (Hd Hin) as [Hf Hdel]. exists true. rewrite Hf, Hv, Hdel. tauto.
    + destruct (Hnd Hin) as [Hf Hdel]. exists false. rewrite Hf, Hv, Hdel.
      split; [reflexivity |]. split; [discriminate | tauto].
  - intros batch Hbatch Hb. unfold ScanBatch, Iterate. rewrite Hbatch.
    set (s0 := {| needle := key; deleted := false; foundValue := v0; foundEntry := false |}).
    destruct (scan_without_put batch s0 Hb) as (Hn & Hv & Hd & Hnd). simpl in *.
    destruct (decide (BDelete key ∈ batch)) as [Hin | Hin].
    + destruct (Hd Hin) as [Hf Hdel]. exists true. rewrite Hf, Hv, Hdel. tauto.
    + destruct (Hnd Hin) as [Hf Hdel]. exists false. rewrite Hf, Hv, Hdel.
      split; [reflexivity |]. split; [discriminate | tauto].
Qed.

Lemma ScanBatch_value_is_last_put_witness :
  (exists del,
      ScanBatch (mkTxDB true (Some ([BPut "j" "0"] ++ BPut "k" "1" :: [BDelete "k"])) false None)
        "k" "caller" = Returns (true, "1", del)
      /\ (del = true <-> BDelete "k" ∈ [BDelete "k"]))
  /\ (exists found,
         ScanBatch (mkTxDB true (Some [BPut "j" "0"]) false None) "k" "caller"
         = Returns (found, "caller", found)
         /\ (found = true <-> BDelete "k" ∈ [BPut "j" "0"])).
Proof.
  split.
  - apply (proj1 (ScanBatch_value_is_last_put
                    (mkTxDB true (Some ([BPut "j" "0"] ++ BPut "k" "1" :: [BDelete "k"]))
                       false None) "k" "caller") [BPut "j" "0"] "1" [BDelete "k"]).
    + reflexivity.
    + repeat constructor. discriminate.
  - apply (proj2 (ScanBatch_value_is_last_put
                    (mkTxDB true (Some [BPut "j" "0"]) false None) "k" "caller")
             [BPut "j" "0"]).
    + reflexivity.
    + repeat constructor. intros v' H. discriminate H.
Defined.

(** X2. Transactions are bracketed and do not leak into one another:
    a commit, whether the engine accepts the batch or not, hands the
    engine the pending log once, as appended, and leaves no batch; a
    second commit or a scan then trips the assertion; the next [TxnBegin]
    opens an empty batch, in which a scan finds no key and leaves the
    caller's value alone, and a nested [TxnBegin] trips the assertion. *)
Theorem TxnCommit_then_TxnBegin_starts_empty
    {Store : Type} (pdb_Write : WriteBatch -> Store -> Status * Store)
    (db : CTxDB) (store : Store) (batch : WriteBatch) :
  pdb db = true ->
  activeBatch db = Some batch ->
  exists db1 db2,
    TxnCommit pdb_Write db store
    = Returns (ok (pdb_Write batch store).1, db1, (pdb_Write batch store).2)
    /\ TxnCommit pdb_Write db1 (pdb_Write batch store).2 = Aborts
    /\ (forall key v0, ScanBatch db1 key v0 = Aborts)
    /\ TxnBegin db1 = Returns (true, db2)
    /\ TxnBegin db2 = Aborts
    /\ forall key v0, ScanBatch db2 key v0 = Returns (false, v0, false).
Proof.
  intros Hpdb Hbatch.
  exists (set_activeBatch None db), (set_activeBatch (Some []) (set_activeBatch None db)).
  unfold TxnCommit. rewrite Hbatch, Hpdb. simpl.
  destruct (pdb_Write batch store) as [status store']. simpl.
  repeat split; destruct status; reflexivity.
Qed.

Lemma TxnCommit_then_TxnBegin_starts_empty_witness :
  exists db1 db2,
    TxnCommit (fun (b : WriteBatch) (s : list BatchOp) => (StatusOK, s ++ b))
      (mkTxDB true (Some [BPut "k" "v"; BDelete "j"]) false None) []
    = Returns (true, db1, [BPut "k" "v"; BDelete "j"])
    /\ TxnCommit (fun (b : WriteBatch) (s : list BatchOp) => (StatusOK, s ++ b)) db1
         [BPut "k" "v"; BDelete "j"] = Aborts
    /\ (forall key v0, ScanBatch db1 key v0 = Aborts)
    /\ TxnBegin db1 = Returns (true, db2)
    /\ TxnBegin db2 = Aborts
    /\ forall key v0, ScanBatch db2 key v0 = Returns (false, v0, false).
Proof.
  apply (TxnCommit_then_TxnBegin_starts_empty
           (fun (b : WriteBatch) (s : list BatchOp) => (StatusOK, s ++ b))
           (mkTxDB true (Some [BPut "k" "v"; BDelete "j"]) false None) []
           [BPut "k" "v"; BDelete "j"]); reflexivity.
Defined.

(** ** Opening and closing the database *)

Lemma elem_of_removed_run (name : string) (nFile : Z) (k : nat) :
  name ∈ removed_run nFile k
  <-> exists j, 0 <= j < Z.of_nat k /\ name = strBlockFile ((nFile + j) mod 2 ^ 32).
Proof.
  unfold removed_run. rewrite elem_of_list_to_set, list_elem_of_fmap.
  split.
  - intros (j & -> & Hj). apply elem_of_seqZ in Hj. exists j. split; [lia | reflexivity].
  - intros (j & Hj & ->). exists j. split; [reflexivity |]. apply elem_of_seqZ. lia.
Qed.

Lemma removed_run_S (nFile : Z) (k : nat) :
  0 <= nFile < 2 ^ 32 ->
  removed_run nFile (S k) = {[strBlockFile nFile]} ∪ removed_run ((nFile + 1) mod 2 ^ 32) k.
Proof.
  intros Hn. apply set_eq. intros name.
  rewrite elem_of_union, elem_of_singleton, !elem_of_removed_run. split.
  - intros (j & Hj & ->). destruct (decide (j = 0)) as [-> | Hj0].
    + left. rewrite Z.add_0_r, Z.mod_small by lia. reflexivity.
    + right. exists (j - 1). split; [lia |].
      rewrite Zplus_mod_idemp_l. f_equal. f_equal. lia.
  - intros [-> | (j & Hj & ->)].
    + exists 0. split; [lia |]. rewrite Z.add_0_r, Z.mod_small by lia. reflexivity.
    + exists (j + 1). split; [lia |].
      rewrite Zplus_mod_idemp_l. f_equal. f_equal. lia.
Qed.

(** The removal loop, whatever the directory holds: it ends within as
    many iterations as there are files, plus one. *)
Lemma remove_block_files_spec (fuel : nat) :
  forall (nFile : Z) (files : gset string),
    0 <= nFile < 2 ^ 32 -> (size files < fuel)%nat ->
    exists k : nat,
      (k <= size files)%nat
      /\ remove_block_files fuel nFile files = Some (files ∖ removed_run nFile k)
      /\ removed_run nFile k ⊆ files
      /\ strBlockFile ((nFile + Z.of_nat k) mod 2 ^ 32) ∉ files ∖ removed_run nFile k.
Proof.
  induction fuel as [| fuel IH]; intros nFile files Hn Hsize; [lia |].
  simpl. case_bool_decide as Hin; simpl.
  - assert (Hsub : ({[strBlockFile nFile]} : gset string) ⊆ files).
    { intros x Hx. apply elem_of_singleton in Hx as ->. exact Hin. }
    assert (Hsz : size (files ∖ {[strBlockFile nFile]}) = (size files - 1)%nat).
    { rewrite (size_difference _ _ Hsub), size_singleton. reflexivity. }
    assert (Hnz : size files ≠ 0%nat).
    { intros Hz. apply size_empty_inv in Hz. rewrite (leibniz_equiv _ _ Hz) in Hin.
      apply not_elem_of_empty in Hin. exact Hin. }
    destruct (IH ((nFile + 1) mod 2 ^ 32) (files ∖ {[strBlockFile nFile]}))
      as (k & Hk & Hrun & Hsubk & Hout).
    { apply Z.mod_pos_bound. lia. }
    { lia. }
    exists (S k). rewrite removed_run_S by exact Hn.
    rewrite <- difference_difference_l_L.
    replace ((nFile + Z.of_nat (S k)) mod 2 ^ 32)
      with (((nFile + 1) mod 2 ^ 32 + Z.of_nat k) mod 2 ^ 32).
    2:{ rewrite Zplus_mod_idemp_l. f_equal. lia. }
    split; [lia |]. split; [exact Hrun |]. split; [| exact Hout].
    intros x Hx. apply elem_of_union in Hx as [Hx | Hx].
    + apply Hsub. exact Hx.
    + apply Hsubk in Hx. apply elem_of_difference in Hx as [Hx _]. exact Hx.
  - exists O. assert (Hrun0 : removed_run nFile 0 = ∅) by reflexivity.
    rewrite Hrun0, difference_empty_L.
    rewrite Z.add_0_r, Z.mod_small by lia.
    split; [lia |]. split; [reflexivity |]. split; [| exact Hin].
    intros x Hx. apply not_elem_of_empty in Hx. destruct Hx.
Qed.

Lemma CTxDB_ctor_cases (LogPrintf_line_110 : Outcome unit) (DATABASE_VERSION : Z)
    (pszMode : string) (w : World) :
  CTxDB_ctor LogPrintf_line_110 DATABASE_VERSION pszMode w
  = let self v :=
      {| pdb := true; activeBatch := None;
         fReadOnly := negb (strchr pszMode "+"%char) && negb (strchr pszMode "w"%char);
         nVersion := v |} in
    if txdb w then Returns (self None, w) else
    match (match txleveldb w with None => None | Some d => d end) with
    | None =>
        if strchr pszMode "c"%char
        then Returns (self None,
                      {| txleveldb := Some (Some (set_db_version DATABASE_VERSION empty_DB));
                         datadir := datadir w; txdb := true |})
        else Throws "init_blockindex : error opening database environment"
    | Some db =>
        match db_version db with
        | None =>
            Returns (self None,
                     {| txleveldb :=
                          Some (Some (if strchr pszMode "c"%char
                                      then set_db_version DATABASE_VERSION db else db));
                        datadir := datadir w; txdb := true |})
        | Some v =>
            if bool_decide (v < DATABASE_VERSION) then
              LogPrintf_line_110 ≫= fun _ : unit =>
              if strchr pszMode "c"%char
              then Returns (self (Some v),
                            {| txleveldb :=
                                 Some (Some (set_db_version DATABASE_VERSION empty_DB));
                               datadir :=
                                 default (datadir w)
                                   (remove_block_files (S (size (datadir w))) 1 (datadir w));
                               txdb := true |})
              else Throws "init_blockindex : error opening database environment"
            else Returns (self (Some v),
                          {| txleveldb := Some (Some db); datadir := datadir w;
                             txdb := true |})
        end
    end.
Proof.
  unfold CTxDB_ctor. cbv zeta.
  destruct (txdb w) eqn:Htxdb; [reflexivity |].
  destruct (txleveldb w) as [[db |] |] eqn:Hdir.
  - rewrite (init_blockindex_existing _ w db Hdir). cbn -[init_blockindex].
    destruct (db_version db) as [v |] eqn:Hver; cbn -[init_blockindex].
    + case_bool_decide.
      * destruct LogPrintf_line_110 as [[] | what | |]; try reflexivity.
        cbn -[init_blockindex]. rewrite init_blockindex_remove_old.
        destruct (strchr pszMode "c"); [| reflexivity].
        cbn -[remove_block_files]. reflexivity.
      * reflexivity.
    + destruct (strchr pszMode "c"); reflexivity.
  - unfold init_blockindex. rewrite Hdir. simpl.
    destruct (strchr pszMode "c"); reflexivity.
  - unfold init_blockindex. rewrite Hdir. simpl.
    destruct (strchr pszMode "c"); reflexivity.
Qed.

(** C8: what the constructor does on the first open of the process when
    the stored schema version is less than [DATABASE_VERSION]. It first
    makes the log call of line 110, whose format has two conversions for
    one argument, and goes on only if that call returns; otherwise
    nothing is removed, whatever the mode. It then removes the
    [txleveldb] directory and the block files [blk0001.dat],
    [blk0002.dat], ... up to the first missing one, and opens the
    database again with [create_if_missing] set by the mode: with a [c]
    in the mode string a fresh database is created in which only the
    current version is written, and a load over it into an empty index
    returns [true] with the index still empty; without a [c] the open
    fails and the constructor throws, no database being created and no
    version written, against the comment of line 117 (remove directory
    and create new database). *)
Theorem ctor_outdated_version_outcome
    (LogPrintf_line_110 : Outcome unit) (DATABASE_VERSION : Z) (pszMode : string)
    (w : World) (db : DB) (nVersion : Z) :
  txdb w = false ->
  txleveldb w = Some (Some db) ->
  db_version db = Some nVersion ->
  nVersion < DATABASE_VERSION ->
  match LogPrintf_line_110 with
  | Returns _ =>
      if strchr pszMode "c" then
        exists (self : CTxDB) (k : nat),
          CTxDB_ctor LogPrintf_line_110 DATABASE_VERSION pszMode w
          = Returns (self,
                     {| txleveldb := Some (Some (set_db_version DATABASE_VERSION empty_DB));
                        datadir := datadir w ∖ removed_run 1 k;
                        txdb := true |})
          /\ removed_run 1 k ⊆ datadir w
          /\ (strBlockFile ((1 + Z.of_nat k) mod 2 ^ 32) ∉ datadir w ∖ removed_run 1 k)
          /\ pdb self = true
          /\ activeBatch self = None
          /\ forall fuel env st,
               mapBlockIndex st = ∅ ->
               exists n,
                 LoadBlockIndex fuel env (set_db_version DATABASE_VERSION empty_DB) st
                 = Some (Returns (LoadTrue, Nat.iter n tick st))
      else
        CTxDB_ctor LogPrintf_line_110 DATABASE_VERSION pszMode w
        = Throws "init_blockindex : error opening database environment"
  | Throws what =>
      CTxDB_ctor LogPrintf_line_110 DATABASE_VERSION pszMode w = Throws what
  | Aborts => CTxDB_ctor LogPrintf_line_110 DATABASE_VERSION pszMode w = Aborts
  | Undefined => CTxDB_ctor LogPrintf_line_110 DATABASE_VERSION pszMode w = Undefined
  end.
Proof.
  intros Hclosed Hdir Hver Hold.
  rewrite CTxDB_ctor_cases. cbv zeta. rewrite Hclosed, Hdir, Hver.
  rewrite bool_decide_eq_true_2 by exact Hold.
  destruct LogPrintf_line_110 as [[] | what | |]; cbn [mbind Outcome_bind];
    try reflexivity.
  destruct (strchr pszMode "c"); [| reflexivity].
  destruct (remove_block_files_spec (S (size (datadir w))) 1 (datadir w))
    as (k & _ & Hrun & Hsub & Hnext); [lia | lia |].
  rewrite Hrun. cbn [default].
  eexists _, k. split; [reflexivity |].
  split; [exact Hsub |]. split; [exact Hnext |].
  split; [reflexivity |]. split; [reflexivity |].
  intros fuel env st Hst. apply LoadBlockIndex_no_records; [exact Hst | reflexivity ..].
Qed.

Lemma ctor_outdated_version_outcome_witness :
  CTxDB_ctor (Returns tt) 2 "r+" sample_old_world
  = Throws "init_blockindex : error opening database environment"
  /\ CTxDB_ctor (Throws "tinyformat: Too many conversion specifiers in format string") 2 "cr+" sample_old_world
     = Throws "tinyformat: Too many conversion specifiers in format string"
  /\ CTxDB_ctor Undefined 2 "cr+" sample_old_world = Undefined
  /\ exists (self : CTxDB) (k : nat),
       CTxDB_ctor (Returns tt) 2 "cr+" sample_old_world
       = Returns (self,
                  {| txleveldb := Some (Some (set_db_version 2 empty_DB));
                     datadir := datadir sample_old_world ∖ removed_run 1 k;
                     txdb := true |})
       /\ removed_run 1 k ⊆ datadir sample_old_world
       /\ (strBlockFile ((1 + Z.of_nat k) mod 2 ^ 32)
            ∉ datadir sample_old_world ∖ removed_run 1 k)
       /\ pdb self = true
       /\ activeBatch self = None
       /\ forall fuel env st,
            mapBlockIndex st = ∅ ->
            exists n,
              LoadBlockIndex fuel env (set_db_version 2 empty_DB) st
              = Some (Returns (LoadTrue, Nat.iter n tick st)).
Proof.
  split; [| split; [| split]].
  - exact (ctor_outdated_version_outcome (Returns tt) 2 "r+" sample_old_world
             (set_db_version 1 empty_DB) 1 eq_refl eq_refl eq_refl ltac:(lia)).
  - exact (ctor_outdated_version_outcome
             (Throws "tinyformat: Too many conversion specifiers in format string") 2 "cr+" sample_old_world
             (set_db_version 1 empty_DB) 1 eq_refl eq_refl eq_refl ltac:(lia)).
  - exact (ctor_outdated_version_outcome Undefined 2 "cr+" sample_old_world
             (set_db_version 1 empty_DB) 1 eq_refl eq_refl eq_refl ltac:(lia)).
  - exact (ctor_outdated_version_outcome (Returns tt) 2 "cr+" sample_old_world
             (set_db_version 1 empty_DB) 1 eq_refl eq_refl eq_refl ltac:(lia)).
Defined.

(** X3. The removal loop of [init_blockindex], whatever the data
    directory holds: it ends within one iteration more than there are
    files; it removes the files of the consecutive numbers from 1 on
    (counted as an [unsigned int]) that it finds, up to the first number
    whose file is missing; and a file whose name is not that of a block
    file is never removed. *)
Theorem remove_block_files_removes_a_run (files : gset string) :
  exists k : nat,
    (k <= size files)%nat
    /\ remove_block_files (S (size files)) 1 files = Some (files ∖ removed_run 1 k)
    /\ removed_run 1 k ⊆ files
    /\ (strBlockFile ((1 + Z.of_nat k) mod 2 ^ 32) ∉ files ∖ removed_run 1 k)
    /\ forall name,
         name ∈ files -> (forall i, name <> strBlockFile i) ->
         name ∈ files ∖ removed_run 1 k.
Proof.
  destruct (remove_block_files_spec (S (size files)) 1 files) as (k & Hk & Hrun & Hsub & Hout);
    [lia | lia |].
  exists k. repeat (split; [assumption |]).
  intros name Hin Hname. apply elem_of_difference. split; [exact Hin |].
  intros Hrem. apply elem_of_removed_run in Hrem as (j & _ & ->). apply (Hname _ eq_refl).
Qed.

Lemma length_zeros (k : nat) : String.length (zeros k) = k.
Proof. induction k as [| k IH]; simpl; [reflexivity | rewrite IH; reflexivity]. Qed.

(** X4. The name [strprintf("blk%04u.dat", nFile)] of a block file: its
    number part has four characters at least and reads back as the
    number, and two different numbers give two different names (also
    past 9999, where the name no longer has four digits). *)
Theorem strBlockFile_distinct (a b : Z) :
  0 <= a -> 0 <= b -> a <> b ->
  strBlockFile a <> strBlockFile b
  /\ number_of (fmt_04u a) = Some (Z.to_N a)
  /\ (4 <= String.length (fmt_04u a))%nat.
Proof.
  intros Ha Hb Hab. split; [| split].
  - intros Heq. apply Hab. apply strBlockFile_inj; assumption.
  - apply number_of_fmt_04u.
  - unfold fmt_04u. rewrite length_append, length_zeros. lia.
Qed.

Lemma strBlockFile_distinct_witness :
  strBlockFile 1 <> strBlockFile 10001
  /\ number_of (fmt_04u 1) = Some (Z.to_N 1)
  /\ (4 <= String.length (fmt_04u 1))%nat.
Proof. apply (strBlockFile_distinct 1 10001); lia. Defined.

(** X5. What a constructor that returns has established: the object
    holds the engine handle and no batch, and [fReadOnly] is what the
    mode string says (also after the constructor lifted it to write the
    version); the global handle is set. With the handle already open the
    environment is not touched at all. Otherwise a database is open whose
    version key, if it has one, is at least [DATABASE_VERSION], and it
    has one when the mode has a [c]. *)
Theorem CTxDB_ctor_postcondition
    (LogPrintf_line_110 : Outcome unit) (DATABASE_VERSION : Z) (pszMode : string)
    (w : World) (self : CTxDB) (w' : World) :
  CTxDB_ctor LogPrintf_line_110 DATABASE_VERSION pszMode w = Returns (self, w') ->
  pdb self = true
  /\ activeBatch self = None
  /\ fReadOnly self = negb (strchr pszMode "+"%char) && negb (strchr pszMode "w"%char)
  /\ txdb w' = true
  /\ (txdb w = true -> w' = w)
  /\ (txdb w = false ->
      exists db',
        txleveldb w' = Some (Some db')
        /\ (forall v, db_version db' = Some v -> DATABASE_VERSION <= v)
        /\ (strchr pszMode "c"%char = true -> is_Some (db_version db'))).
Proof.
  rewrite CTxDB_ctor_cases. cbv zeta.
  destruct (txdb w) eqn:Htxdb.
  { intros [= <- <-]. repeat split; auto. discriminate. }
  destruct (txleveldb w) as [[db |] |] eqn:Hdir.
  - destruct (db_version db) as [v |] eqn:Hver.
    + case_bool_decide as Hold.
      * destruct LogPrintf_line_110 as [[] | what | |]; cbn [mbind Outcome_bind];
          try discriminate.
        destruct (strchr pszMode "c") eqn:Hc; [| discriminate].
        intros [= <- <-]. repeat split; auto; [discriminate |].
        intros _. eexists. split; [reflexivity |]. simpl. split; [| eauto].
        intros v' [= <-]. lia.
      * intros [= <- <-]. repeat split; auto; [discriminate |].
        intros _. exists db. rewrite Hver. split; [reflexivity |]. split; [| eauto].
        intros v' [= <-]. lia.
    + intros [= <- <-]. repeat split; auto; [discriminate |].
      intros _. eexists. split; [reflexivity |].
      destruct (strchr pszMode "c") eqn:Hc; simpl.
      * split; [| eauto]. intros v' [= <-]. lia.
      * rewrite Hver. split; [discriminate | discriminate].
  - destruct (strchr pszMode "c") eqn:Hc; [| discriminate].
    intros [= <- <-]. repeat split; auto; [discriminate |].
    intros _. eexists. split; [reflexivity |]. simpl. split; [| eauto].
    intros v' [= <-]. lia.
  - destruct (strchr pszMode "c") eqn:Hc; [| discriminate].
    intros [= <- <-]. repeat split; auto; [discriminate |].
    intros _. eexists. split; [reflexivity |]. simpl. split; [| eauto].
    intros v' [= <-]. lia.
Qed.

Lemma CTxDB_ctor_postcondition_witness :
  let self := mkTxDB true None true (Some 1) in
  let w' := {| txleveldb := Some (Some (set_db_version 2 empty_DB));
               datadir := {[ "blk0004.dat"; "wallet.dat" ]};
               txdb := true |} in
  pdb self = true
  /\ activeBatch self = None
  /\ fReadOnly self = negb (strchr "cr" "+"%char) && negb (strchr "cr" "w"%char)
  /\ txdb w' = true
  /\ (txdb sample_old_world = true -> w' = sample_old_world)
  /\ (txdb sample_old_world = false ->
      exists db',
        txleveldb w' = Some (Some db')
        /\ (forall v, db_version db' = Some v -> 2 <= v)
        /\ (strchr "cr" "c"%char = true -> is_Some (db_version db'))).
Proof.
  apply (CTxDB_ctor_postcondition (Returns tt) 2 "cr" sample_old_world). vm_compute. reflexivity.
Defined.

(** X6. The constructor wipes nothing but an outdated database: the
    files it leaves are among those it found, a file it deletes has the
    name of a block file, and it deletes any only when it was not given
    an open handle, the mode has a [c] and the stored version is below
    [DATABASE_VERSION]. A database whose version is not outdated keeps
    its records. *)
Theorem CTxDB_ctor_wipes_only_outdated
    (LogPrintf_line_110 : Outcome unit) (DATABASE_VERSION : Z) (pszMode : string)
    (w : World) (self : CTxDB) (w' : World) :
  CTxDB_ctor LogPrintf_line_110 DATABASE_VERSION pszMode w = Returns (self, w') ->
  datadir w' ⊆ datadir w
  /\ (forall name, name ∈ datadir w -> name ∉ datadir w' -> exists i, name = strBlockFile i)
  /\ (datadir w' <> datadir w ->
      txdb w = false /\ strchr pszMode "c"%char = true
      /\ exists db v, txleveldb w = Some (Some db) /\ db_version db = Some v
                      /\ v < DATABASE_VERSION)
  /\ (forall db,
         txleveldb w = Some (Some db) ->
         (forall v, db_version db = Some v -> DATABASE_VERSION <= v) ->
         exists db',
           txleveldb w' = Some (Some db')
           /\ db_tx db' = db_tx db
           /\ db_blockindex db' = db_blockindex db
           /\ db_hashBestChain db' = db_hashBestChain db
           /\ db_bnBestInvalidTrust db' = db_bnBestInvalidTrust db
           /\ db_hashSyncCheckpoint db' = db_hashSyncCheckpoint db
           /\ db_strCheckpointPubKey db' = db_strCheckpointPubKey db).
Proof.
  rewrite CTxDB_ctor_cases. cbv zeta.
  assert (Hsame : forall d : gset string,
             d ⊆ d /\ (forall name, name ∈ d -> name ∉ d -> exists i, name = strBlockFile i)).
  { intros d. split; [reflexivity |]. intros name Hin Hout. destruct (Hout Hin). }
  destruct (txdb w) eqn:Htxdb.
  { intros [= <- <-]. destruct (Hsame (datadir w)) as [H1 H2].
    split; [exact H1 |]. split; [exact H2 |]. split; [congruence |].
    intros db Hdb _. exists db. repeat split; auto. }
  destruct (txleveldb w) as [[db |] |] eqn:Hdir.
  - destruct (db_version db) as [v |] eqn:Hver.
    + case_bool_decide as Hold.
      * destruct LogPrintf_line_110 as [[] | what | |]; cbn [mbind Outcome_bind];
          try discriminate.
        destruct (strchr pszMode "c") eqn:Hc; [| discriminate].
        destruct (remove_block_files_spec (S (size (datadir w))) 1 (datadir w))
          as (k & Hk & Hrun & Hsub & Hout); [lia | lia |].
        rewrite Hrun. intros [= <- <-]. simpl.
        split; [| split; [| split]].
        -- intros x Hx. apply elem_of_difference in Hx as [Hx _]. exact Hx.
        -- intros name Hin Hgone.
           destruct (decide (name ∈ removed_run 1 k)) as [Hrem | Hrem].
           ++ apply elem_of_removed_run in Hrem as (j & _ & ->). eauto.
           ++ exfalso. apply Hgone. apply elem_of_difference. split; assumption.
        -- intros _. split; [reflexivity |]. split; [reflexivity |]. eauto.
        -- intros db0 [= <-] Hcur. specialize (Hcur v Hver). lia.
      * intros [= <- <-]. simpl. destruct (Hsame (datadir w)) as [H1 H2].
        split; [exact H1 |]. split; [exact H2 |]. split; [congruence |].
        intros db0 [= <-] _. exists db. repeat split; auto.
    + intros [= <- <-]. simpl. destruct (Hsame (datadir w)) as [H1 H2].
      split; [exact H1 |]. split; [exact H2 |]. split; [congruence |].
      intros db0 [= <-] _. eexists. split; [reflexivity |].
      destruct (strchr pszMode "c"); repeat split; auto.
  - destruct (strchr pszMode "c") eqn:Hc; [| discriminate].
    intros [= <- <-]. simpl. destruct (Hsame (datadir w)) as [H1 H2].
    split; [exact H1 |]. split; [exact H2 |]. split; [congruence |].
    intros db0 [=].
  - destruct (strchr pszMode "c") eqn:Hc; [| discriminate].
    intros [= <- <-]. simpl. destruct (Hsame (datadir w)) as [H1 H2].
    split; [exact H1 |]. split; [exact H2 |]. split; [congruence |].
    intros db0 [=].
Qed.

Lemma CTxDB_ctor_wipes_only_outdated_witness :
  let w := sample_old_world in
  let w' := {| txleveldb := Some (Some (set_db_version 2 empty_DB));
               datadir := {[ "blk0004.dat"; "wallet.dat" ]};
               txdb := true |} in
  datadir w' ⊆ datadir w
  /\ (forall name, name ∈ datadir w -> name ∉ datadir w' -> exists i, name = strBlockFile i)
  /\ (datadir w' <> datadir w ->
      txdb w = false /\ strchr "cr" "c"%char = true
      /\ exists db v, txleveldb w = Some (Some db) /\ db_version db = Some v /\ v < 2)
  /\ (forall db,
         txleveldb w = Some (Some db) ->
         (forall v, db_version db = Some v -> 2 <= v) ->
         exists db',
           txleveldb w' = Some (Some db')
           /\ db_tx db' = db_tx db
           /\ db_blockindex db' = db_blockindex db
           /\ db_hashBestChain db' = db_hashBestChain db
           /\ db_bnBestInvalidTrust db' = db_bnBestInvalidTrust db
           /\ db_hashSyncCheckpoint db' = db_hashSyncCheckpoint db
           /\ db_strCheckpointPubKey db' = db_strCheckpointPubKey db).
Proof.
  apply (CTxDB_ctor_wipes_only_outdated (Returns tt) 2 "cr" sample_old_world (mkTxDB true None true (Some 1))).
  vm_compute. reflexivity.
Defined.

(** X7. Opening where there is no database yet (no [txleveldb]
    directory, or an empty one): with a [c] in the mode the constructor
    creates one that holds the current version and nothing else, and
    leaves the data directory alone; without, it throws. *)
Theorem CTxDB_ctor_missing_database
    (LogPrintf_line_110 : Outcome unit) (DATABASE_VERSION : Z) (pszMode : string)
    (w : World) :
  txdb w = false ->
  txleveldb w = None \/ txleveldb w = Some None ->
  (strchr pszMode "c"%char = true ->
   exists self,
     CTxDB_ctor LogPrintf_line_110 DATABASE_VERSION pszMode w
     = Returns (self, {| txleveldb := Some (Some (set_db_version DATABASE_VERSION empty_DB));
                         datadir := datadir w; txdb := true |})
     /\ pdb self = true)
  /\ (strchr pszMode "c"%char = false ->
      CTxDB_ctor LogPrintf_line_110 DATABASE_VERSION pszMode w
      = Throws "init_blockindex : error opening database environment").
Proof.
  intros Htxdb Hdir. rewrite CTxDB_ctor_cases. cbv zeta. rewrite Htxdb.
  split; intros Hc; rewrite Hc; destruct Hdir as [-> | ->]; eauto.
Qed.

Lemma CTxDB_ctor_missing_database_witness :
  (exists self,
      CTxDB_ctor (Returns tt) 2 "cr+" {| txleveldb := None; datadir := {[ "wallet.dat" ]}; txdb := false |}
      = Returns (self, {| txleveldb := Some (Some (set_db_version 2 empty_DB));
                          datadir := {[ "wallet.dat" ]}; txdb := true |})
      /\ pdb self = true)
  /\ CTxDB_ctor (Returns tt) 2 "r" {| txleveldb := Some None; datadir := ∅; txdb := false |}
     = Throws "init_blockindex : error opening database environment".
Proof.
  split.
  - exact (proj1 (CTxDB_ctor_missing_database (Returns tt) 2 "cr+"
                    {| txleveldb := None; datadir := {[ "wallet.dat" ]}; txdb := false |}
                    eq_refl (or_introl eq_refl)) eq_refl).
  - exact (proj2 (CTxDB_ctor_missing_database (Returns tt) 2 "r"
                    {| txleveldb := Some None; datadir := ∅; txdb := false |}
                    eq_refl (or_intror eq_refl)) eq_refl).
Defined.

Lemma elem_of_in_key_order (m : gmap Z Z) (hash p : Z) :
  (hash, p) ∈ in_key_order m <-> m !! hash = Some p.
Proof. rewrite in_key_order_Permutation. apply elem_of_map_to_list. Qed.

Lemma in_key_order_NoDup_addresses (st : State) :
  NoDup (in_key_order (mapBlockIndex st)).*2 <-> addresses_distinct st.
Proof. unfold addresses_distinct. rewrite in_key_order_Permutation. reflexivity. Qed.

Lemma in_key_order_live (st : State) :
  (forall x, x ∈ in_key_order (mapBlockIndex st) -> is_Some (heap st !! x.2))
  <-> nodes_allocated st.
Proof.
  unfold nodes_allocated. rewrite map_Forall_lookup. split.
  - intros H hash p Hp. apply (H (hash, p)). apply elem_of_in_key_order. exact Hp.
  - intros H [hash p] Hx. apply elem_of_in_key_order in Hx. exact (H hash p Hx).
Qed.

Lemma delete_nodes_Returns (items : list (Z * Z)) :
  forall h : gmap Z CBlockIndex,
    NoDup items.*2 ->
    (forall x, x ∈ items -> is_Some (h !! x.2)) ->
    exists h',
      delete_nodes items h = Returns h'
      /\ forall p, h' !! p = if bool_decide (p ∈ items.*2) then None else h !! p.
Proof.
  induction items as [| [hash p0] items IH]; intros h Hnodup Hlive.
  - exists h. split; [reflexivity |]. intros p.
    rewrite bool_decide_eq_false_2 by apply not_elem_of_nil. reflexivity.
  - simpl in Hnodup. apply NoDup_cons in Hnodup as [Hfresh Hnodup].
    destruct (Hlive (hash, p0)) as [node Hnode]; [left |]. cbn [snd] in Hnode.
    cbn [delete_nodes]. rewrite Hnode.
    destruct (IH (delete p0 h) Hnodup) as (h' & Hrun & Hh').
    { intros x Hx. rewrite lookup_delete_ne.
      - apply Hlive. right. exact Hx.
      - intros ->. apply Hfresh. apply list_elem_of_fmap. exists x. split; [reflexivity | exact Hx]. }
    exists h'. split; [exact Hrun |]. intros p. rewrite Hh', fmap_cons. cbn [snd].
    destruct (decide (p = p0)) as [-> | Hp].
    + rewrite (bool_decide_eq_true_2 (p0 ∈ p0 :: items.*2)) by left.
      rewrite lookup_delete_eq. destruct (bool_decide _); reflexivity.
    + rewrite lookup_delete_ne by congruence.
      destruct (decide (p ∈ items.*2)) as [Hin | Hin].
      * rewrite !bool_decide_eq_true_2; [reflexivity | right; exact Hin | exact Hin].
      * rewrite !bool_decide_eq_false_2; [reflexivity | | exact Hin].
        intros Hc. apply elem_of_cons in Hc as [Hc | Hc]; [congruence | exact (Hin Hc)].
Qed.

Lemma delete_nodes_inv (items : list (Z * Z)) :
  forall h : gmap Z CBlockIndex,
    match delete_nodes items h with
    | Returns _ => NoDup items.*2 /\ forall x, x ∈ items -> is_Some (h !! x.2)
    | Undefined => ~ (NoDup items.*2 /\ forall x, x ∈ items -> is_Some (h !! x.2))
    | _ => False
    end.
Proof.
  induction items as [| [hash p0] items IH]; intros h; simpl.
  - split; [constructor |]. intros x Hx. inversion Hx.
  - destruct (h !! p0) as [node |] eqn:Hnode.
    + specialize (IH (delete p0 h)).
      destruct (delete_nodes items (delete p0 h)) as [h' | | |]; try exact IH.
      * destruct IH as [Hnodup Hlive]. split.
        -- apply NoDup_cons. split; [| exact Hnodup].
           intros Hin. apply list_elem_of_fmap in Hin as (x & -> & Hx).
           destruct (Hlive x Hx) as [n Hn]. rewrite lookup_delete_eq in Hn. discriminate.
        -- intros x Hx. apply elem_of_cons in Hx as [-> | Hx]; [simpl; eauto |].
           destruct (Hlive x Hx) as [n Hn]. apply lookup_delete_Some in Hn as [_ Hn]. eauto.
      * intros [Hnodup Hlive]. apply IH. apply NoDup_cons in Hnodup as [Hfresh Hnodup].
        split; [exact Hnodup |]. intros x Hx. rewrite lookup_delete_ne.
        -- apply Hlive. right. exact Hx.
        -- intros ->. apply Hfresh. apply list_elem_of_fmap. exists x.
           split; [reflexivity | exact Hx].
    + intros [_ Hlive]. destruct (Hlive (hash, p0)) as [n Hn]; [left |].
      simpl in Hn. congruence.
Qed.

Lemma Close_Returns_inv (self : CTxDB) (w : World) (st : State)
    (self' : CTxDB) (w' : World) (st' : State) :
  Close self w st = Returns (self', w', st') ->
  exists heap',
    delete_nodes (in_key_order (mapBlockIndex st)) (heap st) = Returns heap'
    /\ self' = set_activeBatch None (set_pdb false self)
    /\ w' = {| txleveldb := txleveldb w; datadir := datadir w; txdb := false |}
    /\ st' = set_heap heap' st.
Proof.
  unfold Close. destruct (delete_nodes _ _) as [heap' | | |]; simpl; try discriminate.
  intros [= <- <- <-]. eauto.
Qed.

(** X8. What [Close] leaves behind: every node of the index is freed
    while [mapBlockIndex] keeps all its entries, which then dangle; nodes
    that the index does not hold are not touched; the handle and the
    batch of the object are gone, a pending batch without having been
    written; the database and the data directory are as they were. A
    [LoadBlockIndex] after that, the index not being empty, returns
    [true] at once and reloads nothing. *)
Theorem Close_frees_every_indexed_node
    (self : CTxDB) (w : World) (st : State) (self' : CTxDB) (w' : World) (st' : State) :
  Close self w st = Returns (self', w', st') ->
  mapBlockIndex st' = mapBlockIndex st
  /\ (forall hash p, mapBlockIndex st !! hash = Some p ->
                     is_Some (heap st !! p) /\ heap st' !! p = None)
  /\ (forall p, (forall hash, mapBlockIndex st !! hash <> Some p) ->
                heap st' !! p = heap st !! p)
  /\ pdb self' = false /\ activeBatch self' = None
  /\ txdb w' = false /\ txleveldb w' = txleveldb w /\ datadir w' = datadir w
  /\ (mapBlockIndex st <> ∅ ->
      forall fuel env db, LoadBlockIndex fuel env db st' = Some (Returns (LoadTrue, st'))).
Proof.
  intros Hclose. apply Close_Returns_inv in Hclose as (heap' & Hrun & -> & -> & ->).
  pose proof (delete_nodes_inv (in_key_order (mapBlockIndex st)) (heap st)) as Hinv.
  rewrite Hrun in Hinv. destruct Hinv as [Hnodup Hlive].
  destruct (delete_nodes_Returns _ _ Hnodup Hlive) as (h' & Hrun' & Hh').
  rewrite Hrun in Hrun'. injection Hrun' as <-.
  split; [reflexivity |]. split; [| split].
  - intros hash p Hp. split.
    + apply (Hlive (hash, p)). apply elem_of_in_key_order. exact Hp.
    + simpl. rewrite Hh'. rewrite bool_decide_eq_true_2; [reflexivity |].
      apply list_elem_of_fmap. exists (hash, p). split; [reflexivity |].
      apply elem_of_in_key_order. exact Hp.
  - intros p Hp. simpl. rewrite Hh'. rewrite bool_decide_eq_false_2; [reflexivity |].
    intros Hin. apply list_elem_of_fmap in Hin as ([hash q] & -> & Hx).
    apply elem_of_in_key_order in Hx. exact (Hp hash Hx).
  - repeat (split; [reflexivity |]).
    intros Hne fuel env db. unfold LoadBlockIndex. simpl.
    rewrite bool_decide_eq_true_2; [reflexivity |].
    apply map_size_non_empty_iff in Hne. lia.
Qed.

Lemma Close_frees_every_indexed_node_witness :
  let st := loaded (sample_Env 1 500 16 16) sample_fork_DB in
  let self' := mkTxDB false None false (Some 2) in
  let w' := {| txleveldb := Some (Some sample_fork_DB); datadir := ∅; txdb := false |} in
  let st' := set_heap ∅ st in
  mapBlockIndex st' = mapBlockIndex st
  /\ (forall hash p, mapBlockIndex st !! hash = Some p ->
                     is_Some (heap st !! p) /\ heap st' !! p = None)
  /\ (forall p, (forall hash, mapBlockIndex st !! hash <> Some p) ->
                heap st' !! p = heap st !! p)
  /\ pdb self' = false /\ activeBatch self' = None
  /\ txdb w' = false /\ txleveldb w' = Some (Some sample_fork_DB) /\ datadir w' = ∅
  /\ (mapBlockIndex st <> ∅ ->
      forall fuel env db, LoadBlockIndex fuel env db st' = Some (Returns (LoadTrue, st'))).
Proof.
  apply (Close_frees_every_indexed_node
           (mkTxDB true (Some [BPut "k" "v"]) false (Some 2))
           {| txleveldb := Some (Some sample_fork_DB); datadir := ∅; txdb := true |}
           (loaded (sample_Env 1 500 16 16) sample_fork_DB)).
  vm_compute. reflexivity.
Defined.

(** X9. [Close] is defined exactly when every entry of [mapBlockIndex]
    points to a live node of its own: an entry whose node is gone, or two
    entries that share a node, make it free a node twice. In particular
    a second [Close] is undefined when the index is not empty, since the
    first one leaves the entries in place. *)
Theorem Close_defined_iff (self : CTxDB) (w : World) (st : State) :
  (nodes_allocated st /\ addresses_distinct st -> exists r, Close self w st = Returns r)
  /\ (~ (nodes_allocated st /\ addresses_distinct st) -> Close self w st = Undefined)
  /\ (forall self' w' st',
         Close self w st = Returns (self', w', st') ->
         mapBlockIndex st <> ∅ ->
         Close self' w' st' = Undefined).
Proof.
  assert (Hiff : (NoDup (in_key_order (mapBlockIndex st)).*2
                  /\ forall x, x ∈ in_key_order (mapBlockIndex st) -> is_Some (heap st !! x.2))
                 <-> nodes_allocated st /\ addresses_distinct st).
  { rewrite in_key_order_NoDup_addresses, in_key_order_live. tauto. }
  pose proof (delete_nodes_inv (in_key_order (mapBlockIndex st)) (heap st)) as Hinv.
  split; [| split].
  - intros Hwf. unfold Close.
    destruct (delete_nodes _ _) as [heap' | | |]; simpl; eauto; try contradiction.
    exfalso. apply Hinv. apply Hiff. exact Hwf.
  - intros Hnwf. unfold Close.
    destruct (delete_nodes _ _) as [heap' | | |]; simpl; try reflexivity; try contradiction.
    exfalso. apply Hnwf. apply Hiff. exact Hinv.
  - intros self' w' st' Hclose Hne.
    assert (Hfreed : forall hash p, mapBlockIndex st !! hash = Some p -> heap st' !! p = None).
    { apply Close_Returns_inv in Hclose as (heap' & Hrun & -> & -> & ->).
      rewrite Hrun in Hinv. destruct Hinv as [Hnodup Hlive].
      destruct (delete_nodes_Returns _ _ Hnodup Hlive) as (h' & Hrun' & Hh').
      rewrite Hrun in Hrun'. injection Hrun' as <-.
      intros hash p Hp. simpl. rewrite Hh'. rewrite bool_decide_eq_true_2; [reflexivity |].
      apply list_elem_of_fmap. exists (hash, p). split; [reflexivity |].
      apply elem_of_in_key_order. exact Hp. }
    assert (Hmap : mapBlockIndex st' = mapBlockIndex st).
    { apply Close_Returns_inv in Hclose as (heap' & _ & _ & _ & ->). reflexivity. }
    pose proof (delete_nodes_inv (in_key_order (mapBlockIndex st')) (heap st')) as Hinv'.
    unfold Close.
    destruct (delete_nodes (in_key_order (mapBlockIndex st')) (heap st'))
      as [heap'' | | |]; simpl; try reflexivity; try contradiction.
    exfalso. destruct Hinv' as [_ Hlive'].
    apply map_choose in Hne as (hash & p & Hp).
    destruct (Hlive' (hash, p)) as [n Hn].
    { apply elem_of_in_key_order. rewrite Hmap. exact Hp. }
    simpl in Hn. rewrite (Hfreed hash p Hp) in Hn. discriminate.
Qed.

Lemma Close_defined_iff_witness :
  let self := mkTxDB true None false (Some 2) in
  let w := {| txleveldb := Some (Some sample_fork_DB); datadir := ∅; txdb := true |} in
  let st := loaded (sample_Env 1 500 16 16) sample_fork_DB in
  (exists r, Close self w st = Returns r)
  /\ Close (mkTxDB false None false (Some 2))
       {| txleveldb := Some (Some sample_fork_DB); datadir := ∅; txdb := false |}
       (set_heap ∅ st) = Undefined.
Proof.
  split.
  - apply (proj1 (Close_defined_iff
                    (mkTxDB true None false (Some 2))
                    {| txleveldb := Some (Some sample_fork_DB); datadir := ∅; txdb := true |}
                    (loaded (sample_Env 1 500 16 16) sample_fork_DB))).
    split; compute_done.
  - apply (proj2 (proj2 (Close_defined_iff
                    (mkTxDB true None false (Some 2))
                    {| txleveldb := Some (Some sample_fork_DB); datadir := ∅; txdb := true |}
                    (loaded (sample_Env 1 500 16 16) sample_fork_DB)))).
    + vm_compute. reflexivity.
    + intros Hempty. apply (f_equal (fun m => m !! 100)) in Hempty.
      vm_compute in Hempty. discriminate Hempty.
Defined.

Lemma CTxDB_ctor_opened
    (LogPrintf_line_110 : Outcome unit) (DATABASE_VERSION : Z) (pszMode : string)
    (w : World) (self : CTxDB) (w' : World) :
  txdb w = false ->
  CTxDB_ctor LogPrintf_line_110 DATABASE_VERSION pszMode w = Returns (self, w') ->
  exists db',
    w' = {| txleveldb := Some (Some db'); datadir := datadir w'; txdb := true |}
    /\ (forall v, db_version db' = Some v -> DATABASE_VERSION <= v)
    /\ (strchr pszMode "c"%char = true -> is_Some (db_version db')).
Proof.
  intros Htxdb. rewrite CTxDB_ctor_cases. cbv zeta. rewrite Htxdb.
  destruct (txleveldb w) as [[db |] |] eqn:Hdir.
  - destruct (db_version db) as [v |] eqn:Hver.
    + case_bool_decide as Hold.
      * destruct LogPrintf_line_110 as [[] | what | |]; cbn [mbind Outcome_bind];
          try discriminate.
        destruct (strchr pszMode "c") eqn:Hc; [| discriminate].
        intros [= <- <-]. eexists. split; [reflexivity |]. simpl. split; [| eauto].
        intros v' [= <-]. lia.
      * intros [= <- <-]. exists db. rewrite Hver. split; [reflexivity |]. split; [| eauto].
        intros v' [= <-]. lia.
    + intros [= <- <-]. eexists. split; [reflexivity |].
      destruct (strchr pszMode "c") eqn:Hc; simpl.
      * split; [| eauto]. intros v' [= <-]. lia.
      * rewrite Hver. split; discriminate.
  - destruct (strchr pszMode "c") eqn:Hc; [| discriminate].
    intros [= <- <-]. eexists. split; [reflexivity |]. simpl. split; [| eauto].
    intros v' [= <-]. lia.
  - destruct (strchr pszMode "c") eqn:Hc; [| discriminate].
    intros [= <- <-]. eexists. split; [reflexivity |]. simpl. split; [| eauto].
    intros v' [= <-]. lia.
Qed.

(** X10. Opening, closing and opening again: after a first open in a
    creating mode, [Close] resets the global handle, and a constructor
    run after it, in whatever mode, opens the database again as the first
    one left it: the version it finds is current, so nothing is removed
    and nothing is written. *)
Theorem reopen_after_Close_keeps_database
    (LogPrintf_line_110 : Outcome unit) (DATABASE_VERSION : Z) (pszMode pszMode2 : string)
    (w w1 w2 : World)
    (self self' : CTxDB) (st st' : State) :
  txdb w = false ->
  strchr pszMode "c"%char = true ->
  CTxDB_ctor LogPrintf_line_110 DATABASE_VERSION pszMode w = Returns (self, w1) ->
  Close self w1 st = Returns (self', w2, st') ->
  txdb w2 = false
  /\ pdb self' = false
  /\ exists self2,
       CTxDB_ctor LogPrintf_line_110 DATABASE_VERSION pszMode2 w2 = Returns (self2, w1)
       /\ pdb self2 = true
       /\ activeBatch self2 = None.
Proof.
  intros Htxdb Hc Hctor Hclose.
  destruct (CTxDB_ctor_opened _ _ _ _ _ _ Htxdb Hctor) as (db' & Hw1 & Hcur & Hhas).
  destruct (Hhas Hc) as [v Hv].
  apply Close_Returns_inv in Hclose as (heap' & _ & -> & -> & _).
  split; [reflexivity |]. split; [reflexivity |].
  rewrite CTxDB_ctor_cases. cbv zeta. simpl.
  rewrite Hw1. simpl. rewrite Hv.
  rewrite bool_decide_eq_false_2 by (specialize (Hcur v Hv); lia).
  eexists. split; [reflexivity |]. split; reflexivity.
Qed.

Lemma reopen_after_Close_keeps_database_witness :
  let w1 := {| txleveldb := Some (Some (set_db_version 2 empty_DB));
               datadir := {[ "blk0004.dat"; "wallet.dat" ]};
               txdb := true |} in
  let w2 := {| txleveldb := Some (Some (set_db_version 2 empty_DB));
               datadir := {[ "blk0004.dat"; "wallet.dat" ]};
               txdb := false |} in
  txdb w2 = false
  /\ pdb (mkTxDB false None true (Some 1)) = false
  /\ exists self2,
       CTxDB_ctor (Returns tt) 2 "r" w2 = Returns (self2, w1)
       /\ pdb self2 = true
       /\ activeBatch self2 = None.
Proof.
  apply (reopen_after_Close_keeps_database (Returns tt) 2 "cr" "r" sample_old_world _ _
           (mkTxDB true None true (Some 1)) _ initial_State initial_State).
  - reflexivity.
  - reflexivity.
  - vm_compute. reflexivity.
  - vm_compute. reflexivity.
Defined.

(** ** The loader: what Phase 1 builds, record by record *)

Section Phase1Spec.

Variable env : Env.
Hypothesis Hsane : env_sane env.

Lemma InsertBlockIndex_frame (hash : Z) (st : State) (r : option Z) (st' : State) :
  InsertBlockIndex env hash st = (r, st') ->
  (hash = 0 -> r = None /\ st' = st)
  /\ (hash <> 0 -> is_Some r)
  /\ (forall p node, heap st !! p = Some node -> heap st' !! p = Some node)
  /\ (forall k, k <> hash -> mapBlockIndex st' !! k = mapBlockIndex st !! k)
  /\ setStakeSeen st' = setStakeSeen st
  /\ events st' = events st
  /\ nShutdownReads st' = nShutdownReads st.
Proof.
  unfold InsertBlockIndex. case_bool_decide as Hzero.
  - intros [= <- <-]. repeat split; auto. intros H. contradiction.
  - destruct (mapBlockIndex st !! hash) as [p |] eqn:Hfind.
    + intros [= <- <-]. split; [intros H; contradiction |]. repeat split; eauto.
    + intros [= <- <-]. simpl. split; [intros H; contradiction |].
      split; [eauto |]. split; [| split; [| auto]].
      * intros p node Hp. rewrite lookup_insert_ne; [exact Hp |].
        intros Heq. rewrite <- Heq in Hp. destruct Hsane as [Hfresh _].
        rewrite Hfresh in Hp. discriminate.
      * intros k Hk. rewrite lookup_insert_ne by congruence. reflexivity.
Qed.

Lemma link_of_InsertBlockIndex (hash : Z) (st : State) (r : option Z) (st' : State) :
  index_wf (mapBlockIndex st) (heap st) ->
  InsertBlockIndex env hash st = (r, st') ->
  link_of st' hash r.
Proof.
  intros Hwf Hins.
  destruct (InsertBlockIndex_wf env Hsane _ _ _ _ Hwf Hins) as (_ & _ & Hr).
  destruct (InsertBlockIndex_frame _ _ _ _ Hins) as (Hz & Hnz & _).
  destruct r as [q |]; simpl.
  - split; [| auto]. intros Heq. destruct (Hz Heq) as [H _]. discriminate.
  - destruct (decide (hash = 0)) as [Heq | Hne]; [exact Heq |].
    destruct (Hnz Hne) as [? H]. discriminate.
Qed.

Lemma link_of_mono (st st' : State) (hash : Z) (link : option Z) :
  (forall k q, mapBlockIndex st !! k = Some q -> mapBlockIndex st' !! k = Some q) ->
  link_of st hash link -> link_of st' hash link.
Proof. intros Hmono. destruct link as [q |]; simpl; [| auto]. intros [Hne Hq]. auto. Qed.

Lemma record_loaded_frame (st st' : State) (d : CDiskBlockIndex) (p : Z)
    (node : CBlockIndex) :
  (forall k q, mapBlockIndex st !! k = Some q -> mapBlockIndex st' !! k = Some q) ->
  heap st' !! p = Some node ->
  record_loaded env st d p node -> record_loaded env st' d p node.
Proof.
  intros Hmono Hnode (Hm & _ & Hfields & Hprev & Hnext).
  split; [auto |]. split; [exact Hnode |]. split; [exact Hfields |].
  split; eapply link_of_mono; eassumption.
Qed.

(** One iteration of the load loop. *)
Lemma load_record_spec (d : CDiskBlockIndex) (st : State) :
  index_wf (mapBlockIndex st) (heap st) ->
  GetBlockHash env d <> 0 ->
  exists p node st1,
    load_record env d st
    = Returns (if CheckIndex env node
               then Next (if IsProofOfStake env node
                          then set_setStakeSeen ({[stake_key node]} ∪ setStakeSeen st1) st1
                          else st1)
               else Return (LoadFalse (CheckIndexFailed (DiskBlockIndex.nHeight d))) st1)
    /\ index_wf (mapBlockIndex st1) (heap st1)
    /\ record_loaded env st1 d p node
    /\ (forall k q, mapBlockIndex st !! k = Some q -> mapBlockIndex st1 !! k = Some q)
    /\ (forall q n, q <> p -> heap st !! q = Some n -> heap st1 !! q = Some n)
    /\ setStakeSeen st1 = setStakeSeen st
    /\ events st1 = events st
    /\ nShutdownReads st1 = nShutdownReads st.
Proof.
  intros Hwf Hhash. unfold load_record.
  destruct (InsertBlockIndex env (GetBlockHash env d) st) as [r1 st1] eqn:H1.
  destruct (InsertBlockIndex_wf env Hsane _ _ _ _ Hwf H1) as (Hwf1 & Hmono1 & Hr1).
  destruct (InsertBlockIndex_frame _ _ _ _ H1) as (_ & Hnz1 & Hheap1 & _ & Hs1 & He1 & Hn1).
  destruct (Hnz1 Hhash) as [p ->]. specialize (Hr1 p eq_refl).
  destruct (InsertBlockIndex env (DiskBlockIndex.hashPrev d) st1) as [prev st2] eqn:H2.
  destruct (InsertBlockIndex_wf env Hsane _ _ _ _ Hwf1 H2) as (Hwf2 & Hmono2 & Hr2).
  destruct (InsertBlockIndex_frame _ _ _ _ H2) as (_ & _ & Hheap2 & _ & Hs2 & He2 & Hn2).
  pose proof (link_of_InsertBlockIndex _ _ _ _ Hwf1 H2) as Hlink2.
  pose proof (Hmono2 _ _ Hr1) as Hp2.
  destruct (proj1 Hwf2 _ _ Hp2) as [node2 Hnode2].
  rewrite (deref_Some _ _ _ Hnode2). cbn [mbind Outcome_bind].
  set (st3 := store p (BlockIndex.set_pprev prev node2) st2).
  assert (Hwf3 : index_wf (mapBlockIndex st3) (heap st3)).
  { apply index_wf_store; [exact Hwf2 | eauto |].
    intros q Hq. simpl in Hq. eauto. }
  destruct (InsertBlockIndex env (DiskBlockIndex.hashNext d) st3) as [next st4] eqn:H4.
  destruct (InsertBlockIndex_wf env Hsane _ _ _ _ Hwf3 H4) as (Hwf4 & Hmono4 & Hr4).
  destruct (InsertBlockIndex_frame _ _ _ _ H4) as (_ & _ & Hheap4 & _ & Hs4 & He4 & Hn4).
  pose proof (link_of_InsertBlockIndex _ _ _ _ Hwf3 H4) as Hlink4.
  pose proof (Hmono4 _ _ Hp2 : mapBlockIndex st4 !! _ = Some p) as Hp4.
  assert (Hnode4 : heap st4 !! p = Some (BlockIndex.set_pprev prev node2)).
  { apply Hheap4. unfold st3, store. simpl. apply lookup_insert_eq. }
  rewrite (deref_Some _ _ _ Hnode4). cbn [mbind Outcome_bind].
  set (node5 := BlockIndex.set_pnext next (BlockIndex.set_pprev prev node2)).
  set (st5 := store p node5 st4).
  assert (Hnode5 : heap st5 !! p = Some node5).
  { unfold st5, store. simpl. apply lookup_insert_eq. }
  rewrite (deref_Some _ _ _ Hnode5). cbn [mbind Outcome_bind].
  set (node6 := BlockIndex.copy_fields d node5).
  set (st6 := store p node6 st5).
  assert (Hprev6 : forall q, BlockIndex.pprev node6 = Some q ->
                             exists k, mapBlockIndex st4 !! k = Some q).
  { intros q Hq. simpl in Hq. subst prev. destruct Hlink2 as [_ Hq].
    exists (DiskBlockIndex.hashPrev d). apply Hmono4. exact Hq. }
  assert (Hwf5 : index_wf (mapBlockIndex st5) (heap st5)).
  { apply index_wf_store; [exact Hwf4 | eauto | exact Hprev6]. }
  assert (Hwf6 : index_wf (mapBlockIndex st6) (heap st6)).
  { apply index_wf_store; [exact Hwf5 | eauto | exact Hprev6]. }
  exists p, node6, st6. split; [| split; [exact Hwf6 |]].
  - destruct (CheckIndex env node6); reflexivity.
  - assert (Hmono : forall k q, mapBlockIndex st !! k = Some q ->
                                mapBlockIndex st6 !! k = Some q).
    { intros k q Hk. apply Hmono4. apply Hmono2. apply Hmono1. exact Hk. }
    split; [| split; [exact Hmono |]].
    + split; [exact Hp4 |]. split; [unfold st6, store; simpl; apply lookup_insert_eq |].
      split; [reflexivity |]. split.
      * apply (link_of_mono st2); [| exact Hlink2]. exact Hmono4.
      * exact Hlink4.
    + split; [| split; [| split]].
      * intros q n Hq Hn. unfold st6, st5, store. simpl.
        rewrite !lookup_insert_ne by congruence.
        apply Hheap4. unfold st3, store. simpl. rewrite lookup_insert_ne by congruence.
        apply Hheap2. apply Hheap1. exact Hn.
      * simpl. rewrite Hs4. simpl. rewrite Hs2, Hs1. reflexivity.
      * simpl. rewrite He4. simpl. rewrite He2, He1. reflexivity.
      * simpl. rewrite Hn4. simpl. rewrite Hn2, Hn1. reflexivity.
Qed.

End Phase1Spec.

Section Phase1Loop.

Variable env : Env.
Hypothesis Hsane : env_sane env.

Lemma record_loaded_unique (st : State) (d : CDiskBlockIndex) (p p' : Z)
    (node node' : CBlockIndex) :
  record_loaded env st d p node -> record_loaded env st d p' node' ->
  p' = p /\ node' = node.
Proof.
  intros (Hm & Hn & _) (Hm' & Hn' & _). rewrite Hm in Hm'. injection Hm' as <-.
  rewrite Hn in Hn'. injection Hn' as <-. auto.
Qed.

Lemma load_records_others (others : list Entry) (st : State) :
  Forall (fun e => strType_of e <> "blockindex") others ->
  exists st', load_records env others st = Returns (Next st')
              /\ mapBlockIndex st' = mapBlockIndex st /\ heap st' = heap st
              /\ setStakeSeen st' = setStakeSeen st /\ events st' = events st.
Proof.
  intros Hothers. destruct others as [| e others]; simpl; [eauto 10 |].
  inversion Hothers as [| ? ? He _]; subst.
  destruct (String.eqb_spec (strType_of e) "blockindex") as [Heq | _]; [contradiction |].
  rewrite orb_true_r. eauto 10.
Qed.

Lemma load_records_spec (others : list Entry) (records : list CDiskBlockIndex) :
  Forall (fun e => strType_of e <> "blockindex") others ->
  forall (done : list CDiskBlockIndex) (st : State),
    index_wf (mapBlockIndex st) (heap st) ->
    NoDup (GetBlockHash env <$> (done ++ records)) ->
    (forall d, d ∈ records -> GetBlockHash env d <> 0) ->
    (forall d, d ∈ done -> exists p node, record_loaded env st d p node) ->
    exists r processed rest,
      load_records env ((BlockIndexEntry <$> records) ++ others) st = Returns r
      /\ records = processed ++ rest
      /\ index_wf (mapBlockIndex (flow_state r)) (heap (flow_state r))
      /\ (forall k q, mapBlockIndex st !! k = Some q ->
                      mapBlockIndex (flow_state r) !! k = Some q)
      /\ (forall d p node, d ∈ done -> record_loaded env st d p node ->
                           record_loaded env (flow_state r) d p node)
      /\ (forall d, d ∈ processed -> exists p node, record_loaded env (flow_state r) d p node)
      /\ events (flow_state r) = events st
      /\ match r with
         | Next _ =>
             (rest = []
              \/ exists n, (nShutdownReads st <= n)%nat /\ fRequestShutdown env n = true)
             /\ forall d p node,
                  d ∈ processed -> record_loaded env (flow_state r) d p node ->
                  CheckIndex env node = true
         | Return e _ =>
             exists d p node,
               last processed = Some d
               /\ record_loaded env (flow_state r) d p node
               /\ CheckIndex env node = false
               /\ e = LoadFalse (CheckIndexFailed (DiskBlockIndex.nHeight d))
         end
      /\ (forall x,
             x ∈ setStakeSeen (flow_state r)
             <-> x ∈ setStakeSeen st
                 \/ exists d p node,
                      d ∈ processed /\ record_loaded env (flow_state r) d p node
                      /\ CheckIndex env node = true /\ IsProofOfStake env node = true
                      /\ x = stake_key node).
Proof.
  intros Hothers. induction records as [| d records IH]; intros done st Hwf Hnodup Hhash Hdone.
  - destruct (load_records_others others st Hothers) as (st' & Hrun & Hm & Hh & Hs & He).
    exists (Next st'), [], []. simpl. rewrite Hrun, Hm, Hh, Hs, He.
    split; [reflexivity |]. split; [reflexivity |]. split; [exact Hwf |].
    split; [auto |]. split.
    { intros d p node _ Hl. unfold record_loaded, link_of in *. rewrite Hm, Hh. exact Hl. }
    split; [intros d Hd; inversion Hd |]. split; [reflexivity |].
    split; [split; [left; reflexivity | intros d p node Hd; inversion Hd] |].
    intros x. split; [auto |]. intros [Hx | (d & p & node & Hd & _)]; [exact Hx | inversion Hd].
  - rewrite fmap_cons. cbn [app load_records poll strType_of]. rewrite String.eqb_refl.
    cbn [negb]. rewrite orb_false_r.
    destruct (fRequestShutdown env (nShutdownReads st)) eqn:Hshut.
    + (* shutdown observed before this record *)
      exists (Next (tick st)), [], (d :: records). simpl.
      split; [reflexivity |]. split; [reflexivity |]. split; [exact Hwf |].
      split; [auto |]. split; [auto |].
      split; [intros d' Hd'; inversion Hd' |]. split; [reflexivity |].
      split; [split; [right; exists (nShutdownReads st); auto
                     | intros d' p node Hd'; inversion Hd'] |].
      intros x. split; [auto |].
      intros [Hx | (d' & p & node & Hd' & _)]; [exact Hx | inversion Hd'].
    + assert (Hwft : index_wf (mapBlockIndex (tick st)) (heap (tick st))) by exact Hwf.
      destruct (load_record_spec env Hsane d (tick st) Hwft) as
        (p & node & st1 & Hrun & Hwf1 & Hloaded & Hmono & Hframe & Hs1 & He1 & Hn1).
      { apply Hhash. left. }
      rewrite Hrun. cbn [mbind Outcome_bind].
      assert (Hdone1 : forall d' p' node', d' ∈ done -> record_loaded env st d' p' node' ->
                                           record_loaded env st1 d' p' node').
      { intros d' p' node' Hd' Hl'. apply (record_loaded_frame env st); [exact Hmono | | exact Hl'].
        apply Hframe; [| exact (proj1 (proj2 Hl'))].
        intros ->. destruct Hl' as (Hm' & _). apply Hmono in Hm'.
        destruct Hloaded as (Hm & _).
        destruct Hwf1 as (_ & _ & Hinj). pose proof (Hinj _ _ _ Hm' Hm) as Heq.
        rewrite fmap_app, fmap_cons in Hnodup.
        apply NoDup_app in Hnodup as (_ & Hdisj & _).
        apply (Hdisj (GetBlockHash env d')).
        - apply list_elem_of_fmap. eauto.
        - rewrite Heq. left. }
      destruct (CheckIndex env node) eqn:Hcheck.
      * (* the record is in; on to the next one *)
        set (st2 := if IsProofOfStake env node
                    then set_setStakeSeen ({[stake_key node]} ∪ setStakeSeen st1) st1
                    else st1).
        assert (Hm2 : mapBlockIndex st2 = mapBlockIndex st1)
          by (unfold st2; destruct (IsProofOfStake env node); reflexivity).
        assert (Hh2 : heap st2 = heap st1)
          by (unfold st2; destruct (IsProofOfStake env node); reflexivity).
        assert (He2 : events st2 = events st1)
          by (unfold st2; destruct (IsProofOfStake env node); reflexivity).
        assert (Hn2 : nShutdownReads st2 = nShutdownReads st1)
          by (unfold st2; destruct (IsProofOfStake env node); reflexivity).
        assert (Hl2 : forall d' p' node', record_loaded env st1 d' p' node' ->
                                          record_loaded env st2 d' p' node').
        { intros d' p' node' Hl. unfold record_loaded, link_of in *. rewrite Hm2, Hh2. exact Hl. }
        destruct (IH (done ++ [d]) st2) as
          (r & processed & rest & Hrun2 & Hsplit & Hwfr & Hmonor & Hdoner & Hproc & Hev
             & Hres & Hstake).
        { rewrite Hm2, Hh2. exact Hwf1. }
        { rewrite <- app_assoc. exact Hnodup. }
        { intros d' Hd'. apply Hhash. right. exact Hd'. }
        { intros d' Hd'. apply elem_of_app in Hd' as [Hd' | Hd'].
          - destruct (Hdone d' Hd') as (p' & node' & Hl'). exists p', node'.
            apply Hl2. apply Hdone1; assumption.
          - apply list_elem_of_singleton in Hd' as ->. exists p, node. apply Hl2. exact Hloaded. }
        exists r, (d :: processed), rest. rewrite Hrun2.
        split; [reflexivity |]. split; [simpl; rewrite Hsplit; reflexivity |].
        split; [exact Hwfr |]. split.
        { intros k q Hk. apply Hmonor. rewrite Hm2. apply Hmono. exact Hk. }
        assert (Hdr : record_loaded env (flow_state r) d p node).
        { apply Hdoner; [apply elem_of_app; right; left |]. apply Hl2. exact Hloaded. }
        split.
        { intros d' p' node' Hd' Hl'. apply Hdoner; [apply elem_of_app; left; exact Hd' |].
          apply Hl2. apply Hdone1; assumption. }
        split.
        { intros d' Hd'. apply elem_of_cons in Hd' as [-> | Hd']; [eauto | apply Hproc; exact Hd']. }
        split; [rewrite Hev, He2, He1; reflexivity |].
        split.
        { destruct r as [st' | e st'].
          - destruct Hres as [Hres Hall]. split.
            + destruct Hres as [-> | (n & Hn & Hshutn)]; [left; reflexivity |].
              right. exists n. split; [| exact Hshutn].
              rewrite Hn2, Hn1 in Hn. simpl in Hn. lia.
            + intros d' p' node' Hd' Hl'. apply elem_of_cons in Hd' as [-> | Hd'].
              * destruct (record_loaded_unique _ _ _ _ _ _ Hdr Hl') as [-> ->]. exact Hcheck.
              * exact (Hall d' p' node' Hd' Hl').
          - destruct Hres as (d0 & p0 & node0 & Hlast & Hl0 & Hc0 & ->).
            exists d0, p0, node0. split; [| auto]. rewrite last_cons, Hlast. reflexivity. }
        intros x. rewrite Hstake.
        assert (Hst2 : x ∈ setStakeSeen st2
                       <-> x ∈ setStakeSeen st
                           \/ (IsProofOfStake env node = true /\ x = stake_key node)).
        { unfold st2. destruct (IsProofOfStake env node); simpl.
          - rewrite elem_of_union, elem_of_singleton, Hs1. simpl. tauto.
          - rewrite Hs1. simpl. split; [auto |]. intros [H | [H _]]; [exact H | discriminate]. }
        rewrite Hst2. split.
        -- intros [[Hx | [Hpos ->]] | (d' & p' & node' & Hd' & Hl' & Hrest)].
           ++ left. exact Hx.
           ++ right. exists d, p, node. split; [left |]. auto.
           ++ right. exists d', p', node'. split; [right; exact Hd' |]. auto.
        -- intros [Hx | (d' & p' & node' & Hd' & Hl' & Hc' & Hpos' & ->)]; [auto |].
           apply elem_of_cons in Hd' as [-> | Hd'].
           ++ destruct (record_loaded_unique _ _ _ _ _ _ Hdr Hl') as [-> ->]. auto.
           ++ right. exists d', p', node'. auto.
      * (* CheckIndex fails: the load stops here *)
        exists (Return (LoadFalse (CheckIndexFailed (DiskBlockIndex.nHeight d))) st1),
          [d], records. simpl.
        split; [reflexivity |]. split; [reflexivity |]. split; [exact Hwf1 |].
        split; [exact Hmono |]. split; [exact Hdone1 |].
        split.
        { intros d' Hd'. apply list_elem_of_singleton in Hd' as ->. eauto. }
        split; [exact He1 |].
        split; [exists d, p, node; auto |].
        intros x. rewrite Hs1. simpl. split; [auto |].
        intros [Hx | (d' & p' & node' & Hd' & Hl' & Hc' & _)]; [exact Hx |].
        apply list_elem_of_singleton in Hd' as ->.
        destruct (record_loaded_unique _ _ _ _ _ _ Hloaded Hl') as [-> ->]. congruence.
Qed.

Lemma NewIterator_others (db : DB) :
  Forall (fun e => strType_of e <> "blockindex")
    (present "hashBestChain" (db_hashBestChain db)
     ++ present "bnBestInvalidTrust" (db_bnBestInvalidTrust db)
     ++ present "hashSyncCheckpoint" (db_hashSyncCheckpoint db)
     ++ present "strCheckpointPubKey" (db_strCheckpointPubKey db)).
Proof.
  repeat apply Forall_app_2;
    match goal with |- Forall _ (present _ ?o) => destruct o end;
    simpl; repeat constructor; discriminate.
Qed.

End Phase1Loop.

(** X11. [InsertBlockIndex] finds or creates: the hash 0 gives the null
    pointer and changes nothing; for any other hash it returns the node
    registered under the hash, which a second call finds again without
    allocating. It creates the entry only when the hash had none, on a
    fresh address that no live node had, with the node's [phashBlock]
    pointing at the hash; it changes no other entry and no existing
    node, and keeps the index well formed. *)
Theorem InsertBlockIndex_find_or_create (env : Env) (hash : Z) (st : State) :
  env_sane env ->
  InsertBlockIndex env 0 st = (None, st)
  /\ (hash <> 0 ->
      exists p st',
        InsertBlockIndex env hash st = (Some p, st')
        /\ mapBlockIndex st' !! hash = Some p
        /\ InsertBlockIndex env hash st' = (Some p, st')
        /\ (forall k, k <> hash -> mapBlockIndex st' !! k = mapBlockIndex st !! k)
        /\ (forall q node, heap st !! q = Some node -> heap st' !! q = Some node)
        /\ (is_Some (mapBlockIndex st !! hash) -> st' = st)
        /\ (mapBlockIndex st !! hash = None ->
            heap st !! p = None
            /\ heap st' !! p
               = Some (BlockIndex.set_phashBlock (Some hash) (new_CBlockIndex env)))
        /\ (index_well_formed st -> index_well_formed st')).
Proof.
  intros Hsane. split; [reflexivity |]. intros Hhash.
  destruct (InsertBlockIndex env hash st) as [r st'] eqn:Hins.
  destruct (InsertBlockIndex_frame env Hsane _ _ _ _ Hins)
    as (_ & Hnz & Hheap & Hother & _).
  destruct (Hnz Hhash) as [p ->]. exists p, st'. split; [reflexivity |].
  assert (Hp : mapBlockIndex st' !! hash = Some p).
  { revert Hins. unfold InsertBlockIndex.
    rewrite bool_decide_eq_false_2 by exact Hhash.
    destruct (mapBlockIndex st !! hash) as [q |] eqn:Hfind; intros [= <- <-];
      [exact Hfind | apply lookup_insert_eq]. }
  split; [exact Hp |]. split.
  { unfold InsertBlockIndex. rewrite bool_decide_eq_false_2 by exact Hhash.
    rewrite Hp. reflexivity. }
  split; [exact Hother |]. split; [exact Hheap |]. split; [| split].
  - intros [q Hq]. revert Hins. unfold InsertBlockIndex.
    rewrite bool_decide_eq_false_2 by exact Hhash. rewrite Hq. intros [= _ <-]. reflexivity.
  - intros Hnone. revert Hins. unfold InsertBlockIndex.
    rewrite bool_decide_eq_false_2 by exact Hhash. rewrite Hnone. intros [= <- <-].
    split; [apply (proj1 Hsane) | apply lookup_insert_eq].
  - intros Hwf. apply index_well_formed_wf. apply index_well_formed_wf in Hwf.
    exact (proj1 (InsertBlockIndex_wf env Hsane _ _ _ _ Hwf Hins)).
Qed.

Lemma InsertBlockIndex_find_or_create_witness :
  let env := sample_Env 1 500 16 16 in
  InsertBlockIndex env 0 initial_State = (None, initial_State)
  /\ exists p st',
       InsertBlockIndex env 100 initial_State = (Some p, st')
       /\ mapBlockIndex st' !! 100 = Some p
       /\ InsertBlockIndex env 100 st' = (Some p, st')
       /\ (forall k, k <> 100 -> mapBlockIndex st' !! k = mapBlockIndex initial_State !! k)
       /\ (forall q node, heap initial_State !! q = Some node -> heap st' !! q = Some node)
       /\ (is_Some (mapBlockIndex initial_State !! 100) -> st' = initial_State)
       /\ (mapBlockIndex initial_State !! 100 = None ->
           heap initial_State !! p = None
           /\ heap st' !! p
              = Some (BlockIndex.set_phashBlock (Some 100) (new_CBlockIndex env)))
       /\ (index_well_formed initial_State -> index_well_formed st').
Proof.
  destruct (InsertBlockIndex_find_or_create (sample_Env 1 500 16 16) 100 initial_State)
    as [H0 H1]; [apply sample_Env_sane; lia |].
  split; [exact H0 |]. apply H1. lia.
Defined.

Section Phase1Properties.

Variable env : Env.
Hypothesis Hsane : env_sane env.

Lemma load_records_Returns (others : list Entry) (records : list CDiskBlockIndex) :
  Forall (fun e => strType_of e <> "blockindex") others ->
  forall st : State,
    index_wf (mapBlockIndex st) (heap st) ->
    (forall d, d ∈ records -> GetBlockHash env d <> 0) ->
    exists r,
      load_records env ((BlockIndexEntry <$> records) ++ others) st = Returns r
      /\ forall k q, mapBlockIndex st !! k = Some q ->
                     mapBlockIndex (flow_state r) !! k = Some q.
Proof.
  intros Hothers. induction records as [| d records IH]; intros st Hwf Hhash.
  - destruct (load_records_others env others st Hothers) as (st' & Hrun & Hm & _).
    exists (Next st'). split; [exact Hrun |]. simpl. rewrite Hm. auto.
  - rewrite fmap_cons. cbn [app load_records poll strType_of]. rewrite String.eqb_refl.
    cbn [negb]. rewrite orb_false_r.
    destruct (fRequestShutdown env (nShutdownReads st)); [eexists; split; [reflexivity | auto] |].
    assert (Hwft : index_wf (mapBlockIndex (tick st)) (heap (tick st))) by exact Hwf.
    destruct (load_record_spec env Hsane d (tick st) Hwft) as
      (p & node & st1 & Hrun & Hwf1 & _ & Hmono & _).
    { apply Hhash. left. }
    rewrite Hrun. cbn [mbind Outcome_bind].
    destruct (CheckIndex env node); [| eexists; split; [reflexivity | exact Hmono]].
    set (st2 := if IsProofOfStake env node then _ else st1).
    assert (Hm2 : mapBlockIndex st2 = mapBlockIndex st1)
      by (unfold st2; destruct (IsProofOfStake env node); reflexivity).
    assert (Hh2 : heap st2 = heap st1)
      by (unfold st2; destruct (IsProofOfStake env node); reflexivity).
    destruct (IH st2) as (r & Hr & Hmonor).
    { rewrite Hm2, Hh2. exact Hwf1. }
    { intros d' Hd'. apply Hhash. right. exact Hd'. }
    exists r. split; [exact Hr |]. intros k q Hk. apply Hmonor. rewrite Hm2. apply Hmono.
    exact Hk.
Qed.

End Phase1Properties.

(** X12. Phase 1 is safe on a database whose records all hash to
    something other than 0: started in a sane environment on a
    well-formed index (the empty one, say), the loop over the records
    dereferences no dangling or null pointer and throws nothing; it ends
    with a well-formed index (every entry has a live node of its own and
    every parent link points into the index), whether it ran to the end,
    was interrupted by shutdown or stopped at a failed [CheckIndex]; and
    no entry that was there is dropped or pointed elsewhere. *)
Theorem load_records_defined (env : Env) (db : DB) (st : State) :
  env_sane env ->
  index_well_formed st ->
  (forall d, d ∈ db_blockindex db -> GetBlockHash env d <> 0) ->
  exists r,
    load_records env (NewIterator_Seek_blockindex db) st = Returns r
    /\ index_well_formed (flow_state r)
    /\ forall k q, mapBlockIndex st !! k = Some q ->
                   mapBlockIndex (flow_state r) !! k = Some q.
Proof.
  intros Hsane Hwf Hhash. apply index_well_formed_wf in Hwf.
  destruct (load_records_Returns env Hsane _ (db_blockindex db) (NewIterator_others db) st
              Hwf Hhash) as (r & Hr & Hmono).
  exists r. split; [exact Hr |]. split; [| exact Hmono].
  apply index_well_formed_wf. exact (load_records_wf env Hsane _ st r Hwf Hr).
Qed.

Lemma load_records_defined_witness :
  exists r,
    load_records (sample_Env 1 500 16 16) (NewIterator_Seek_blockindex sample_fork_DB)
      initial_State = Returns r
    /\ index_well_formed (flow_state r)
    /\ forall k q, mapBlockIndex initial_State !! k = Some q ->
                   mapBlockIndex (flow_state r) !! k = Some q.
Proof.
  apply (load_records_defined (sample_Env 1 500 16 16) sample_fork_DB initial_State).
  - apply sample_Env_sane. lia.
  - compute_done.
  - apply Forall_forall. compute_done.
Defined.

(** X13. A record whose block hash is 0 makes the loader dereference a
    null pointer: [InsertBlockIndex] returns [NULL] for it and the loop
    assigns through the result without a test. *)
Theorem LoadBlockIndex_zero_hash_undefined
    (fuel : nat) (env : Env) (db : DB) (st : State) (d : CDiskBlockIndex)
    (rest : list CDiskBlockIndex) :
  mapBlockIndex st = ∅ ->
  db_blockindex db = d :: rest ->
  GetBlockHash env d = 0 ->
  fRequestShutdown env (nShutdownReads st) = false ->
  load_record env d (tick st) = Undefined
  /\ LoadBlockIndex fuel env db st = Some Undefined.
Proof.
  intros Hempty Hdb Hzero Hshut.
  assert (Hrec : load_record env d (tick st) = Undefined).
  { unfold load_record, InsertBlockIndex. rewrite Hzero. reflexivity. }
  split; [exact Hrec |].
  unfold LoadBlockIndex. rewrite Hempty, map_size_empty.
  rewrite bool_decide_eq_false_2 by lia.
  unfold NewIterator_Seek_blockindex. rewrite Hdb.
  cbn [map app load_records poll strType_of]. rewrite Hshut, String.eqb_refl. cbn [negb orb].
  rewrite Hrec. reflexivity.
Qed.

Lemma LoadBlockIndex_zero_hash_undefined_witness :
  let db := {| db_version := Some 2; db_tx := ∅;
               db_blockindex := [sample_record 1 (-100)];
               db_hashBestChain := None; db_bnBestInvalidTrust := None;
               db_hashSyncCheckpoint := None; db_strCheckpointPubKey := None |} in
  load_record (sample_Env 1 500 16 16) (sample_record 1 (-100)) (tick initial_State) = Undefined
  /\ LoadBlockIndex 5 (sample_Env 1 500 16 16) db initial_State = Some Undefined.
Proof.
  apply (LoadBlockIndex_zero_hash_undefined 5 (sample_Env 1 500 16 16) _ initial_State
           (sample_record 1 (-100)) []); reflexivity.
Defined.

(** X14. Phase 1 round trip: when the loop runs to the end of the
    records (no shutdown, every [CheckIndex] passed), each record of the
    database, their hashes being distinct and not 0, has its node in the
    index: registered under the record's hash, carrying the record's
    fields, with [pprev] and [pnext] null where the record names the
    hash 0 and otherwise pointing to the node registered under the hash
    named, which exists even when no record for it does. Each node
    passes [CheckIndex], and the loop logs nothing. *)
Theorem load_records_loads_every_record
    (env : Env) (db : DB) (st st' : State) :
  env_sane env ->
  index_well_formed st ->
  NoDup (GetBlockHash env <$> db_blockindex db) ->
  (forall d, d ∈ db_blockindex db -> GetBlockHash env d <> 0) ->
  (forall n, fRequestShutdown env n = false) ->
  load_records env (NewIterator_Seek_blockindex db) st = Returns (Next st') ->
  (forall d, d ∈ db_blockindex db ->
             exists p node, record_loaded env st' d p node /\ CheckIndex env node = true)
  /\ events st' = events st.
Proof.
  intros Hsane Hwf Hnodup Hhash Hshut Hload. apply index_well_formed_wf in Hwf.
  destruct (load_records_spec env Hsane _ (db_blockindex db) (NewIterator_others db) [] st
              Hwf Hnodup Hhash) as
    (r & processed & rest & Hrun & Hsplit & _ & _ & _ & Hproc & Hev & Hres & _).
  { intros d Hd. inversion Hd. }
  assert (Heq : Returns r = Returns (Next st')) by (rewrite <- Hrun; exact Hload).
  injection Heq as ->.
  simpl in *. destruct Hres as [[-> | (n & _ & Hn)] Hall].
  - rewrite app_nil_r in Hsplit. subst processed. split; [| exact Hev].
    intros d Hd. destruct (Hproc d Hd) as (p & node & Hl). exists p, node.
    split; [exact Hl | exact (Hall d p node Hd Hl)].
  - rewrite Hshut in Hn. discriminate.
Qed.

Lemma load_records_loads_every_record_witness :
  let env := sample_Env 1 500 16 16 in
  let st' := loaded env sample_fork_DB in
  (forall d, d ∈ db_blockindex sample_fork_DB ->
             exists p node, record_loaded env st' d p node /\ CheckIndex env node = true)
  /\ events st' = events initial_State.
Proof.
  apply (load_records_loads_every_record (sample_Env 1 500 16 16) sample_fork_DB initial_State).
  - apply sample_Env_sane. lia.
  - compute_done.
  - compute_done.
  - apply Forall_forall. compute_done.
  - reflexivity.
  - vm_compute. reflexivity.
Defined.

(** X15. What Phase 1 adds to [setStakeSeen]: when the loop runs to the
    end of the records, the set holds what it held before and, for each
    record whose node is a proof-of-stake block, the pair of the node's
    [prevoutStake] and [nStakeTime]; nothing else. *)
Theorem load_records_setStakeSeen
    (env : Env) (db : DB) (st st' : State) :
  env_sane env ->
  index_well_formed st ->
  NoDup (GetBlockHash env <$> db_blockindex db) ->
  (forall d, d ∈ db_blockindex db -> GetBlockHash env d <> 0) ->
  (forall n, fRequestShutdown env n = false) ->
  load_records env (NewIterator_Seek_blockindex db) st = Returns (Next st') ->
  forall x,
    x ∈ setStakeSeen st'
    <-> x ∈ setStakeSeen st
        \/ exists d p node,
             d ∈ db_blockindex db /\ record_loaded env st' d p node
             /\ IsProofOfStake env node = true /\ x = stake_key node.
Proof.
  intros Hsane Hwf Hnodup Hhash Hshut Hload. apply index_well_formed_wf in Hwf.
  destruct (load_records_spec env Hsane _ (db_blockindex db) (NewIterator_others db) [] st
              Hwf Hnodup Hhash) as
    (r & processed & rest & Hrun & Hsplit & _ & _ & _ & Hproc & Hev & Hres & Hstake).
  { intros d Hd. inversion Hd. }
  assert (Heq : Returns r = Returns (Next st')) by (rewrite <- Hrun; exact Hload).
  injection Heq as ->.
  simpl in *. destruct Hres as [[-> | (n & _ & Hn)] Hall];
    [| rewrite Hshut in Hn; discriminate].
  rewrite app_nil_r in Hsplit. subst processed.
  intros x. rewrite Hstake. split.
  - intros [Hx | (d & p & node & Hd & Hl & _ & Hpos & ->)]; [auto |].
    right. exists d, p, node. auto.
  - intros [Hx | (d & p & node & Hd & Hl & Hpos & ->)]; [auto |].
    right. exists d, p, node. split; [exact Hd |]. split; [exact Hl |].
    split; [exact (Hall d p node Hd Hl) | auto].
Qed.

Lemma load_records_setStakeSeen_witness :
  let env := sample_Env 1 500 16 16 in
  let st' := loaded env sample_stake_DB in
  (7, 1, 42) ∈ setStakeSeen st'
  <-> (7, 1, 42) ∈ setStakeSeen initial_State
      \/ exists d p node,
           d ∈ db_blockindex sample_stake_DB /\ record_loaded env st' d p node
           /\ IsProofOfStake env node = true /\ (7, 1, 42) = stake_key node.
Proof.
  apply (load_records_setStakeSeen (sample_Env 1 500 16 16) sample_stake_DB initial_State).
  - apply sample_Env_sane. lia.
  - compute_done.
  - compute_done.
  - apply Forall_forall. compute_done.
  - reflexivity.
  - vm_compute. reflexivity.
Defined.

(** X16. Phase 1 fails in one way only: when it returns [false], a
    record's node failed [CheckIndex]; that node is in the index with
    the record's fields, and the error names the record's height. The
    entries made up to there stay: a load into an empty index then
    returns [false], and a second call finds the index not empty and
    returns [true] without loading anything. *)
Theorem load_records_fails_only_on_CheckIndex
    (env : Env) (db : DB) (st st' : State) (e : LoadReturn) :
  env_sane env ->
  index_well_formed st ->
  NoDup (GetBlockHash env <$> db_blockindex db) ->
  (forall d, d ∈ db_blockindex db -> GetBlockHash env d <> 0) ->
  load_records env (NewIterator_Seek_blockindex db) st = Returns (Return e st') ->
  (exists d p node,
      d ∈ db_blockindex db
      /\ record_loaded env st' d p node
      /\ CheckIndex env node = false
      /\ e = LoadFalse (CheckIndexFailed (DiskBlockIndex.nHeight d)))
  /\ (mapBlockIndex st = ∅ ->
      forall fuel,
        LoadBlockIndex fuel env db st = Some (Returns (e, st'))
        /\ forall fuel' env' db',
             LoadBlockIndex fuel' env' db' st' = Some (Returns (LoadTrue, st'))).
Proof.
  intros Hsane Hwf Hnodup Hhash Hload. apply index_well_formed_wf in Hwf.
  destruct (load_records_spec env Hsane _ (db_blockindex db) (NewIterator_others db) [] st
              Hwf Hnodup Hhash) as
    (r & processed & rest & Hrun & Hsplit & _ & _ & _ & Hproc & Hev & Hres & _).
  { intros d Hd. inversion Hd. }
  assert (Heq : Returns r = Returns (Return e st')) by (rewrite <- Hrun; exact Hload).
  injection Heq as ->.
  simpl in *. destruct Hres as (d & p & node & Hlast & Hl & Hcheck & ->).
  assert (Hd : d ∈ db_blockindex db).
  { rewrite Hsplit. apply elem_of_app. left. apply last_Some_elem_of. exact Hlast. }
  split; [exists d, p, node; auto |].
  intros Hempty fuel. split.
  - unfold LoadBlockIndex. rewrite Hempty, map_size_empty.
    rewrite bool_decide_eq_false_2 by lia. rewrite Hload. reflexivity.
  - intros fuel' env' db'. unfold LoadBlockIndex.
    rewrite bool_decide_eq_true_2; [reflexivity |].
    destruct Hl as (Hm & _).
    assert (Hne : mapBlockIndex st' <> ∅).
    { intros Hc. rewrite Hc, lookup_empty in Hm. discriminate. }
    apply map_size_non_empty_iff in Hne. lia.
Qed.

Lemma load_records_fails_only_on_CheckIndex_witness :
  let env := sample_Env_checking 1 in
  let db := sample_DB 4 None (sample_txindex 1 50) in
  (exists d p node,
      d ∈ db_blockindex db
      /\ record_loaded env (stopped env db) d p node
      /\ CheckIndex env node = false
      /\ LoadFalse (CheckIndexFailed 2)
         = LoadFalse (CheckIndexFailed (DiskBlockIndex.nHeight d)))
  /\ (mapBlockIndex initial_State = ∅ ->
      forall fuel,
        LoadBlockIndex fuel env db initial_State
        = Some (Returns (LoadFalse (CheckIndexFailed 2), stopped env db))
        /\ forall fuel' env' db',
             LoadBlockIndex fuel' env' db' (stopped env db)
             = Some (Returns (LoadTrue, stopped env db))).
Proof.
  apply (load_records_fails_only_on_CheckIndex (sample_Env_checking 1)
           (sample_DB 4 None (sample_txindex 1 50)) initial_State).
  - exact (sample_Env_sane (-1) 1 500 16 16 ltac:(lia)).
  - compute_done.
  - compute_done.
  - apply Forall_forall. compute_done.
  - vm_compute. reflexivity.
Defined.

(** X17. Shutdown comes first: with the flag set, [LoadBlockIndex] on an
    empty index returns [true] whatever the database holds, having read
    the flag once or twice and done nothing else: no record is loaded,
    and the best-chain globals are not set. *)
Theorem LoadBlockIndex_shutdown_returns_true
    (fuel : nat) (env : Env) (db : DB) (st : State) :
  mapBlockIndex st = ∅ ->
  (forall n, (nShutdownReads st <= n)%nat -> fRequestShutdown env n = true) ->
  exists k : nat,
    (1 <= k <= 2)%nat
    /\ LoadBlockIndex fuel env db st = Some (Returns (LoadTrue, Nat.iter k tick st)).
Proof.
  intros Hempty Hshut. unfold LoadBlockIndex. rewrite Hempty, map_size_empty.
  rewrite bool_decide_eq_false_2 by lia.
  destruct (NewIterator_Seek_blockindex db) as [| entry iterator].
  - exists 1%nat. split; [lia |]. cbn [load_records poll]. rewrite Hshut by lia. reflexivity.
  - exists 2%nat. split; [lia |]. cbn [load_records poll]. rewrite Hshut by lia.
    cbn [orb poll]. rewrite Hshut by (simpl; lia). reflexivity.
Qed.

Lemma LoadBlockIndex_shutdown_returns_true_witness :
  exists k : nat,
    (1 <= k <= 2)%nat
    /\ LoadBlockIndex 0 (set_fRequestShutdown (fun _ => true) (sample_Env 1 500 16 16))
         (sample_DB 10 (Some 109) (sample_txindex 1 50)) initial_State
       = Some (Returns (LoadTrue, Nat.iter k tick initial_State)).
Proof.
  apply (LoadBlockIndex_shutdown_returns_true 0
           (set_fRequestShutdown (fun _ => true) (sample_Env 1 500 16 16))
           (sample_DB 10 (Some 109) (sample_txindex 1 50)) initial_State);
    reflexivity.
Defined.

(** ** The loader: what Phase 2 touches *)

Lemma same_but_trust_refl (node : CBlockIndex) : same_but_trust node node.
Proof.
  exists (BlockIndex.nChainTrust node), (BlockIndex.nStakeModifierChecksum node).
  destruct node. reflexivity.
Qed.

Lemma heap_same_but_trust_refl (h : gmap Z CBlockIndex) : heap_same_but_trust h h.
Proof. intros p. destruct (h !! p); [apply same_but_trust_refl | exact I]. Qed.

Section Phase2Frame.

Variable env : Env.
Variable st0 : State.

Lemma chain_trust_step_frame (pindex : Z) (st : State) :
  heap_same_but_trust (heap st0) (heap st) ->
  is_Some (heap st0 !! pindex) ->
  (forall node q, heap st0 !! pindex = Some node -> BlockIndex.pprev node = Some q ->
                  is_Some (heap st0 !! q)) ->
  exists r h' node',
    chain_trust_step env pindex st = Returns r
    /\ flow_state r = set_heap h' st
    /\ heap_same_but_trust (heap st0) h'
    /\ (forall q, q <> pindex -> h' !! q = heap st !! q)
    /\ h' !! pindex = Some node'
    /\ match r with
       | Next _ =>
           CheckStakeModifierCheckpoints env (BlockIndex.nHeight node')
             (BlockIndex.nStakeModifierChecksum node') = true
       | Return e _ =>
           CheckStakeModifierCheckpoints env (BlockIndex.nHeight node')
             (BlockIndex.nStakeModifierChecksum node') = false
           /\ e = LoadFalse (StakeModifierCheckpointFailed (BlockIndex.nHeight node'))
       end.
Proof.
  intros Hrel [node0 Hnode0] Hparent. unfold chain_trust_step.
  pose proof (Hrel pindex) as Hp. rewrite Hnode0 in Hp.
  destruct (heap st !! pindex) as [node |] eqn:Hnode; [| destruct Hp].
  destruct Hp as (t0 & c0 & Hnode_eq).
  rewrite (deref_Some _ _ _ Hnode). cbn [mbind Outcome_bind].
  assert (Hprev : exists prevTrust,
             match BlockIndex.pprev node with
             | Some pprev => prev ← deref st pprev; Returns (BlockIndex.nChainTrust prev)
             | None => Returns 0
             end = Returns prevTrust).
  { assert (Hpp : BlockIndex.pprev node = BlockIndex.pprev node0) by (subst node; reflexivity).
    rewrite Hpp. destruct (BlockIndex.pprev node0) as [q |] eqn:Hq; [| eauto].
    destruct (Hparent node0 q Hnode0 Hq) as [nq Hnq].
    pose proof (Hrel q) as Hrq. rewrite Hnq in Hrq.
    destruct (heap st !! q) as [nq' |] eqn:Hnq'; [| destruct Hrq].
    rewrite (deref_Some _ _ _ Hnq'). cbn [mbind Outcome_bind]. eauto. }
  destruct Hprev as (prevTrust & ->). cbn [mbind Outcome_bind].
  set (node1 := BlockIndex.set_nChainTrust _ node).
  set (st1 := store pindex node1 st).
  set (node2 := BlockIndex.set_nStakeModifierChecksum _ node1).
  set (h' := <[pindex := node2]> (<[pindex := node1]> (heap st))).
  assert (Hst2 : store pindex node2 st1 = set_heap h' st) by reflexivity.
  rewrite Hst2.
  assert (Hrel' : heap_same_but_trust (heap st0) h').
  { intros q. unfold h'. destruct (decide (q = pindex)) as [-> | Hq].
    - rewrite Hnode0, lookup_insert_eq.
      exists (BlockIndex.nChainTrust node1), (BlockIndex.nStakeModifierChecksum node2).
      subst node. reflexivity.
    - rewrite !lookup_insert_ne by congruence. apply Hrel. }
  assert (Hother : forall q, q <> pindex -> h' !! q = heap st !! q).
  { intros q Hq. unfold h'. rewrite !lookup_insert_ne by congruence. reflexivity. }
  assert (Hat : h' !! pindex = Some node2) by (unfold h'; apply lookup_insert_eq).
  destruct (CheckStakeModifierCheckpoints env (BlockIndex.nHeight node2)
              (BlockIndex.nStakeModifierChecksum node2)) eqn:Hcheck; cbn [negb].
  - exists (Next (set_heap h' st)), h', node2.
    split; [reflexivity |]. split; [reflexivity |]. split; [exact Hrel' |].
    split; [exact Hother |]. split; [exact Hat |]. exact Hcheck.
  - exists (Return (LoadFalse (StakeModifierCheckpointFailed (BlockIndex.nHeight node2)))
              (set_heap h' st)), h', node2.
    split; [reflexivity |]. split; [reflexivity |]. split; [exact Hrel' |].
    split; [exact Hother |]. split; [exact Hat |]. split; [exact Hcheck | reflexivity].
Qed.

Lemma chain_trust_loop_frame (items : list (Z * Z)) :
  forall st : State,
    heap_same_but_trust (heap st0) (heap st) ->
    (forall x, x ∈ items -> is_Some (heap st0 !! x.2)) ->
    (forall x node q, x ∈ items -> heap st0 !! x.2 = Some node ->
                      BlockIndex.pprev node = Some q -> is_Some (heap st0 !! q)) ->
    exists r h',
      chain_trust_loop env items st = Returns r
      /\ flow_state r = set_heap h' st
      /\ heap_same_but_trust (heap st0) h'
      /\ (forall q, q ∉ items.*2 -> h' !! q = heap st !! q)
      /\ match r with
         | Next _ =>
             forall x node', x ∈ items -> h' !! x.2 = Some node' ->
               CheckStakeModifierCheckpoints env (BlockIndex.nHeight node')
                 (BlockIndex.nStakeModifierChecksum node') = true
         | Return e _ =>
             exists x node',
               x ∈ items /\ h' !! x.2 = Some node'
               /\ CheckStakeModifierCheckpoints env (BlockIndex.nHeight node')
                    (BlockIndex.nStakeModifierChecksum node') = false
               /\ e = LoadFalse (StakeModifierCheckpointFailed (BlockIndex.nHeight node'))
         end.
Proof.
  induction items as [| [height pindex] items IH]; intros st Hrel Hlive Hparent.
  - exists (Next st), (heap st). simpl. split; [reflexivity |].
    split; [destruct st; reflexivity |]. split; [exact Hrel |]. split; [auto |].
    intros x node' Hx. inversion Hx.
  - cbn [chain_trust_loop].
    destruct (chain_trust_step_frame pindex st Hrel) as
      (r1 & h1 & node1 & Hrun1 & Hst1 & Hrel1 & Hother1 & Hat1 & Hres1).
    { apply (Hlive (height, pindex)). left. }
    { intros node q. apply (Hparent (height, pindex)). left. }
    rewrite Hrun1. cbn [mbind Outcome_bind].
    destruct r1 as [st1 | e st1]; simpl in Hst1; subst st1.
    + destruct (IH (set_heap h1 st)) as (r & h' & Hrun & Hst & Hrel' & Hother & Hres).
      { exact Hrel1. }
      { intros x Hx. apply Hlive. right. exact Hx. }
      { intros x node q Hx. apply Hparent. right. exact Hx. }
      exists r, h'. split; [exact Hrun |]. split; [rewrite Hst; reflexivity |].
      split; [exact Hrel' |]. split.
      { intros q Hq. rewrite Hother.
        - simpl. apply Hother1. intros ->. apply Hq. left.
        - intros Hin. apply Hq. right. exact Hin. }
      destruct r as [st' | e st'].
      * intros x node' Hx Hnode'. apply elem_of_cons in Hx as [-> | Hx];
          [| exact (Hres x node' Hx Hnode')].
        simpl in Hnode'.
        destruct (decide (pindex ∈ items.*2)) as [Hin | Hnin].
        -- apply list_elem_of_fmap in Hin as (y & Hy & Hin). 
           apply (Hres y node' Hin). rewrite <- Hy. exact Hnode'.
        -- rewrite (Hother pindex Hnin) in Hnode'. simpl in Hnode'.
           rewrite Hat1 in Hnode'. injection Hnode' as <-. exact Hres1.
      * destruct Hres as (x & node' & Hx & Hrest). exists x, node'.
        split; [right; exact Hx | exact Hrest].
    + exists (Return e (set_heap h1 st)), h1. split; [reflexivity |].
      split; [reflexivity |]. split; [exact Hrel1 |]. split.
      { intros q Hq. apply Hother1. intros ->. apply Hq. left. }
      exists (height, pindex), node1. split; [left |]. split; [exact Hat1 |]. exact Hres1.
Qed.

End Phase2Frame.

(** X18. Phase 2 on a well-formed index dereferences nothing dangling
    and writes two fields only: it returns, the index map, every global
    and every node outside the index are as before, and the nodes are
    where they were with all their fields but [nChainTrust] and
    [nStakeModifierChecksum]. When it returns [false], the node of some
    entry failed the stake-modifier checkpoint, and the error names that
    node's height; when it falls through, every node of the index passes
    the checkpoint test. *)
Theorem calculate_chain_trust_frame (env : Env) (st : State) :
  index_well_formed st ->
  exists r h',
    calculate_chain_trust env st = Returns r
    /\ flow_state r = set_heap h' st
    /\ heap_same_but_trust (heap st) h'
    /\ (forall p, (forall hash, mapBlockIndex st !! hash <> Some p) -> h' !! p = heap st !! p)
    /\ match r with
       | Next _ =>
           forall hash p node',
             mapBlockIndex st !! hash = Some p -> h' !! p = Some node' ->
             CheckStakeModifierCheckpoints env (BlockIndex.nHeight node')
               (BlockIndex.nStakeModifierChecksum node') = true
       | Return e _ =>
           exists hash p node',
             mapBlockIndex st !! hash = Some p /\ h' !! p = Some node'
             /\ CheckStakeModifierCheckpoints env (BlockIndex.nHeight node')
                  (BlockIndex.nStakeModifierChecksum node') = false
             /\ e = LoadFalse (StakeModifierCheckpointFailed (BlockIndex.nHeight node'))
       end.
Proof.
  intros (Hnodes & Hindexed & Hdistinct).
  unfold calculate_chain_trust. rewrite (vSortedByHeight_Returns st Hnodes).
  cbn [mbind Outcome_bind].
  set (v := merge_sort pair_le _).
  assert (Hv : forall x, x ∈ v <-> x.1 = height_at st x.2
                                   /\ exists hash, mapBlockIndex st !! hash = Some x.2)
    by (intros x; apply sorted_pairs_elem).
  destruct (chain_trust_loop_frame env st v st (heap_same_but_trust_refl _)) as
    (r & h' & Hrun & Hst & Hrel & Hother & Hres).
  { intros x Hx. apply Hv in Hx as (_ & hash & Hm). exact (Hnodes hash _ Hm). }
  { intros x node q Hx Hnode Hq. apply Hv in Hx as (_ & hash & Hm).
    specialize (Hindexed hash _ Hm). unfold parent_indexed in Hindexed.
    rewrite Hnode, Hq in Hindexed. apply elem_of_map_img in Hindexed as (hash' & Hm').
    exact (Hnodes hash' _ Hm'). }
  exists r, h'. split; [exact Hrun |]. split; [exact Hst |]. split; [exact Hrel |]. split.
  { intros p Hp. apply Hother. intros Hin. apply list_elem_of_fmap in Hin as (x & -> & Hx).
    apply Hv in Hx as (_ & hash & Hm). exact (Hp hash Hm). }
  destruct r as [st' | e st'].
  - intros hash p node' Hm Hnode'. apply (Hres (height_at st p, p)); [| exact Hnode'].
    apply Hv. simpl. eauto.
  - destruct Hres as (x & node' & Hx & Hrest). apply Hv in Hx as (_ & hash & Hm).
    exists hash, x.2, node'. split; [exact Hm | exact Hrest].
Qed.

Lemma calculate_chain_trust_frame_witness :
  let env := sample_Env 1 500 16 16 in
  let st := loaded env sample_fork_DB in
  exists r h',
    calculate_chain_trust env st = Returns r
    /\ flow_state r = set_heap h' st
    /\ heap_same_but_trust (heap st) h'
    /\ (forall p, (forall hash, mapBlockIndex st !! hash <> Some p) -> h' !! p = heap st !! p)
    /\ match r with
       | Next _ =>
           forall hash p node',
             mapBlockIndex st !! hash = Some p -> h' !! p = Some node' ->
             CheckStakeModifierCheckpoints env (BlockIndex.nHeight node')
               (BlockIndex.nStakeModifierChecksum node') = true
       | Return e _ =>
           exists hash p node',
             mapBlockIndex st !! hash = Some p /\ h' !! p = Some node'
             /\ CheckStakeModifierCheckpoints env (BlockIndex.nHeight node')
                  (BlockIndex.nStakeModifierChecksum node') = false
             /\ e = LoadFalse (StakeModifierCheckpointFailed (BlockIndex.nHeight node'))
       end.
Proof.
  apply (calculate_chain_trust_frame (sample_Env 1 500 16 16)
           (loaded (sample_Env 1 500 16 16) sample_fork_DB)).
  compute_done.
Defined.

(** How Phase 2 ends on a well-formed index: it falls through with every
    node of the index passing the stake-modifier checkpoint test, or it
    returns [false] at a node that fails it. *)
Lemma calculate_chain_trust_flow (env : Env) (st : State) :
  index_well_formed st ->
  exists r,
    calculate_chain_trust env st = Returns r
    /\ match r with
       | Next st' =>
           forall hash p node',
             mapBlockIndex st !! hash = Some p -> heap st' !! p = Some node' ->
             CheckStakeModifierCheckpoints env (BlockIndex.nHeight node')
               (BlockIndex.nStakeModifierChecksum node') = true
       | Return e st' =>
           exists hash p node',
             mapBlockIndex st !! hash = Some p /\ heap st' !! p = Some node'
             /\ CheckStakeModifierCheckpoints env (BlockIndex.nHeight node')
                  (BlockIndex.nStakeModifierChecksum node') = false
             /\ e = LoadFalse (StakeModifierCheckpointFailed (BlockIndex.nHeight node'))
       end.
Proof.
  intros (Hnodes & Hindexed & Hdistinct).
  unfold calculate_chain_trust. rewrite (vSortedByHeight_Returns st Hnodes).
  cbn [mbind Outcome_bind].
  set (v := merge_sort pair_le _).
  assert (Hv : forall x, x ∈ v <-> x.1 = height_at st x.2
                                   /\ exists hash, mapBlockIndex st !! hash = Some x.2)
    by (intros x; apply sorted_pairs_elem).
  destruct (chain_trust_loop_frame env st v st (heap_same_but_trust_refl _)) as
    (r & h' & Hrun & Hst & _ & _ & Hres).
  { intros x Hx. apply Hv in Hx as (_ & hash & Hm). exact (Hnodes hash _ Hm). }
  { intros x node q Hx Hnode Hq. apply Hv in Hx as (_ & hash & Hm).
    specialize (Hindexed hash _ Hm). unfold parent_indexed in Hindexed.
    rewrite Hnode, Hq in Hindexed. apply elem_of_map_img in Hindexed as (hash' & Hm').
    exact (Hnodes hash' _ Hm'). }
  exists r. split; [exact Hrun |].
  destruct r as [st' | e st']; simpl in Hst; subst st'.
  - intros hash p node' Hm Hnode'. apply (Hres (height_at st p, p)); [| exact Hnode'].
    apply Hv. simpl. eauto.
  - destruct Hres as (x & node' & Hx & Hrest). apply Hv in Hx as (_ & hash & Hm).
    exists hash, x.2, node'. split; [exact Hm | exact Hrest].
Qed.

(** C1 (amended): when Phase 1 has streamed the records into an empty
    index and every loaded node with a parent is higher than its parent
    (which the loader does not check), Phase 2 returns. It falls through
    exactly when no node fails the stake-modifier checkpoint test, and
    then every node of [mapBlockIndex] satisfies
    [nChainTrust = (pprev ? pprev->nChainTrust : 0) + GetBlockTrust()],
    its chain trust is the sum of the block trusts along its parent
    chain down to the node without parent, both in 256-bit arithmetic,
    and its checksum passes the test; otherwise Phase 2 returns [false]
    with the height of a node of the index whose checksum fails it. *)
Theorem chain_trust_is_sum_of_block_trust
    (env : Env) (iterator : list Entry) (st0 st1 : State) :
  env_sane env ->
  block_trust_stable env ->
  mapBlockIndex st0 = ∅ ->
  load_records env iterator st0 = Returns (Next st1) ->
  parents_lower st1 ->
  exists r,
    calculate_chain_trust env (tick st1) = Returns r
    /\ match r with
       | Next st2 =>
           mapBlockIndex st2 = mapBlockIndex st1
           /\ forall hash pindex,
                mapBlockIndex st2 !! hash = Some pindex ->
                exists node chain,
                  heap st2 !! pindex = Some node
                  /\ BlockIndex.nChainTrust node
                     = add256 (parent_trust st2 node) (GetBlockTrust env node)
                  /\ parent_chain st2 pindex chain
                  /\ BlockIndex.nChainTrust node = sum_block_trust env chain mod 2 ^ 256
                  /\ CheckStakeModifierCheckpoints env (BlockIndex.nHeight node)
                       (BlockIndex.nStakeModifierChecksum node) = true
       | Return e st2 =>
           exists hash pindex node,
             mapBlockIndex st1 !! hash = Some pindex
             /\ heap st2 !! pindex = Some node
             /\ CheckStakeModifierCheckpoints env (BlockIndex.nHeight node)
                  (BlockIndex.nStakeModifierChecksum node) = false
             /\ e = LoadFalse (StakeModifierCheckpointFailed (BlockIndex.nHeight node))
       end.
Proof.
  intros Hsane Hstable Hempty Hload Hlower.
  assert (Hwf : index_well_formed (tick st1))
    by exact (load_records_well_formed env iterator st0 st1 Hsane Hempty Hload).
  destruct (calculate_chain_trust_ok env (tick st1) Hstable Hwf Hlower) as (r & Hr & Hok).
  destruct (calculate_chain_trust_flow env (tick st1) Hwf) as (r' & Hr' & Hflow).
  assert (Heq : r' = r) by congruence. subst r'.
  exists r. split; [exact Hr |].
  destruct r as [st2 | e st2].
  - destruct (Hok st2 eq_refl) as (Hmap & Hgood). split; [exact Hmap |].
    intros hash pindex Hm.
    destruct (Hgood hash pindex Hm) as (node & chain & Hnode & Hlocal & Hchain & Hsum).
    exists node, chain. split; [exact Hnode |]. split; [exact Hlocal |].
    split; [exact Hchain |]. split; [exact Hsum |].
    apply (Hflow hash pindex node); [| exact Hnode].
    rewrite Hmap in Hm. exact Hm.
  - exact Hflow.
Qed.

Lemma chain_trust_is_sum_of_block_trust_witness :
  let env := sample_Env 2 10 16 16 in
  let db := sample_DB 10 (Some 109) (sample_txindex 1 50) in
  let st1 := loaded env db in
  let st2 := after_chain_trust env db in
  calculate_chain_trust env (tick st1) = Returns (Next st2)
  /\ mapBlockIndex st2 = mapBlockIndex st1
  /\ forall hash pindex,
       mapBlockIndex st2 !! hash = Some pindex ->
       exists node chain,
         heap st2 !! pindex = Some node
         /\ BlockIndex.nChainTrust node
            = add256 (parent_trust st2 node) (GetBlockTrust env node)
         /\ parent_chain st2 pindex chain
         /\ BlockIndex.nChainTrust node = sum_block_trust env chain mod 2 ^ 256
         /\ CheckStakeModifierCheckpoints env (BlockIndex.nHeight node)
              (BlockIndex.nStakeModifierChecksum node) = true.
Proof.
  cbv zeta.
  destruct (chain_trust_is_sum_of_block_trust (sample_Env 2 10 16 16)
              (NewIterator_Seek_blockindex (sample_DB 10 (Some 109) (sample_txindex 1 50)))
              initial_State
              (loaded (sample_Env 2 10 16 16) (sample_DB 10 (Some 109) (sample_txindex 1 50))))
    as (r & Hr & Hres).
  - apply sample_Env_sane. lia.
  - intros node trust checksum. reflexivity.
  - reflexivity.
  - vm_compute. reflexivity.
  - compute_done.
  - assert (Hrun : calculate_chain_trust (sample_Env 2 10 16 16)
                     (tick (loaded (sample_Env 2 10 16 16)
                              (sample_DB 10 (Some 109) (sample_txindex 1 50))))
                   = Returns (Next (after_chain_trust (sample_Env 2 10 16 16)
                                      (sample_DB 10 (Some 109) (sample_txindex 1 50)))))
      by (vm_compute; reflexivity).
    assert (Heq : r = Next (after_chain_trust (sample_Env 2 10 16 16)
                              (sample_DB 10 (Some 109) (sample_txindex 1 50))))
      by congruence.
    subst r. split; [exact Hrun | exact Hres].
Defined.

(** C1, as stated, fails on records that give a block and its
    predecessor the same height: the block of hash 100 (trust 4) names
    the block of hash 101 (trust 3) as its predecessor and both have
    height 0. The sort puts the block, at the lower address, first; its
    chain trust is computed from the chain trust 0 that its predecessor
    still has and stays 4, while the block trusts along its parent chain
    sum to 7. Nothing fails: the load returns [true]. *)
Lemma chain_trust_not_sum_for_equal_heights :
  env_sane (sample_Env 1 500 16 16)
  /\ block_trust_stable (sample_Env 1 500 16 16)
  /\ load_records (sample_Env 1 500 16 16) (NewIterator_Seek_blockindex sample_flat_DB)
       initial_State
     = Returns (Next (loaded (sample_Env 1 500 16 16) sample_flat_DB))
  /\ calculate_chain_trust (sample_Env 1 500 16 16)
       (tick (loaded (sample_Env 1 500 16 16) sample_flat_DB))
     = Returns (Next (after_chain_trust (sample_Env 1 500 16 16) sample_flat_DB))
  /\ (exists st,
        LoadBlockIndex 2 (sample_Env 1 500 16 16) sample_flat_DB initial_State
        = Some (Returns (LoadTrue, st))
        /\ heap st = heap (after_chain_trust (sample_Env 1 500 16 16) sample_flat_DB))
  /\ ~ parents_lower (loaded (sample_Env 1 500 16 16) sample_flat_DB)
  /\ mapBlockIndex (after_chain_trust (sample_Env 1 500 16 16) sample_flat_DB) !! 100
     = Some 16
  /\ exists node parent,
       heap (after_chain_trust (sample_Env 1 500 16 16) sample_flat_DB) !! 16 = Some node
       /\ heap (after_chain_trust (sample_Env 1 500 16 16) sample_flat_DB) !! 32
          = Some parent
       /\ BlockIndex.pprev node = Some 32
       /\ BlockIndex.pprev parent = None
       /\ BlockIndex.nHeight node = 0
       /\ BlockIndex.nHeight parent = 0
       /\ GetBlockTrust (sample_Env 1 500 16 16) node = 4
       /\ GetBlockTrust (sample_Env 1 500 16 16) parent = 3
       /\ BlockIndex.nChainTrust parent = 3
       /\ BlockIndex.nChainTrust node = 4
       /\ add256 (parent_trust (after_chain_trust (sample_Env 1 500 16 16) sample_flat_DB)
                    node)
            (GetBlockTrust (sample_Env 1 500 16 16) node) = 7
       /\ parent_chain (after_chain_trust (sample_Env 1 500 16 16) sample_flat_DB) 16
            [node; parent]
       /\ sum_block_trust (sample_Env 1 500 16 16) [node; parent] mod 2 ^ 256 = 7.
Proof.
  split; [apply sample_Env_sane; lia |].
  split; [intros node trust checksum; reflexivity |].
  split; [vm_compute; reflexivity |].
  split; [vm_compute; reflexivity |].
  split; [eexists; split; vm_compute; reflexivity |].
  split; [compute_done |].
  split; [vm_compute; reflexivity |].
  eexists _, _.
  split; [vm_compute; reflexivity |].
  split; [vm_compute; reflexivity |].
  split; [reflexivity |]. split; [reflexivity |].
  split; [reflexivity |]. split; [reflexivity |].
  split; [reflexivity |]. split; [reflexivity |].
  split; [reflexivity |]. split; [reflexivity |].
  split; [vm_compute; reflexivity |].
  split; [| vm_compute; reflexivity].
  eapply parent_chain_step; [vm_compute; reflexivity | reflexivity |].
  apply parent_chain_genesis; [vm_compute; reflexivity | reflexivity].
Qed.

(** ** The loader: the best chain *)

Lemma parent_chain_heap (st st' : State) (pindex : Z) (chain : list CBlockIndex) :
  heap st' = heap st -> parent_chain st pindex chain -> parent_chain st' pindex chain.
Proof.
  intros Hheap Hchain. induction Hchain as [p node Hn Hp | p node q chain Hn Hp _ IH].
  - apply parent_chain_genesis; [rewrite Hheap; exact Hn | exact Hp].
  - eapply parent_chain_step; [rewrite Hheap; exact Hn | exact Hp | exact IH].
Qed.

(** X19. Phases 2 and 3 together, on a well-formed index (every entry
    the address of a live node, the parent of an indexed node indexed,
    no address under two hashes) in which every node that has a parent
    is higher than it, and with a [GetBlockTrust] that does not read the
    two fields Phase 2 writes: when both phases fall through, the
    best-chain globals describe the node registered under the stored
    [hashBestChain]: [pindexBest] is its address, [nBestHeight] its
    height, and [nBestChainTrust] the sum, in 256-bit arithmetic, of the
    block trusts along its parent chain down to a block without parent.
    The checkpoint and the best invalid trust are the stored ones, the
    latter 0 when none is stored. *)
Theorem load_best_chain_sets_tip
    (env : Env) (db : DB) (st st1 st2 : State) :
  block_trust_stable env ->
  index_well_formed st ->
  parents_lower st ->
  calculate_chain_trust env st = Returns (Next st1) ->
  load_best_chain env db st1 = Returns (Next st2) ->
  exists pindex node chain,
    db_hashBestChain db = Some (hashBestChain st2)
    /\ mapBlockIndex st2 !! hashBestChain st2 = Some pindex
    /\ pindexBest st2 = Some pindex
    /\ heap st2 !! pindex = Some node
    /\ nBestHeight st2 = BlockIndex.nHeight node
    /\ parent_chain st2 pindex chain
    /\ nBestChainTrust st2 = sum_block_trust env chain mod 2 ^ 256
    /\ db_hashSyncCheckpoint db = Some (hashSyncCheckpoint st2)
    /\ nBestInvalidTrust st2 = default 0 (db_bnBestInvalidTrust db)
    /\ mapBlockIndex st2 = mapBlockIndex st.
Proof.
  intros Hstable Hwf Hlower Htrust Hbest.
  destruct (calculate_chain_trust_ok env st Hstable Hwf Hlower) as (r & Hr & Hok).
  rewrite Htrust in Hr. injection Hr as <-.
  destruct (Hok st1 eq_refl) as (Hmap & Hnodes).
  revert Hbest. unfold load_best_chain.
  destruct (db_hashBestChain db) as [hash |]; [| destruct (negb _); discriminate].
  cbn [mapBlockIndex set_best].
  destruct (mapBlockIndex st1 !! hash) as [pindex |] eqn:Hfind; [| discriminate].
  destruct (Hnodes hash pindex Hfind) as (node & chain & Hnode & _ & Hchain & Hsum).
  unfold deref. cbn [heap set_best]. rewrite Hnode. cbn [mbind Outcome_bind].
  destruct (db_hashSyncCheckpoint db) as [checkpoint |]; [| discriminate].
  intros [= <-]. exists pindex, node, chain. simpl.
  split; [reflexivity |]. split; [exact Hfind |]. split; [reflexivity |].
  split; [exact Hnode |]. split; [reflexivity |]. split.
  { apply (parent_chain_heap st1); [reflexivity | exact Hchain]. }
  split; [exact Hsum |]. split; [reflexivity |]. split; [reflexivity | exact Hmap].
Qed.

Lemma load_best_chain_sets_tip_witness :
  let env := sample_Env 1 10 16 16 in
  let db := sample_DB 10 (Some 109) (sample_txindex 1 50) in
  let st2 := before_self_check env db in
  exists pindex node chain,
    db_hashBestChain db = Some (hashBestChain st2)
    /\ mapBlockIndex st2 !! hashBestChain st2 = Some pindex
    /\ pindexBest st2 = Some pindex
    /\ heap st2 !! pindex = Some node
    /\ nBestHeight st2 = BlockIndex.nHeight node
    /\ parent_chain st2 pindex chain
    /\ nBestChainTrust st2 = sum_block_trust env chain mod 2 ^ 256
    /\ db_hashSyncCheckpoint db = Some (hashSyncCheckpoint st2)
    /\ nBestInvalidTrust st2 = default 0 (db_bnBestInvalidTrust db)
    /\ mapBlockIndex st2 = mapBlockIndex (tick (loaded env db)).
Proof.
  apply (load_best_chain_sets_tip (sample_Env 1 10 16 16)
           (sample_DB 10 (Some 109) (sample_txindex 1 50))
           (tick (loaded (sample_Env 1 10 16 16)
                    (sample_DB 10 (Some 109) (sample_txindex 1 50))))
           (after_chain_trust (sample_Env 1 10 16 16)
              (sample_DB 10 (Some 109) (sample_txindex 1 50)))).
  - intros node trust checksum. reflexivity.
  - compute_done.
  - compute_done.
  - vm_compute. reflexivity.
  - vm_compute. reflexivity.
Defined.

(** ** The self-check: which blocks it warns about *)

(** The first node a walk has to check, and the rest. *)
Lemma checked_inv (h : gmap Z CBlockIndex) (bound pindex p : Z) (node' : CBlockIndex) :
  checked h bound (Some pindex) p node' ->
  exists node pprev,
    h !! pindex = Some node
    /\ BlockIndex.pprev node = Some pprev
    /\ bound <= BlockIndex.nHeight node
    /\ ((p = pindex /\ node' = node) \/ checked h bound (Some pprev) p node').
Proof.
  intros Hc. inversion Hc; subst; eauto 10.
Qed.

Section WalkRange.

Variable env : Env.
Variable db : DB.
Variable nCheckLevel : Z.
Variable nCheckDepth : Z.

Lemma walk_range (fuel : nat) :
  forall (pindex : option Z) (w : Walk) (st : State) (o : Flow (Walk * State)),
    walk fuel env db nCheckLevel nCheckDepth pindex w st = Some (Returns o) ->
    Forall (warning_in_depth st (nBestHeight st - nCheckDepth)) (walk_events w) ->
    (pindexFork w = None <-> walk_events w = []) ->
    exists (w' : Walk) (k : nat),
      Forall (warning_in_depth st (nBestHeight st - nCheckDepth)) (walk_events w')
      /\ (pindexFork w' = None <-> walk_events w' = [])
      /\ match o with
         | Next (w'', st') => w'' = w' /\ st' = Nat.iter k tick st
         | Return e st' =>
             e = LoadFalse BlockReadFromDiskFailed
             /\ st' = log_events w' (Nat.iter k tick st)
         end.
Proof.
  induction fuel as [| fuel IH]; intros pindex w st o; simpl; [discriminate |].
  intros Hwalk Hall Hfork.
  destruct pindex as [pindex |];
    [| injection Hwalk as <-; exists w, O; auto].
  destruct (heap st !! pindex) as [node |] eqn:Hnode; [| discriminate].
  destruct (BlockIndex.pprev node) as [pprev |] eqn:Hprev;
    [| injection Hwalk as <-; exists w, O; auto].
  destruct (fRequestShutdown env (nShutdownReads st));
    [injection Hwalk as <-; exists w, 1%nat; auto |].
  destruct (negb (fits_int _)); [discriminate |].
  destruct (bool_decide (BlockIndex.nHeight node < _)) eqn:Hbreak;
    [injection Hwalk as <-; exists w, 1%nat; auto |].
  apply bool_decide_eq_false in Hbreak. cbn [nBestHeight tick] in Hbreak.
  destruct (Block_ReadFromDisk env node) as [block |];
    [| injection Hwalk as <-; exists w, 1%nat; auto].
  destruct (check_block env db nCheckLevel pindex node block w) as [w1 | | |] eqn:Hcheck;
    try discriminate.
  apply check_block_flags in Hcheck as (ws & Hev & Hf).
  destruct (IH (Some pprev) w1 (tick st) o Hwalk) as (w' & k & Hall' & Hfork' & Hres).
  - rewrite Hev. apply Forall_app. split; [exact Hall |].
    apply Forall_fmap. apply Forall_forall. intros warning _. simpl.
    exists node. split; [exact Hnode |]. split; [rewrite Hprev; eauto |].
    change (nBestHeight (tick st)) with (nBestHeight st). lia.
  - rewrite Hev, Hf. destruct ws as [| warning ws].
    + simpl. rewrite app_nil_r. exact Hfork.
    + rewrite Hprev. split; [discriminate |]. intros Hnil.
      apply app_eq_nil in Hnil as [_ Hnil]. discriminate.
  - exists w', (S k). split; [exact Hall' |]. split; [exact Hfork' |].
    rewrite Nat.iter_succ_r. exact Hres.
Qed.

(** At check level 0 and below no check is made on the blocks read. *)
Lemma walk_level_0 (fuel : nat) :
  nCheckLevel <= 0 ->
  forall (pindex : option Z) (w : Walk) (st : State) (o : Flow (Walk * State)),
    walk fuel env db nCheckLevel nCheckDepth pindex w st = Some (Returns o) ->
    exists k : nat,
      match o with
      | Next (w', st') => w' = w /\ st' = Nat.iter k tick st
      | Return e st' =>
          e = LoadFalse BlockReadFromDiskFailed /\ st' = log_events w (Nat.iter k tick st)
      end.
Proof.
  intros Hlevel. induction fuel as [| fuel IH]; intros pindex w st o; simpl; [discriminate |].
  intros Hwalk.
  destruct pindex as [pindex |]; [| injection Hwalk as <-; exists O; auto].
  destruct (heap st !! pindex) as [node |] eqn:Hnode; [| discriminate].
  destruct (BlockIndex.pprev node) as [pprev |] eqn:Hprev;
    [| injection Hwalk as <-; exists O; auto].
  destruct (fRequestShutdown env (nShutdownReads st));
    [injection Hwalk as <-; exists 1%nat; auto |].
  destruct (negb (fits_int _)); [discriminate |].
  destruct (bool_decide (BlockIndex.nHeight node < _));
    [injection Hwalk as <-; exists 1%nat; auto |].
  destruct (Block_ReadFromDisk env node) as [block |];
    [| injection Hwalk as <-; exists 1%nat; auto].
  assert (Hcheck : check_block env db nCheckLevel pindex node block w = Returns w).
  { unfold check_block. rewrite !bool_decide_eq_false_2 by lia. reflexivity. }
  rewrite Hcheck in Hwalk.
  destruct (IH (Some pprev) w (tick st) o Hwalk) as (k & Hres).
  exists (S k). rewrite Nat.iter_succ_r. exact Hres.
Qed.

(** A node that is its own parent keeps the walk going for ever. *)
Lemma walk_self_parent (pindex : Z) (node : CBlockIndex) (fuel : nat) :
  BlockIndex.pprev node = Some pindex ->
  (forall n, fRequestShutdown env n = false) ->
  is_Some (Block_ReadFromDisk env node) ->
  nCheckLevel <= 4 ->
  forall (w : Walk) (st : State),
    heap st !! pindex = Some node ->
    fits_int (nBestHeight st - nCheckDepth) = true ->
    nBestHeight st - nCheckDepth <= BlockIndex.nHeight node ->
    walk fuel env db nCheckLevel nCheckDepth (Some pindex) w st = None.
Proof.
  intros Hprev Hshut [block Hblock] Hlevel.
  induction fuel as [| fuel IH]; intros w st Hnode Hint Hheight; simpl; [reflexivity |].
  rewrite Hnode, Hprev, Hshut, Hblock.
  cbn [nBestHeight tick]. rewrite Hint. cbn [negb].
  rewrite bool_decide_eq_false_2 by lia.
  assert (Hcheck : exists w1, check_block env db nCheckLevel pindex node block w = Returns w1).
  { unfold check_block. set (w0 := if _ && _ then _ else w).
    case_bool_decide; [| eauto].
    apply check_txs_Returns. exact Hlevel. }
  destruct Hcheck as (w1 & ->). apply IH; assumption.
Qed.

(** Which blocks the walk reads, at any check level. *)
Lemma walk_reads (fuel : nat) :
  forall (pindex : option Z) (w : Walk) (st : State) (o : Flow (Walk * State)),
    walk fuel env db nCheckLevel nCheckDepth pindex w st = Some (Returns o) ->
    match o with
    | Return _ _ =>
        exists p node,
          checked (heap st) (nBestHeight st - nCheckDepth) pindex p node
          /\ Block_ReadFromDisk env node = None
    | Next _ =>
        (forall n, fRequestShutdown env n = false) ->
        forall p node,
          checked (heap st) (nBestHeight st - nCheckDepth) pindex p node ->
          is_Some (Block_ReadFromDisk env node)
    end.
Proof.
  induction fuel as [| fuel IH]; intros pindex w st o; simpl; [discriminate |].
  intros Hwalk.
  destruct pindex as [pindex |].
  2:{ injection Hwalk as <-. intros _ p node Hc. inversion Hc. }
  destruct (heap st !! pindex) as [node |] eqn:Hnode; [| discriminate].
  destruct (BlockIndex.pprev node) as [pprev |] eqn:Hprev.
  2:{ injection Hwalk as <-. intros _ p node' Hc.
      apply checked_inv in Hc. destruct Hc as (node0 & pprev0 & Hn & Hp & _).
      rewrite Hnode in Hn. injection Hn as <-. congruence. }
  destruct (fRequestShutdown env (nShutdownReads st)) eqn:Hshut.
  { injection Hwalk as <-. intros Hno. rewrite Hno in Hshut. discriminate. }
  destruct (negb (fits_int _)); [discriminate |].
  destruct (bool_decide (BlockIndex.nHeight node < _)) eqn:Hbreak.
  { injection Hwalk as <-. apply bool_decide_eq_true in Hbreak.
    cbn [nBestHeight tick] in Hbreak.
    intros _ p node' Hc.
    apply checked_inv in Hc. destruct Hc as (node0 & pprev0 & Hn & _ & Hb & _).
    rewrite Hnode in Hn. injection Hn as <-. lia. }
  apply bool_decide_eq_false in Hbreak. cbn [nBestHeight tick] in Hbreak.
  destruct (Block_ReadFromDisk env node) as [block |] eqn:Hblock.
  2:{ injection Hwalk as <-. exists pindex, node. split; [| exact Hblock].
      eapply checked_here; [exact Hnode | exact Hprev | lia]. }
  destruct (check_block env db nCheckLevel pindex node block w) as [w1 | | |];
    try discriminate.
  specialize (IH (Some pprev) w1 (tick st) o Hwalk). cbn [heap nBestHeight tick] in IH.
  destruct o as [[w' st'] | e st'].
  - intros Hno p node' Hc.
    apply checked_inv in Hc. destruct Hc as (node0 & pprev0 & Hn & Hp & _ & Hc).
    rewrite Hnode in Hn. injection Hn as <-.
    rewrite Hprev in Hp. injection Hp as <-.
    destruct Hc as [[-> ->] | Hc].
    + rewrite Hblock. eauto.
    + exact (IH Hno p node' Hc).
  - destruct IH as (p & node' & Hc & Hnone). exists p, node'. split; [| exact Hnone].
    eapply checked_below; [exact Hnode | exact Hprev | lia | exact Hc].
Qed.

End WalkRange.

Lemma log_events_nil (w : Walk) (st : State) :
  walk_events w = [] -> log_events w st = st.
Proof. intros H. unfold log_events. rewrite H. reflexivity. Qed.

(** X20. Check level 0 switches the checks off but not the walk: at a
    level ([-checklevel] converted to [int]) of 0 or below the
    self-check logs no warning, does not call [SetBestChain] and changes
    nothing but the count of reads of the shutdown flag; yet it reads
    the blocks it walks from disk. It returns [false], with
    [block.ReadFromDisk failed], only when the block of a node it came
    to check could not be read; and when it returns [true] without a
    shutdown request, the block of every node it had to check (those on
    the parent chain of the tip that have a predecessor, down to the
    first one lower than [nBestHeight - nCheckDepth]) has been read. *)
Theorem verify_best_chain_level_0
    (fuel : nat) (env : Env) (db : DB) (st st' : State) (r : LoadReturn) :
  check_level env <= 0 ->
  verify_best_chain fuel env db st = Some (Returns (r, st')) ->
  (exists k : nat, st' = Nat.iter k tick st)
  /\ (r = LoadTrue \/ r = LoadFalse BlockReadFromDiskFailed)
  /\ (r = LoadFalse BlockReadFromDiskFailed ->
      exists pindex node,
        checked (heap st) (nBestHeight st - check_depth env st) (pindexBest st) pindex node
        /\ Block_ReadFromDisk env node = None)
  /\ ((forall n, fRequestShutdown env n = false) ->
      r = LoadTrue ->
      forall pindex node,
        checked (heap st) (nBestHeight st - check_depth env st) (pindexBest st) pindex node ->
        is_Some (Block_ReadFromDisk env node)).
Proof.
  intros Hlevel. unfold verify_best_chain.
  set (depth := check_depth env st).
  destruct (walk fuel env db _ depth (pindexBest st) _ st) as [o |] eqn:Hwalk;
    [| discriminate].
  destruct o as [o | | |]; try discriminate. cbn [mbind Outcome_bind].
  destruct (walk_level_0 env db _ depth fuel Hlevel _ _ _ _ Hwalk) as (k & Hres).
  pose proof (walk_reads env db (check_level env) depth fuel _ _ _ _ Hwalk) as Hreads.
  destruct o as [[w' st1] | e st1].
  - destruct Hres as [-> ->]. unfold reorg_to_fork. cbn [pindexFork initial_Walk].
    rewrite log_events_nil by reflexivity.
    intros [= <- <-]. split; [eauto |]. split; [left; reflexivity |].
    split; [discriminate |]. intros Hshut _. exact (Hreads Hshut).
  - destruct Hres as [-> ->]. rewrite log_events_nil by reflexivity.
    intros [= <- <-]. split; [eauto |]. split; [right; reflexivity |].
    split; [intros _; exact Hreads | discriminate].
Qed.

Lemma verify_best_chain_level_0_witness :
  let env := sample_Env_with 40 0 10 16 16 in
  let db := sample_DB 10 (Some 109) (sample_txindex 1 50) in
  let st := before_self_check env db in
  (exists k : nat, Nat.iter 6 tick st = Nat.iter k tick st)
  /\ (LoadFalse BlockReadFromDiskFailed = LoadTrue
      \/ LoadFalse BlockReadFromDiskFailed = LoadFalse BlockReadFromDiskFailed)
  /\ (LoadFalse BlockReadFromDiskFailed = LoadFalse BlockReadFromDiskFailed ->
      exists pindex node,
        checked (heap st) (nBestHeight st - check_depth env st) (pindexBest st) pindex node
        /\ Block_ReadFromDisk env node = None)
  /\ ((forall n, fRequestShutdown env n = false) ->
      LoadFalse BlockReadFromDiskFailed = LoadTrue ->
      forall pindex node,
        checked (heap st) (nBestHeight st - check_depth env st) (pindexBest st) pindex node ->
        is_Some (Block_ReadFromDisk env node)).
Proof.
  apply (verify_best_chain_level_0 11 (sample_Env_with 40 0 10 16 16)
           (sample_DB 10 (Some 109) (sample_txindex 1 50))
           (before_self_check (sample_Env_with 40 0 10 16 16)
              (sample_DB 10 (Some 109) (sample_txindex 1 50)))).
  - vm_compute. discriminate.
  - vm_compute. reflexivity.
Defined.

(** X21. The walk warns only about blocks it has checked: every entry
    it logs is a warning against a live node that has a predecessor (so
    never the genesis block) and whose height is not below
    [nBestHeight - nCheckDepth]; it calls nothing. The fork pointer is
    null exactly when no warning was logged, and the walk changes no
    global but the count of reads of the shutdown flag. *)
Theorem walk_warns_only_within_depth
    (fuel : nat) (env : Env) (db : DB) (nCheckLevel nCheckDepth : Z) (tip : option Z)
    (st : State) (w : Walk) (st' : State) :
  walk fuel env db nCheckLevel nCheckDepth tip initial_Walk st
  = Some (Returns (Next (w, st'))) ->
  Forall (warning_in_depth st (nBestHeight st - nCheckDepth)) (walk_events w)
  /\ (pindexFork w = None <-> walk_events w = [])
  /\ exists k : nat, st' = Nat.iter k tick st.
Proof.
  intros Hwalk.
  destruct (walk_range env db nCheckLevel nCheckDepth fuel _ _ _ _ Hwalk)
    as (w' & k & Hall & Hfork & [-> ->]).
  - constructor.
  - split; reflexivity.
  - split; [exact Hall |]. split; [exact Hfork | eauto].
Qed.

Lemma walk_warns_only_within_depth_witness :
  let env := sample_Env 2 10 16 16 in
  let db := sample_DB 10 (Some 109) (sample_txindex 1 70) in
  let st := before_self_check env db in
  let w := walked 11 env db 2 9 (Some 160) st in
  Forall (warning_in_depth st (nBestHeight st - 9)) (walk_events w)
  /\ (pindexFork w = None <-> walk_events w = [])
  /\ exists k : nat, Nat.iter 9 tick st = Nat.iter k tick st.
Proof.
  apply (walk_warns_only_within_depth 11 (sample_Env 2 10 16 16)
           (sample_DB 10 (Some 109) (sample_txindex 1 70)) 2 9 (Some 160)).
  vm_compute. reflexivity.
Defined.

(** X22. The self-check calls [SetBestChain] at most once, after the
    warnings, and only when it has logged one: what it adds to the log
    is a run of warnings followed by at most one call, and a call is
    there only if a warning is and the function returns [true]. *)
Theorem verify_best_chain_SetBestChain_at_most_once
    (fuel : nat) (env : Env) (db : DB) (st st' : State) (r : LoadReturn) :
  verify_best_chain fuel env db st = Some (Returns (r, st')) ->
  exists ws calls,
    events st' = events st ++ ws ++ calls
    /\ (forall ev, ev ∈ ws -> exists pindex warning, ev = EvWarning pindex warning)
    /\ (calls = []
        \/ exists fork, calls = [EvSetBestChain fork] /\ ws <> [] /\ r = LoadTrue).
Proof.
  unfold verify_best_chain.
  set (level := check_level env).
  set (depth := check_depth env st).
  destruct (walk fuel env db level depth (pindexBest st) _ st) as [o |] eqn:Hwalk;
    [| discriminate].
  destruct o as [o | | |]; try discriminate. cbn [mbind Outcome_bind].
  destruct (walk_range env db level depth fuel _ _ _ _ Hwalk) as (w' & k & Hall & Hfork & Hres);
    [constructor | split; reflexivity |].
  assert (Hws : forall ev, ev ∈ walk_events w' -> exists pindex warning, ev = EvWarning pindex warning).
  { intros ev Hev. rewrite Forall_forall in Hall. specialize (Hall ev Hev).
    destruct ev as [p warning | fork]; [eauto | destruct Hall]. }
  assert (Hticks : forall n, events (Nat.iter n tick st) = events st).
  { induction n as [| n IHn]; [reflexivity | exact IHn]. }
  destruct o as [[w1 st1] | e st1].
  - destruct Hres as [-> ->]. unfold reorg_to_fork.
    destruct (events_log_events w' (Nat.iter k tick st)) as (He & Hh & Hn).
    rewrite Hticks in He.
    destruct (pindexFork w') as [fork |] eqn:Hf.
    + assert (Hne : walk_events w' <> []).
      { intros Hnil. apply Hfork in Hnil. discriminate. }
      cbn [poll]. destruct (fRequestShutdown env _).
      * intros [= <- <-]. exists (walk_events w'), []. rewrite app_nil_r.
        split; [exact He |]. split; [exact Hws | left; reflexivity].
      * unfold deref. destruct (heap (tick _) !! fork) as [node |]; [| discriminate].
        cbn [mbind Outcome_bind].
        destruct (Block_ReadFromDisk env node) as [block |]; intros [= <- <-].
        -- exists (walk_events w'), [EvSetBestChain fork]. simpl. rewrite He.
           rewrite <- app_assoc. split; [reflexivity |]. split; [exact Hws |].
           right. exists fork. auto.
        -- exists (walk_events w'), []. rewrite app_nil_r.
           split; [exact He |]. split; [exact Hws | left; reflexivity].
    + intros [= <- <-]. exists (walk_events w'), []. rewrite app_nil_r.
      split; [exact He |]. split; [exact Hws | left; reflexivity].
  - destruct Hres as [-> ->]. intros [= <- <-].
    destruct (events_log_events w' (Nat.iter k tick st)) as (He & _).
    rewrite Hticks in He.
    exists (walk_events w'), []. rewrite app_nil_r.
    split; [exact He |]. split; [exact Hws | left; reflexivity].
Qed.

Lemma verify_best_chain_SetBestChain_at_most_once_witness :
  let env := sample_Env 2 10 16 16 in
  let db := sample_DB 10 (Some 109) (sample_txindex 1 70) in
  let st := before_self_check env db in
  exists ws calls,
    events (verified 11 env db st) = events st ++ ws ++ calls
    /\ (forall ev, ev ∈ ws -> exists pindex warning, ev = EvWarning pindex warning)
    /\ (calls = []
        \/ exists fork, calls = [EvSetBestChain fork] /\ ws <> [] /\ LoadTrue = LoadTrue).
Proof.
  apply (verify_best_chain_SetBestChain_at_most_once 11 (sample_Env 2 10 16 16)
           (sample_DB 10 (Some 109) (sample_txindex 1 70))
           (before_self_check (sample_Env 2 10 16 16)
              (sample_DB 10 (Some 109) (sample_txindex 1 70)))).
  vm_compute. reflexivity.
Defined.

(** X23. A block index whose node is its own parent, as a record that
    names its own hash as [hashPrev] gives, keeps the walk of the
    self-check from ending: with the block readable, no shutdown
    requested and the node not below the bound
    [nBestHeight - nCheckDepth] (computed in [int] without overflow),
    the loop has not ended after any number of iterations (at the check
    levels up to 4, where the checks themselves cannot go wrong). *)
Theorem walk_self_parent_never_ends
    (fuel : nat) (env : Env) (db : DB) (nCheckLevel nCheckDepth : Z)
    (pindex : Z) (node : CBlockIndex) (w : Walk) (st : State) :
  heap st !! pindex = Some node ->
  BlockIndex.pprev node = Some pindex ->
  (forall n, fRequestShutdown env n = false) ->
  is_Some (Block_ReadFromDisk env node) ->
  fits_int (nBestHeight st - nCheckDepth) = true ->
  nBestHeight st - nCheckDepth <= BlockIndex.nHeight node ->
  nCheckLevel <= 4 ->
  walk fuel env db nCheckLevel nCheckDepth (Some pindex) w st = None.
Proof.
  intros Hnode Hprev Hshut Hblock Hint Hheight Hlevel.
  exact (walk_self_parent env db nCheckLevel nCheckDepth pindex node fuel
           Hprev Hshut Hblock Hlevel w st Hnode Hint Hheight).
Qed.

Lemma walk_self_parent_never_ends_witness :
  walk 1000 (sample_Env 1 500 16 16) (sample_DB 10 (Some 109) (sample_txindex 1 50)) 1 500
    (Some 96) initial_Walk
    (store 96 (BlockIndex.set_pprev (Some 96) sample_node5) initial_State)
  = None.
Proof.
  apply (walk_self_parent_never_ends 1000 (sample_Env 1 500 16 16)
           (sample_DB 10 (Some 109) (sample_txindex 1 50)) 1 500 96
           (BlockIndex.set_pprev (Some 96) sample_node5)).
  - reflexivity.
  - reflexivity.
  - reflexivity.
  - eexists. reflexivity.
  - reflexivity.
  - simpl. lia.
  - lia.
Defined.

(** ** The self-check: what a block without warning has passed *)

Section CleanBlock.

Variable env : Env.
Variable db : DB.
Variable nCheckLevel : Z.
Variable pindex : Z.
Variable node : CBlockIndex.

Lemma flags_clean (ws : list Warning) (w w' : Walk) :
  flags pindex node ws w w' -> walk_events w' = walk_events w -> ws = [].
Proof.
  intros [Hev _] Hclean. rewrite Hev in Hclean.
  rewrite <- (app_nil_r (walk_events w)) in Hclean at 2.
  apply app_inv_head in Hclean. destruct ws; [reflexivity | discriminate].
Qed.

Lemma flags_clean_split (ws1 ws2 : list Warning) (w w1 w2 : Walk) :
  flags pindex node ws1 w w1 -> flags pindex node ws2 w1 w2 ->
  walk_events w2 = walk_events w ->
  walk_events w1 = walk_events w /\ walk_events w2 = walk_events w1.
Proof.
  intros H1 H2 Hclean.
  pose proof (flags_trans pindex node _ _ _ _ _ H1 H2) as H12.
  apply flags_clean in H12; [| exact Hclean].
  apply app_eq_nil in H12 as [-> ->].
  destruct H1 as [Hev1 _]. destruct H2 as [Hev2 _]. simpl in Hev1, Hev2.
  rewrite app_nil_r in Hev1, Hev2. split; assumption.
Qed.

Lemma flag_not_clean (warning : Warning) (ws : list Warning) (w w' : Walk) :
  flags pindex node ws (flag pindex node warning w) w' ->
  walk_events w' <> walk_events w.
Proof.
  intros [Hev _] Hclean. rewrite Hev in Hclean. simpl in Hclean.
  apply (f_equal length) in Hclean. rewrite !length_app in Hclean. simpl in Hclean. lia.
Qed.

Lemma mapBlockPos_check_spent (hashTx nOutput : Z) (txpos : CDiskTxPos) (w : Walk) :
  mapBlockPos (check_spent env nCheckLevel pindex node hashTx nOutput txpos w)
  = mapBlockPos w.
Proof.
  unfold check_spent. destruct (IsNull env txpos); [reflexivity |].
  destruct (negb _); destruct (bool_decide (nCheckLevel > 5)); try reflexivity;
    destruct (Tx_ReadFromDisk env txpos) as [txSpend |]; try reflexivity;
    destruct (negb (CheckTransaction env txSpend)); try reflexivity;
    destruct (negb _); reflexivity.
Qed.

Lemma mapBlockPos_check_all_spent (hashTx : Z) (vSpent : list CDiskTxPos) :
  forall (nOutput : Z) (w : Walk),
    mapBlockPos (check_all_spent env nCheckLevel pindex node hashTx nOutput vSpent w)
    = mapBlockPos w.
Proof.
  induction vSpent as [| txpos vSpent IH]; intros nOutput w; simpl; [reflexivity |].
  rewrite IH. apply mapBlockPos_check_spent.
Qed.

Lemma mapBlockPos_check_prevouts (hashTx : Z) (vin : list CTxIn) :
  forall (w w' : Walk),
    check_prevouts env db pindex node hashTx vin w = Returns w' ->
    mapBlockPos w' = mapBlockPos w.
Proof.
  induction vin as [| txin vin IH]; intros w w'; simpl; [intros [= <-]; reflexivity |].
  destruct (check_prevout env db pindex node hashTx txin w) as [w1 | | |] eqn:H1;
    try discriminate.
  cbn [mbind Outcome_bind]. intros H2. rewrite (IH _ _ H2).
  revert H1. unfold check_prevout.
  destruct (ReadTxIndex db _) as [txindex |]; [| intros [= <-]; reflexivity].
  case_bool_decide; [intros [= <-]; reflexivity |].
  destruct (TxIndex.vSpent txindex !! _) as [txpos |]; [| discriminate].
  destruct (IsNull env txpos); intros [= <-]; reflexivity.
Qed.

Lemma mapBlockPos_check_tx_position (hashTx : Z) (txindex : CTxIndex) (w : Walk) :
  mapBlockPos (check_tx_position env nCheckLevel pindex node hashTx txindex w)
  = mapBlockPos w.
Proof.
  unfold check_tx_position. destruct (_ || _); [| reflexivity].
  destruct (Tx_ReadFromDisk env _) as [txFound |]; [| reflexivity].
  destruct (negb _); reflexivity.
Qed.

Lemma mapBlockPos_check_tx (tx : CTransaction) (w w' : Walk) :
  check_tx env db nCheckLevel pindex node tx w = Returns w' ->
  mapBlockPos w' = mapBlockPos w.
Proof.
  unfold check_tx. set (w1 := match ReadTxIndex db _ with Some _ => _ | None => w end).
  assert (H1 : mapBlockPos w1 = mapBlockPos w).
  { unfold w1. destruct (ReadTxIndex db _) as [txindex |]; [| reflexivity].
    destruct (bool_decide (nCheckLevel > 3)).
    - rewrite mapBlockPos_check_all_spent. apply mapBlockPos_check_tx_position.
    - apply mapBlockPos_check_tx_position. }
  destruct (bool_decide (nCheckLevel > 4)).
  - intros H. rewrite (mapBlockPos_check_prevouts _ _ _ _ H). exact H1.
  - intros [= <-]. exact H1.
Qed.

Lemma check_spent_clean (hashTx nOutput : Z) (txpos : CDiskTxPos) (w : Walk) :
  walk_events (check_spent env nCheckLevel pindex node hashTx nOutput txpos w)
  = walk_events w ->
  IsNull env txpos = false ->
  spent_ok env nCheckLevel (mapBlockPos w) hashTx nOutput txpos.
Proof.
  unfold check_spent, spent_ok. intros Hclean Hnull. rewrite Hnull in Hclean.
  assert (Habsurd : forall warning ws w',
             flags pindex node ws (flag pindex node warning w) w' ->
             walk_events w' = walk_events w -> False).
  { intros warning ws w' Hf Hc. exact (flag_not_clean _ _ _ _ Hf Hc). }
  assert (Hlen : forall w0 warning,
             walk_events (flag pindex node warning w0) = walk_events w ->
             (length (walk_events w) <= length (walk_events w0))%nat -> False).
  { intros w0 warning Hc Hle. apply (f_equal length) in Hc. simpl in Hc.
    rewrite length_app in Hc. simpl in Hc. lia. }
  cbv zeta in Hclean.
  destruct (decide (is_Some (mapBlockPos w
                             !! (DiskTxPos.nFile txpos, DiskTxPos.nBlockPos txpos))))
    as [Hseen | Hseen];
    [rewrite (bool_decide_eq_true_2 _ Hseen) in Hclean
    | rewrite (bool_decide_eq_false_2 _ Hseen) in Hclean];
    cbn [negb] in Hclean.
  - split; [exact Hseen |]. intros Hlevel.
    rewrite bool_decide_eq_true_2 in Hclean by exact Hlevel.
    destruct (Tx_ReadFromDisk env txpos) as [txSpend |];
      [| exfalso; exact (Hlen _ _ Hclean (le_n _))].
    destruct (CheckTransaction env txSpend) eqn:Hvalid; cbn [negb] in Hclean;
      [| exfalso; exact (Hlen _ _ Hclean (le_n _))].
    destruct (existsb _ (Transaction.vin txSpend)) eqn:Hfound; cbn [negb] in Hclean;
      [| exfalso; exact (Hlen _ _ Hclean (le_n _))].
    exists txSpend. split; [reflexivity |]. split; [exact Hvalid |].
    apply existsb_exists in Hfound as (txin & Hin & Hspends).
    apply andb_true_iff in Hspends as [Hh Hn].
    apply bool_decide_eq_true in Hh, Hn.
    exists txin. split; [apply list_elem_of_In; exact Hin | auto].
  - exfalso. set (w0 := flag pindex node (BadSpend hashTx) w) in Hclean.
    assert (Hle : (length (walk_events w) <= length (walk_events w0))%nat).
    { unfold w0. simpl. rewrite length_app. lia. }
    assert (Hw0 : walk_events w0 <> walk_events w).
    { unfold w0. simpl. intros Hc. apply (f_equal length) in Hc.
      rewrite length_app in Hc. simpl in Hc. lia. }
    destruct (bool_decide (nCheckLevel > 5)); [| exact (Hw0 Hclean)].
    destruct (Tx_ReadFromDisk env txpos) as [txSpend |]; [| exact (Hlen _ _ Hclean Hle)].
    destruct (negb (CheckTransaction env txSpend)); [exact (Hlen _ _ Hclean Hle) |].
    destruct (negb _); [exact (Hlen _ _ Hclean Hle) | exact (Hw0 Hclean)].
Qed.

Lemma check_all_spent_clean (hashTx : Z) (vSpent : list CDiskTxPos) :
  forall (nOutput : Z) (w : Walk),
    0 <= nOutput < 2 ^ 32 ->
    walk_events (check_all_spent env nCheckLevel pindex node hashTx nOutput vSpent w)
    = walk_events w ->
    forall (i : nat) (txpos : CDiskTxPos),
      vSpent !! i = Some txpos -> IsNull env txpos = false ->
      spent_ok env nCheckLevel (mapBlockPos w) hashTx
        ((nOutput + Z.of_nat i) mod 2 ^ 32) txpos.
Proof.
  induction vSpent as [| txpos0 vSpent IH]; intros nOutput w Hrange Hclean i txpos Hi Hnull;
    [inversion Hi |].
  cbn [check_all_spent] in Hclean.
  destruct (check_spent_flags env nCheckLevel pindex node hashTx nOutput txpos0 w)
    as (ws1 & Hf1).
  destruct (check_all_spent_flags env nCheckLevel pindex node hashTx vSpent
              ((nOutput + 1) mod 2 ^ 32)
              (check_spent env nCheckLevel pindex node hashTx nOutput txpos0 w))
    as (ws2 & Hf2).
  destruct (flags_clean_split _ _ _ _ _ Hf1 Hf2 Hclean) as [Hc1 Hc2].
  destruct i as [| i]; simpl in Hi.
  - injection Hi as ->. rewrite Z.add_0_r, Z.mod_small by lia.
    apply check_spent_clean; assumption.
  - rewrite <- (mapBlockPos_check_spent hashTx nOutput txpos0 w).
    replace ((nOutput + Z.of_nat (S i)) mod 2 ^ 32)
      with (((nOutput + 1) mod 2 ^ 32 + Z.of_nat i) mod 2 ^ 32).
    2:{ rewrite Zplus_mod_idemp_l. f_equal. lia. }
    apply IH; try assumption. apply Z.mod_pos_bound. lia.
Qed.

Lemma check_prevout_clean (hashTx : Z) (txin : CTxIn) (w w' : Walk) :
  check_prevout env db pindex node hashTx txin w = Returns w' ->
  walk_events w' = walk_events w ->
  prevout_ok env db txin.
Proof.
  unfold check_prevout, prevout_ok. intros Hrun Hclean txindex Hread.
  rewrite Hread in Hrun.
  assert (Hflag : forall warning, Returns (flag pindex node warning w) = Returns w' -> False).
  { intros warning [= <-]. simpl in Hclean. apply (f_equal length) in Hclean.
    rewrite length_app in Hclean. simpl in Hclean. lia. }
  case_bool_decide; [destruct (Hflag _ Hrun) |].
  destruct (TxIndex.vSpent txindex !! _) as [txpos |]; [| discriminate].
  destruct (IsNull env txpos) eqn:Hnull; [destruct (Hflag _ Hrun) |].
  exists txpos. auto.
Qed.

Lemma check_prevouts_clean (hashTx : Z) (vin : list CTxIn) :
  forall (w w' : Walk),
    check_prevouts env db pindex node hashTx vin w = Returns w' ->
    walk_events w' = walk_events w ->
    forall txin, txin ∈ vin -> prevout_ok env db txin.
Proof.
  induction vin as [| txin0 vin IH]; intros w w' Hrun Hclean txin Hin; [inversion Hin |].
  cbn [check_prevouts] in Hrun.
  destruct (check_prevout env db pindex node hashTx txin0 w) as [w1 | | |] eqn:H1;
    try discriminate.
  cbn [mbind Outcome_bind] in Hrun.
  destruct (check_prevout_flags env db pindex node hashTx txin0 w w1 H1) as (ws1 & Hf1).
  destruct (check_prevouts_flags env db pindex node hashTx vin w1 w' Hrun) as (ws2 & Hf2).
  destruct (flags_clean_split _ _ _ _ _ Hf1 Hf2 Hclean) as [Hc1 Hc2].
  apply elem_of_cons in Hin as [-> | Hin].
  - exact (check_prevout_clean _ _ _ _ H1 Hc1).
  - exact (IH _ _ Hrun Hc2 txin Hin).
Qed.

Lemma check_tx_position_clean (hashTx : Z) (txindex : CTxIndex) (w : Walk) :
  walk_events (check_tx_position env nCheckLevel pindex node hashTx txindex w)
  = walk_events w ->
  nCheckLevel > 2
  \/ BlockIndex.nFile node <> DiskTxPos.nFile (TxIndex.pos txindex)
  \/ BlockIndex.nBlockPos node <> DiskTxPos.nBlockPos (TxIndex.pos txindex) ->
  exists txFound,
    Tx_ReadFromDisk env (TxIndex.pos txindex) = Some txFound
    /\ Tx_GetHash env txFound = hashTx.
Proof.
  unfold check_tx_position. intros Hclean Hcond.
  assert (Hflag : forall warning,
             walk_events (flag pindex node warning w) = walk_events w -> False).
  { intros warning Hc. simpl in Hc. apply (f_equal length) in Hc.
    rewrite length_app in Hc. simpl in Hc. lia. }
  assert (Htest : bool_decide (nCheckLevel > 2)
                  || negb (bool_decide (BlockIndex.nFile node
                                        = DiskTxPos.nFile (TxIndex.pos txindex)))
                  || negb (bool_decide (BlockIndex.nBlockPos node
                                        = DiskTxPos.nBlockPos (TxIndex.pos txindex)))
                  = true).
  { destruct Hcond as [H | [H | H]].
    - rewrite (bool_decide_eq_true_2 _ H). reflexivity.
    - rewrite (bool_decide_eq_false_2 _ H). cbn [negb]. rewrite orb_true_r. reflexivity.
    - rewrite (bool_decide_eq_false_2 (_ = DiskTxPos.nBlockPos _) H). cbn [negb].
      rewrite orb_true_r. reflexivity. }
  rewrite Htest in Hclean. clear Htest.
  destruct (Tx_ReadFromDisk env (TxIndex.pos txindex)) as [txFound |];
    [| destruct (Hflag _ Hclean)].
  destruct (decide (Tx_GetHash env txFound = hashTx)) as [Hhash | Hhash].
  - exists txFound. auto.
  - rewrite (bool_decide_eq_false_2 _ Hhash) in Hclean. destruct (Hflag _ Hclean).
Qed.

(** What the checks of one transaction have established when they
    logged nothing. *)
Lemma check_tx_clean (tx : CTransaction) (w w' : Walk) :
  check_tx env db nCheckLevel pindex node tx w = Returns w' ->
  walk_events w' = walk_events w ->
  (forall txindex,
      ReadTxIndex db (Tx_GetHash env tx) = Some txindex ->
      (nCheckLevel > 2
       \/ BlockIndex.nFile node <> DiskTxPos.nFile (TxIndex.pos txindex)
       \/ BlockIndex.nBlockPos node <> DiskTxPos.nBlockPos (TxIndex.pos txindex) ->
       exists txFound,
         Tx_ReadFromDisk env (TxIndex.pos txindex) = Some txFound
         /\ Tx_GetHash env txFound = Tx_GetHash env tx)
      /\ (nCheckLevel > 3 ->
          forall (i : nat) (txpos : CDiskTxPos),
            TxIndex.vSpent txindex !! i = Some txpos -> IsNull env txpos = false ->
            spent_ok env nCheckLevel (mapBlockPos w) (Tx_GetHash env tx)
              (Z.of_nat i mod 2 ^ 32) txpos))
  /\ (nCheckLevel > 4 -> forall txin, txin ∈ Transaction.vin tx -> prevout_ok env db txin).
Proof.
  intros Hrun Hclean. unfold check_tx in Hrun.
  set (hashTx := Tx_GetHash env tx) in *.
  set (w1 := match ReadTxIndex db hashTx with Some _ => _ | None => w end) in Hrun.
  assert (Hf1 : exists ws, flags pindex node ws w w1).
  { unfold w1. destruct (ReadTxIndex db hashTx) as [txindex |];
      [| exists []; apply flags_refl].
    destruct (check_tx_position_flags env nCheckLevel pindex node hashTx txindex w)
      as (wsa & Hfa).
    destruct (bool_decide (nCheckLevel > 3)); [| eauto].
    destruct (check_all_spent_flags env nCheckLevel pindex node hashTx
                (TxIndex.vSpent txindex) 0
                (check_tx_position env nCheckLevel pindex node hashTx txindex w))
      as (wsb & Hfb).
    exists (wsa ++ wsb). eapply flags_trans; eassumption. }
  destruct Hf1 as (ws1 & Hf1).
  assert (Hsplit : walk_events w1 = walk_events w
                   /\ (nCheckLevel > 4 ->
                       forall txin, txin ∈ Transaction.vin tx -> prevout_ok env db txin)).
  { case_bool_decide as Hl5.
    - destruct (check_prevouts_flags env db pindex node hashTx _ _ _ Hrun) as (ws2 & Hf2).
      destruct (flags_clean_split _ _ _ _ _ Hf1 Hf2 Hclean) as [Hc1 Hc2].
      split; [exact Hc1 |]. intros _. exact (check_prevouts_clean _ _ _ _ Hrun Hc2).
    - injection Hrun as <-. split; [exact Hclean | intros H; contradiction]. }
  destruct Hsplit as [Hc1 Hprev]. split; [| exact Hprev].
  intros txindex Hread. unfold w1 in Hc1. rewrite Hread in Hc1.
  destruct (check_tx_position_flags env nCheckLevel pindex node hashTx txindex w)
    as (wsa & Hfa).
  case_bool_decide as Hl3.
  - destruct (check_all_spent_flags env nCheckLevel pindex node hashTx
                (TxIndex.vSpent txindex) 0
                (check_tx_position env nCheckLevel pindex node hashTx txindex w))
      as (wsb & Hfb).
    destruct (flags_clean_split _ _ _ _ _ Hfa Hfb Hc1) as [Hca Hcb].
    split; [exact (check_tx_position_clean _ _ _ Hca) |].
    intros _ i txpos Hi Hnull.
    rewrite <- (mapBlockPos_check_tx_position hashTx txindex w).
    replace (Z.of_nat i mod 2 ^ 32) with ((0 + Z.of_nat i) mod 2 ^ 32) by (f_equal; lia).
    apply (check_all_spent_clean hashTx (TxIndex.vSpent txindex) 0 _ ltac:(lia) Hcb i txpos);
      assumption.
  - split; [exact (check_tx_position_clean _ _ _ Hc1) | intros H; contradiction].
Qed.

Lemma check_txs_clean (vtx : list CTransaction) :
  forall (w w' : Walk),
    check_txs env db nCheckLevel pindex node vtx w = Returns w' ->
    walk_events w' = walk_events w ->
    forall tx, tx ∈ vtx ->
      exists w0,
        mapBlockPos w0 = mapBlockPos w
        /\ exists w1, check_tx env db nCheckLevel pindex node tx w0 = Returns w1
                      /\ walk_events w1 = walk_events w0.
Proof.
  induction vtx as [| tx0 vtx IH]; intros w w' Hrun Hclean tx Hin; [inversion Hin |].
  cbn [check_txs] in Hrun.
  destruct (check_tx env db nCheckLevel pindex node tx0 w) as [w1 | | |] eqn:H1;
    try discriminate.
  cbn [mbind Outcome_bind] in Hrun.
  destruct (check_tx_flags env db nCheckLevel pindex node tx0 w w1 H1) as (ws1 & Hf1).
  destruct (check_txs_flags env db nCheckLevel pindex node vtx w1 w' Hrun) as (ws2 & Hf2).
  destruct (flags_clean_split _ _ _ _ _ Hf1 Hf2 Hclean) as [Hc1 Hc2].
  apply elem_of_cons in Hin as [-> | Hin].
  - exists w. split; [reflexivity |]. exists w1. auto.
  - destruct (IH _ _ Hrun Hc2 tx Hin) as (w0 & Hm0 & Hrest).
    exists w0. split; [| exact Hrest].
    rewrite Hm0. exact (mapBlockPos_check_tx _ _ _ H1).
Qed.

(** What the checks of one block have established when they logged
    nothing. *)
Lemma check_block_clean (block : CBlock) (w w' : Walk) :
  check_block env db nCheckLevel pindex node block w = Returns w' ->
  walk_events w' = walk_events w ->
  (nCheckLevel > 0 ->
   CheckBlock env block true true (bool_decide (nCheckLevel > 6)) = true)
  /\ (nCheckLevel > 1 ->
      mapBlockPos w'
      = <[(BlockIndex.nFile node, BlockIndex.nBlockPos node) := pindex]> (mapBlockPos w)
      /\ forall tx, tx ∈ Block.vtx block ->
           exists w0,
             mapBlockPos w0 = mapBlockPos w'
             /\ exists w1, check_tx env db nCheckLevel pindex node tx w0 = Returns w1
                           /\ walk_events w1 = walk_events w0).
Proof.
  intros Hrun Hclean. unfold check_block in Hrun.
  set (w0 := if _ && _ then flag pindex node BadBlock w else w) in Hrun.
  assert (Hf0 : exists ws, flags pindex node ws w w0).
  { unfold w0. destruct (_ && _); [eexists; apply flags_flag | exists []; apply flags_refl]. }
  destruct Hf0 as (ws0 & Hf0).
  set (w0' := {| pindexFork := pindexFork w0;
                 mapBlockPos := <[(BlockIndex.nFile node, BlockIndex.nBlockPos node) := pindex]>
                                  (mapBlockPos w0);
                 walk_events := walk_events w0 |}) in Hrun.
  assert (Hm0 : mapBlockPos w0 = mapBlockPos w).
  { unfold w0. destruct (_ && _); reflexivity. }
  assert (Hc0 : walk_events w0 = walk_events w
                /\ (nCheckLevel > 1 ->
                    mapBlockPos w' = mapBlockPos w0'
                    /\ forall tx, tx ∈ Block.vtx block ->
                         exists wa,
                           mapBlockPos wa = mapBlockPos w0'
                           /\ exists wb,
                                check_tx env db nCheckLevel pindex node tx wa = Returns wb
                                /\ walk_events wb = walk_events wa)).
  { case_bool_decide as Hl1.
    - destruct (check_txs_flags env db nCheckLevel pindex node _ _ _ Hrun) as (ws1 & Hf1).
      assert (Hf0' : flags pindex node ws0 w w0') by exact Hf0.
      destruct (flags_clean_split _ _ _ _ _ Hf0' Hf1 Hclean) as [Hca Hcb].
      split; [exact Hca |]. intros _. split.
      + clear -Hrun. revert Hrun. generalize w0'. generalize (Block.vtx block).
        induction l as [| tx l IHl]; intros w1; simpl; [intros [= <-]; reflexivity |].
        destruct (check_tx env db nCheckLevel pindex node tx w1) as [w2 | | |] eqn:H1;
          try discriminate.
        cbn [mbind Outcome_bind]. intros H2. rewrite (IHl _ H2).
        exact (mapBlockPos_check_tx _ _ _ H1).
      + exact (check_txs_clean _ _ _ Hrun Hcb).
    - injection Hrun as <-. split; [exact Hclean | intros H; contradiction]. }
  destruct Hc0 as [Hc0 Htxs]. split.
  - intros Hl0. unfold w0 in Hc0. rewrite (bool_decide_eq_true_2 _ Hl0) in Hc0.
    destruct (CheckBlock env block true true _); [reflexivity |].
    simpl in Hc0. apply (f_equal length) in Hc0. rewrite length_app in Hc0.
    simpl in Hc0. lia.
  - intros Hl1. destruct (Htxs Hl1) as [Hm Hall]. split.
    + rewrite Hm. unfold w0'. simpl. rewrite Hm0. reflexivity.
    + intros tx Htx. destruct (Hall tx Htx) as (wa & Hma & Hrest).
      exists wa. split; [rewrite Hm; exact Hma | exact Hrest].
Qed.

End CleanBlock.

(** X24. Check levels 1 to 3 are sound: when the checks of a block log
    no warning, the block passed [CheckBlock] (from level 1 on); every
    transaction of the block whose index entry points elsewhere than to
    the block can be read back through [ReadDiskTx] and is a transaction
    with the same hash (from level 2 on); and every transaction of the
    block that is in the index reads back so (from level 3 on). *)
Theorem check_block_clean_transactions
    (env : Env) (db : DB) (nCheckLevel pindex : Z) (node : CBlockIndex)
    (block : CBlock) (w w' : Walk) :
  check_block env db nCheckLevel pindex node block w = Returns w' ->
  walk_events w' = walk_events w ->
  (nCheckLevel > 0 ->
   CheckBlock env block true true (bool_decide (nCheckLevel > 6)) = true)
  /\ (nCheckLevel > 1 ->
      forall tx txindex,
        tx ∈ Block.vtx block ->
        ReadTxIndex db (Tx_GetHash env tx) = Some txindex ->
        BlockIndex.nFile node <> DiskTxPos.nFile (TxIndex.pos txindex)
        \/ BlockIndex.nBlockPos node <> DiskTxPos.nBlockPos (TxIndex.pos txindex) ->
        exists txFound,
          ReadDiskTx env db (Tx_GetHash env tx) = Some (txFound, txindex)
          /\ Tx_GetHash env txFound = Tx_GetHash env tx)
  /\ (nCheckLevel > 2 ->
      forall tx,
        tx ∈ Block.vtx block ->
        ContainsTx db (Tx_GetHash env tx) = true ->
        exists txFound txindex,
          ReadDiskTx env db (Tx_GetHash env tx) = Some (txFound, txindex)
          /\ Tx_GetHash env txFound = Tx_GetHash env tx).
Proof.
  intros Hrun Hclean.
  destruct (check_block_clean env db nCheckLevel pindex node block w w' Hrun Hclean)
    as [Hblock Htxs].
  assert (Hpos : nCheckLevel > 1 ->
                 forall tx txindex,
                   tx ∈ Block.vtx block ->
                   ReadTxIndex db (Tx_GetHash env tx) = Some txindex ->
                   nCheckLevel > 2
                   \/ BlockIndex.nFile node <> DiskTxPos.nFile (TxIndex.pos txindex)
                   \/ BlockIndex.nBlockPos node <> DiskTxPos.nBlockPos (TxIndex.pos txindex) ->
                   exists txFound,
                     ReadDiskTx env db (Tx_GetHash env tx) = Some (txFound, txindex)
                     /\ Tx_GetHash env txFound = Tx_GetHash env tx).
  { intros Hl1 tx txindex Htx Hread Hcond.
    destruct (Htxs Hl1) as [_ Hall].
    destruct (Hall tx Htx) as (w0 & _ & w1 & Hrun1 & Hclean1).
    destruct (check_tx_clean env db nCheckLevel pindex node tx w0 w1 Hrun1 Hclean1)
      as [Hindexed _].
    destruct (Hindexed txindex Hread) as [Hposition _].
    destruct (Hposition Hcond) as (txFound & Hfound & Hhash).
    exists txFound. split; [| exact Hhash].
    unfold ReadDiskTx. rewrite Hread, Hfound. reflexivity. }
  split; [exact Hblock |]. split.
  - intros Hl1 tx txindex Htx Hread Hcond. apply Hpos; auto.
  - intros Hl2 tx Htx Hcontains. unfold ContainsTx in Hcontains.
    apply bool_decide_eq_true in Hcontains as [txindex Hread].
    destruct (Hpos ltac:(lia) tx txindex Htx Hread (or_introl Hl2)) as (txFound & H).
    exists txFound, txindex. exact H.
Qed.

Lemma check_block_clean_transactions_witness :
  let env := sample_Env 3 10 16 16 in
  let db := sample_DB 10 (Some 109) (sample_txindex 1 50) in
  let block := Block.mk [Transaction.mk [] 505] in
  (3 > 0 -> CheckBlock env block true true (bool_decide (3 > 6)) = true)
  /\ (3 > 1 ->
      forall tx txindex,
        tx ∈ Block.vtx block ->
        ReadTxIndex db (Tx_GetHash env tx) = Some txindex ->
        BlockIndex.nFile sample_node5 <> DiskTxPos.nFile (TxIndex.pos txindex)
        \/ BlockIndex.nBlockPos sample_node5 <> DiskTxPos.nBlockPos (TxIndex.pos txindex) ->
        exists txFound,
          ReadDiskTx env db (Tx_GetHash env tx) = Some (txFound, txindex)
          /\ Tx_GetHash env txFound = Tx_GetHash env tx)
  /\ (3 > 2 ->
      forall tx,
        tx ∈ Block.vtx block ->
        ContainsTx db (Tx_GetHash env tx) = true ->
        exists txFound txindex,
          ReadDiskTx env db (Tx_GetHash env tx) = Some (txFound, txindex)
          /\ Tx_GetHash env txFound = Tx_GetHash env tx).
Proof.
  apply (check_block_clean_transactions (sample_Env 3 10 16 16)
           (sample_DB 10 (Some 109) (sample_txindex 1 50)) 3 96 sample_node5
           (Block.mk [Transaction.mk [] 505]) initial_Walk sample_clean_Walk).
  - vm_compute. reflexivity.
  - reflexivity.
Defined.

(** X25. Check levels 4 and 6 are sound: when the checks of a block log
    no warning at level 4 or above, every output of every indexed
    transaction of the block that is marked spent is marked as spent in
    a block whose position the walk has recorded, this block or one
    walked before it; from level 6 on the spending transaction can be
    read at the marked position, passes [CheckTransaction] and has an
    input that spends that very output. *)
Theorem check_block_clean_spent
    (env : Env) (db : DB) (nCheckLevel pindex : Z) (node : CBlockIndex)
    (block : CBlock) (w w' : Walk) :
  nCheckLevel > 3 ->
  check_block env db nCheckLevel pindex node block w = Returns w' ->
  walk_events w' = walk_events w ->
  mapBlockPos w'
  = <[(BlockIndex.nFile node, BlockIndex.nBlockPos node) := pindex]> (mapBlockPos w)
  /\ forall tx txindex (nOutput : nat) txpos,
       tx ∈ Block.vtx block ->
       ReadTxIndex db (Tx_GetHash env tx) = Some txindex ->
       TxIndex.vSpent txindex !! nOutput = Some txpos ->
       IsNull env txpos = false ->
       spent_ok env nCheckLevel (mapBlockPos w') (Tx_GetHash env tx)
         (Z.of_nat nOutput mod 2 ^ 32) txpos.
Proof.
  intros Hlevel Hrun Hclean.
  destruct (check_block_clean env db nCheckLevel pindex node block w w' Hrun Hclean)
    as [_ Htxs].
  destruct (Htxs ltac:(lia)) as [Hmap Hall]. split; [exact Hmap |].
  intros tx txindex nOutput txpos Htx Hread Hspent Hnull.
  destruct (Hall tx Htx) as (w0 & Hm0 & w1 & Hrun1 & Hclean1).
  destruct (check_tx_clean env db nCheckLevel pindex node tx w0 w1 Hrun1 Hclean1)
    as [Hindexed _].
  destruct (Hindexed txindex Hread) as [_ Hall_spent].
  rewrite <- Hm0. exact (Hall_spent Hlevel nOutput txpos Hspent Hnull).
Qed.

Lemma check_block_clean_spent_witness :
  let env := sample_Env_spending 6 in
  let tx := Transaction.mk [] 505 in
  ReadTxIndex sample_spent_DB (Tx_GetHash env tx) = Some sample_spent_txindex
  /\ TxIndex.vSpent sample_spent_txindex !! 0%nat = Some (DiskTxPos.mk 1 60 0)
  /\ IsNull env (DiskTxPos.mk 1 60 0) = false
  /\ mapBlockPos sample_Walk_below_5
     = <[(BlockIndex.nFile sample_node5, BlockIndex.nBlockPos sample_node5) := 96]>
         (mapBlockPos sample_Walk_below_6)
  /\ spent_ok env 6 (mapBlockPos sample_Walk_below_5) (Tx_GetHash env tx)
       (Z.of_nat 0 mod 2 ^ 32) (DiskTxPos.mk 1 60 0).
Proof.
  cbv zeta.
  destruct (check_block_clean_spent (sample_Env_spending 6) sample_spent_DB 6 96
              sample_node5 (Block.mk [Transaction.mk [] 505])
              sample_Walk_below_6 sample_Walk_below_5)
    as [Hmap Hspent].
  - lia.
  - vm_compute. reflexivity.
  - reflexivity.
  - split; [reflexivity |]. split; [reflexivity |]. split; [reflexivity |].
    split; [exact Hmap |].
    apply (Hspent (Transaction.mk [] 505) sample_spent_txindex 0%nat (DiskTxPos.mk 1 60 0)).
    + left.
    + reflexivity.
    + reflexivity.
    + reflexivity.
Defined.

(** X26. Check level 5 is sound: when the checks of a block log no
    warning at level 5 or above, every input of every transaction of the
    block whose previous transaction is indexed spends an output that is
    within that entry's [vSpent] and marked spent. *)
Theorem check_block_clean_prevouts
    (env : Env) (db : DB) (nCheckLevel pindex : Z) (node : CBlockIndex)
    (block : CBlock) (w w' : Walk) :
  nCheckLevel > 4 ->
  check_block env db nCheckLevel pindex node block w = Returns w' ->
  walk_events w' = walk_events w ->
  forall tx txin,
    tx ∈ Block.vtx block -> txin ∈ Transaction.vin tx -> prevout_ok env db txin.
Proof.
  intros Hlevel Hrun Hclean tx txin Htx Htxin.
  destruct (check_block_clean env db nCheckLevel pindex node block w w' Hrun Hclean)
    as [_ Htxs].
  destruct (Htxs ltac:(lia)) as [_ Hall].
  destruct (Hall tx Htx) as (w0 & _ & w1 & Hrun1 & Hclean1).
  destruct (check_tx_clean env db nCheckLevel pindex node tx w0 w1 Hrun1 Hclean1)
    as [_ Hprev].
  exact (Hprev Hlevel txin Htxin).
Qed.

Lemma check_block_clean_prevouts_witness :
  let env := sample_Env_spending 5 in
  ReadTxIndex sample_spent_DB (OutPoint.hash (TxIn.prevout (TxIn.mk (OutPoint.mk 505 0))))
  = Some sample_spent_txindex
  /\ prevout_ok env sample_spent_DB (TxIn.mk (OutPoint.mk 505 0))
  /\ exists txpos,
       TxIndex.vSpent sample_spent_txindex
         !! Z.to_nat (OutPoint.n (TxIn.prevout (TxIn.mk (OutPoint.mk 505 0))))
       = Some txpos
       /\ IsNull env txpos = false.
Proof.
  cbv zeta.
  assert (Hok : prevout_ok (sample_Env_spending 5) sample_spent_DB
                  (TxIn.mk (OutPoint.mk 505 0))).
  { apply (check_block_clean_prevouts (sample_Env_spending 5) sample_spent_DB 5 112
             sample_node6 (Block.mk [sample_spending_tx])
             initial_Walk sample_Walk_below_6 ltac:(lia)
             ltac:(vm_compute; reflexivity) eq_refl sample_spending_tx).
    - left.
    - left. }
  split; [reflexivity |]. split; [exact Hok |].
  exact (Hok sample_spent_txindex eq_refl).
Defined.

(** X27. At check level 5 and above, an input whose previous transaction
    is indexed with an empty [vSpent] is not flagged: [vSpent.size() - 1]
    wraps around to the largest [size_t], the bound test passes for
    every output number, and [vSpent[n]] then reads past the end of the
    empty vector. *)
Theorem check_tx_empty_vSpent_undefined
    (env : Env) (db : DB) (nCheckLevel pindex : Z) (node : CBlockIndex)
    (tx : CTransaction) (txin : CTxIn) (rest : list CTxIn) (txindex : CTxIndex)
    (w : Walk) :
  nCheckLevel > 4 ->
  Transaction.vin tx = txin :: rest ->
  ReadTxIndex db (OutPoint.hash (TxIn.prevout txin)) = Some txindex ->
  TxIndex.vSpent txindex = [] ->
  OutPoint.n (TxIn.prevout txin) < 2 ^ 64 ->
  check_prevout env db pindex node (Tx_GetHash env tx) txin w = Undefined
  /\ check_tx env db nCheckLevel pindex node tx w = Undefined.
Proof.
  intros Hlevel Hvin Hread Hempty Hn.
  assert (Hone : forall w0, check_prevout env db pindex node (Tx_GetHash env tx) txin w0
                            = Undefined).
  { intros w0. unfold check_prevout. rewrite Hread, Hempty. cbn [length Z.of_nat].
    rewrite bool_decide_eq_false_2; [reflexivity |].
    change ((Z.of_nat 0 - 1) mod 2 ^ 64) with 18446744073709551615.
    change (2 ^ 64) with 18446744073709551616 in Hn. lia. }
  split; [apply Hone |].
  unfold check_tx. rewrite (bool_decide_eq_true_2 _ Hlevel), Hvin.
  cbn [check_prevouts]. rewrite Hone. reflexivity.
Qed.

Lemma check_tx_empty_vSpent_undefined_witness :
  check_prevout (sample_Env 5 10 16 16) sample_no_outputs_DB 96 sample_node5
    (Tx_GetHash (sample_Env 5 10 16 16) (Transaction.mk [TxIn.mk (OutPoint.mk 700 0)] 505))
    (TxIn.mk (OutPoint.mk 700 0)) initial_Walk = Undefined
  /\ check_tx (sample_Env 5 10 16 16) sample_no_outputs_DB 5 96 sample_node5
       (Transaction.mk [TxIn.mk (OutPoint.mk 700 0)] 505) initial_Walk = Undefined.
Proof.
  apply (check_tx_empty_vSpent_undefined (sample_Env 5 10 16 16) sample_no_outputs_DB 5 96
           sample_node5 (Transaction.mk [TxIn.mk (OutPoint.mk 700 0)] 505)
           (TxIn.mk (OutPoint.mk 700 0)) [] (TxIndex.mk (DiskTxPos.mk 1 0 0) [])).
  - lia.
  - reflexivity.
  - reflexivity.
  - reflexivity.
  - simpl. lia.
Defined.

(** X28. Check level 1 is complete: from level 1 on, a block that fails
    [CheckBlock] is warned about as a bad block, and the fork pointer
    the checks of the block leave is the block's predecessor, whatever
    the later checks of the block find. *)
Theorem check_block_bad_block_flagged
    (env : Env) (db : DB) (nCheckLevel pindex : Z) (node : CBlockIndex)
    (block : CBlock) (w w' : Walk) :
  nCheckLevel > 0 ->
  CheckBlock env block true true (bool_decide (nCheckLevel > 6)) = false ->
  check_block env db nCheckLevel pindex node block w = Returns w' ->
  EvWarning pindex BadBlock ∈ walk_events w'
  /\ pindexFork w' = BlockIndex.pprev node.
Proof.
  intros Hlevel Hbad Hrun. unfold check_block in Hrun.
  rewrite (bool_decide_eq_true_2 _ Hlevel), Hbad in Hrun. cbn [negb andb] in Hrun.
  set (w0 := flag pindex node BadBlock w) in Hrun.
  destruct (bool_decide (nCheckLevel > 1)).
  - apply check_txs_flags in Hrun as (ws & Hev & Hfork). simpl in Hev, Hfork.
    split.
    + rewrite Hev. apply elem_of_app. left. apply elem_of_app. right. left.
    + rewrite Hfork. destruct ws; reflexivity.
  - injection Hrun as <-. split; [| reflexivity].
    simpl. apply elem_of_app. right. left.
Qed.

Lemma check_block_bad_block_flagged_witness :
  EvWarning 96 BadBlock
    ∈ walk_events {| pindexFork := Some 80; mapBlockPos := ∅;
                     walk_events := [EvWarning 96 BadBlock] |}
  /\ pindexFork {| pindexFork := Some 80; mapBlockPos := ∅;
                   walk_events := [EvWarning 96 BadBlock] |}
     = BlockIndex.pprev sample_node5.
Proof.
  apply (check_block_bad_block_flagged
           (set_CheckBlock (fun _ _ _ _ => false) (sample_Env 1 10 16 16))
           (sample_DB 10 (Some 109) (sample_txindex 1 50)) 1 96 sample_node5
           (Block.mk [Transaction.mk [] 505]) initial_Walk).
  - lia.
  - reflexivity.
  - reflexivity.
Defined.
